(** * Documenter-MCP: the documentation analysis engine

    A shallow embedding of the analysis core of the repository
    ([parsers/base.py], [analyzers/checker.py], [analyzers/evaluator.py],
    [core/orchestrator.py], [models.py]) together with the properties
    stated about it.

    Conventions of the embedding.
    - Python [str] is [string], for text whose code points lie below 256:
      a character is one [ascii] value read as that code point, and white
      space, word characters and letter case follow Python's Unicode rules
      on that range.
    - [Optional[T]] is [option T]; Python truthiness of an optional string
      is [truthy].
    - A Python [dict] is an association list kept in insertion order; a
      Python [set] is the duplicate-free list of its elements in insertion
      order, and it is iterated through [set_iter], the (unspecified)
      iteration order of the interpreter.
    - Regular expressions are an abstract syntax tree run by a backtracking
      matcher with the semantics of Python's [re] module.  Where a comment
      quotes a pattern of the source, its parts are separated by blanks.
    - Code under [try]/[except] lives in the result type [py_result].
    - The element objects of a file are the entries of its flat sequence;
      an analysis that writes into an element replaces the entry, and the
      module element, which holds the same objects in [functions] and
      [classes], refers to them by position ([ref], [deref]). *)

From Stdlib Require Import String Ascii List Bool Arith Lia PeanoNat.
From Stdlib Require Import ZArith QArith Permutation.
Import ListNotations.

Local Open Scope string_scope.
Local Open Scope list_scope.
Local Open Scope nat_scope.

(* ================================================================== *)
(** * Python strings *)
(* ================================================================== *)

Module PyStr.

Definition code (c : ascii) : nat := nat_of_ascii c.

Definition in_range (lo hi : nat) (c : ascii) : bool :=
  (lo <=? code c) && (code c <=? hi).

Definition is_upper (c : ascii) : bool := in_range 65 90 c.
Definition is_lower (c : ascii) : bool := in_range 97 122 c.
Definition is_digit (c : ascii) : bool := in_range 48 57 c.
Definition is_alpha (c : ascii) : bool := is_upper c || is_lower c.

(** The characters above 127 for which [str.isalnum] holds: the two
    ordinal indicators, the superscript digits, the micro sign, the vulgar
    fractions and the accented letters. *)
Definition is_high_alnum (c : ascii) : bool :=
  (code c =? 170) || in_range 178 179 c || (code c =? 181)
  || in_range 185 186 c || in_range 188 190 c
  || in_range 192 214 c || in_range 216 246 c || in_range 248 255 c.

(** [\w]: the characters for which [str.isalnum] holds, and the
    underscore. *)
Definition is_word (c : ascii) : bool :=
  is_alpha c || is_digit c || (code c =? 95) || is_high_alnum c.

(** [str.isspace] / [\s]: tab, newline, vertical tab, form feed, carriage
    return, the four separators 28..31, the space, the next-line control
    133 and the no-break space 160. *)
Definition is_space (c : ascii) : bool :=
  in_range 9 13 c || in_range 28 32 c || (code c =? 133) || (code c =? 160).

(** [str.lower] on one character: the letters [A]..[Z] and the accented
    capitals 192..214 and 216..222 move up by 32. *)
Definition lower_char (c : ascii) : ascii :=
  if is_upper c || in_range 192 214 c || in_range 216 222 c
  then ascii_of_nat (code c + 32) else c.

(** [str.upper] on one character, where the result is one character below
    256: the micro sign, the sharp s and the y with diaeresis, whose
    upper-case forms lie outside the range, are left as they are.  The
    source upper-cases nothing but the ASCII names of the element types
    (through [title]) and its case-insensitive patterns are ASCII. *)
Definition upper_char (c : ascii) : ascii :=
  if is_lower c || in_range 224 246 c || in_range 248 254 c
  then ascii_of_nat (code c - 32) else c.

Definition nl : ascii := ascii_of_nat 10.
Definition NL : string := String nl EmptyString.

Fixpoint lower (s : string) : string :=
  match s with
  | EmptyString => EmptyString
  | String c s' => String (lower_char c) (lower s')
  end.

(** [str.title] on ASCII text (the source calls it on the value of an
    element type only): the first letter of every run of letters is
    upper-cased, the others are lower-cased. *)
Fixpoint title_aux (in_word : bool) (s : string) : string :=
  match s with
  | EmptyString => EmptyString
  | String c s' =>
      if is_alpha c
      then String (if in_word then lower_char c else upper_char c)
                  (title_aux true s')
      else String c (title_aux false s')
  end.

Definition title (s : string) : string := title_aux false s.

Fixpoint lstrip (s : string) : string :=
  match s with
  | String c s' => if is_space c then lstrip s' else s
  | EmptyString => EmptyString
  end.

Fixpoint rev_append (s acc : string) : string :=
  match s with
  | EmptyString => acc
  | String c s' => rev_append s' (String c acc)
  end.

Definition rev (s : string) : string := rev_append s EmptyString.

Definition rstrip (s : string) : string := rev (lstrip (rev s)).

Definition strip (s : string) : string := rstrip (lstrip s).

Definition startswith (s p : string) : bool := String.prefix p s.

Definition endswith (s p : string) : bool := String.prefix (rev p) (rev s).

(** [p in s] on strings. *)
Fixpoint contains (s p : string) : bool :=
  String.prefix p s ||
  match s with
  | EmptyString => false
  | String _ s' => contains s' p
  end.

(** [s.split(sep)] for a one-character separator. *)
Fixpoint split_on (sep : ascii) (s : string) : list string :=
  match s with
  | EmptyString => [EmptyString]
  | String c s' =>
      if Ascii.eqb c sep then EmptyString :: split_on sep s'
      else match split_on sep s' with
           | [] => [String c EmptyString]
           | w :: ws => String c w :: ws
           end
  end.

Definition split_lines (s : string) : list string := split_on nl s.

(** [s.split()]: the maximal runs of non-whitespace characters. *)
Fixpoint split_ws_aux (cur : string) (s : string) : list string :=
  match s with
  | EmptyString =>
      match cur with EmptyString => [] | _ => [rev cur] end
  | String c s' =>
      if is_space c
      then match cur with
           | EmptyString => split_ws_aux EmptyString s'
           | _ => rev cur :: split_ws_aux EmptyString s'
           end
      else split_ws_aux (String c cur) s'
  end.

Definition split_ws (s : string) : list string := split_ws_aux EmptyString s.

(** [sep.join(parts)]. *)
Fixpoint join (sep : string) (parts : list string) : string :=
  match parts with
  | [] => EmptyString
  | [p] => p
  | p :: ps => p ++ sep ++ join sep ps
  end.

Fixpoint drop (n : nat) (s : string) : string :=
  match n, s with
  | 0, _ => s
  | S n', String _ s' => drop n' s'
  | S _, EmptyString => EmptyString
  end.

Fixpoint take (n : nat) (s : string) : string :=
  match n, s with
  | 0, _ => EmptyString
  | S n', String c s' => String c (take n' s')
  | S _, EmptyString => EmptyString
  end.

(** Truthiness of an [Optional[str]]: neither [None] nor the empty string. *)
Definition truthy (o : option string) : bool :=
  match o with
  | Some (String _ _) => true
  | _ => false
  end.

Definition mem (x : string) (l : list string) : bool :=
  existsb (String.eqb x) l.

(** An f-string: the concatenation of its parts. *)
Definition fstr (parts : list string) : string :=
  String.concat EmptyString parts.

End PyStr.

(* ================================================================== *)
(** * Regular expressions with the semantics of Python's [re] *)
(* ================================================================== *)

Module Re.

Import PyStr.

(** One item of a bracketed character set. *)
Inductive set_item : Type :=
| SChar (c : ascii)
| SRange (lo hi : ascii).

Inductive regex : Type :=
| Eps
| Chr (c : ascii)                        (* a literal character *)
| Dot                                     (* [.] *)
| CSet (negated : bool) (items : list set_item)   (* [[...]], [[^...]] *)
| WordC                                   (* [\w] *)
| SpaceC                                  (* [\s] *)
| WordB                                   (* [\b] *)
| Bos                                     (* [^] *)
| Eos                                     (* [$] *)
| Cat (r1 r2 : regex)
| Alt (r1 r2 : regex)
| Star (greedy : bool) (r : regex)        (* [r*], [r*?] *)
| Group (n : nat) (r : regex)             (* capturing group number n *)
| Look (r : regex).                       (* [(?=r)] *)

Definition Plus (greedy : bool) (r : regex) : regex := Cat r (Star greedy r).
Definition Opt (r : regex) : regex := Alt r Eps.

(** The literal string [s] as a regex. *)
Fixpoint Lit (s : string) : regex :=
  match s with
  | EmptyString => Eps
  | String c EmptyString => Chr c
  | String c s' => Cat (Chr c) (Lit s')
  end.

Fixpoint cats (rs : list regex) : regex :=
  match rs with
  | [] => Eps
  | [r] => r
  | r :: rs' => Cat r (cats rs')
  end.

Fixpoint alts (rs : list regex) : regex :=
  match rs with
  | [] => Eps
  | [r] => r
  | r :: rs' => Alt r (alts rs')
  end.

Record flags : Type := mkFlags { ignorecase : bool; dotall : bool }.

Definition no_flags : flags := mkFlags false false.
Definition DOTALL : flags := mkFlags false true.
Definition IGNORECASE : flags := mkFlags true false.

(** The matcher state: the character before the cursor, the text after it,
    the cursor position and the text captured by each group so far. *)
Record mstate : Type := mkState {
  prev : option ascii;
  rest : string;
  pos : nat;
  caps : list (nat * string)
}.

Definition item_matches (c : ascii) (i : set_item) : bool :=
  match i with
  | SChar d => Ascii.eqb c d
  | SRange lo hi => in_range (code lo) (code hi) c
  end.

Definition with_case (fl : flags) (p : ascii -> bool) (c : ascii) : bool :=
  if ignorecase fl then p c || p (lower_char c) || p (upper_char c) else p c.

(** Does the single-character regex [r] accept [c]?  [None] when [r] is not
    a single-character regex. *)
Definition accepts (fl : flags) (r : regex) (c : ascii) : option bool :=
  match r with
  | Chr d => Some (with_case fl (Ascii.eqb d) c)
  | Dot => Some (dotall fl || negb (Ascii.eqb c nl))
  | CSet neg items =>
      Some (xorb neg (with_case fl (fun x => existsb (item_matches x) items) c))
  | WordC => Some (is_word c)
  | SpaceC => Some (is_space c)
  | _ => None
  end.

Definition is_word_opt (o : option ascii) : bool :=
  match o with Some c => is_word c | None => false end.

Definition next_char (s : string) : option ascii :=
  match s with String c _ => Some c | EmptyString => None end.

Definition set_cap (n : nat) (v : string) (cs : list (nat * string))
  : list (nat * string) :=
  (n, v) :: filter (fun p => negb (fst p =? n)) cs.

Fixpoint get_cap (n : nat) (cs : list (nat * string)) : option string :=
  match cs with
  | [] => None
  | (m, v) :: cs' => if m =? n then Some v else get_cap n cs'
  end.

(** Backtracking matcher in continuation-passing style: [run fl r st k]
    tries every way [r] can match at [st], in Python's priority order, and
    returns the first one the continuation [k] accepts. *)
Fixpoint run (fl : flags) (r : regex) (st : mstate)
             (k : mstate -> option mstate) {struct r} : option mstate :=
  match r with
  | Eps => k st
  | Chr _ | Dot | CSet _ _ | WordC | SpaceC =>
      match rest st with
      | String c s' =>
          match accepts fl r c with
          | Some true => k (mkState (Some c) s' (S (pos st)) (caps st))
          | _ => None
          end
      | EmptyString => None
      end
  | WordB =>
      if xorb (is_word_opt (prev st)) (is_word_opt (next_char (rest st)))
      then k st else None
  | Bos => if pos st =? 0 then k st else None
  | Eos =>
      (* without MULTILINE: at the end, or just before a final newline *)
      match rest st with
      | EmptyString => k st
      | String c EmptyString => if Ascii.eqb c nl then k st else None
      | _ => None
      end
  | Cat r1 r2 => run fl r1 st (fun st1 => run fl r2 st1 k)
  | Alt r1 r2 =>
      match run fl r1 st k with
      | Some res => Some res
      | None => run fl r2 st k
      end
  | Star greedy r1 =>
      (fix iter (fuel : nat) (st0 : mstate) {struct fuel} : option mstate :=
         match fuel with
         | 0 => k st0
         | S fuel' =>
             let more :=
               run fl r1 st0
                   (fun st1 => if pos st1 <=? pos st0 then None
                               else iter fuel' st1) in
             if greedy
             then match more with Some res => Some res | None => k st0 end
             else match k st0 with Some res => Some res | None => more end
         end) (String.length (rest st)) st
  | Group n r1 =>
      run fl r1 st
          (fun st1 =>
             k (mkState (prev st1) (rest st1) (pos st1)
                        (set_cap n (take (pos st1 - pos st) (rest st))
                                 (caps st1))))
  | Look r1 =>
      match run fl r1 st Some with
      | Some st1 => k (mkState (prev st) (rest st) (pos st) (caps st1))
      | None => None
      end
  end.

(** A match object: where it starts, the matched text, the groups and the
    state right after the match. *)
Record rmatch : Type := mkMatch {
  m_start : nat;
  m_text : string;
  m_groups : list (nat * string);
  m_after : mstate
}.

Definition group (n : nat) (m : rmatch) : string :=
  match get_cap n (m_groups m) with Some v => v | None => EmptyString end.

Definition match_at (fl : flags) (r : regex) (st : mstate) : option rmatch :=
  match run fl r (mkState (prev st) (rest st) (pos st) []) Some with
  | Some st1 =>
      Some (mkMatch (pos st) (take (pos st1 - pos st) (rest st)) (caps st1)
                    (mkState (prev st1) (rest st1) (pos st1) []))
  | None => None
  end.

Definition start_state (s : string) : mstate := mkState None s 0 [].

(** [re.match]: anchored at the start of the string. *)
Definition rmatch_ (fl : flags) (r : regex) (s : string) : option rmatch :=
  match_at fl r (start_state s).

(** The leftmost match at or after the cursor. *)
Fixpoint search_from (fl : flags) (r : regex) (p : option ascii)
                     (s : string) (i : nat) : option rmatch :=
  match match_at fl r (mkState p s i []) with
  | Some m => Some m
  | None =>
      match s with
      | EmptyString => None
      | String c s' => search_from fl r (Some c) s' (S i)
      end
  end.

(** [re.search]. *)
Definition search (fl : flags) (r : regex) (s : string) : option rmatch :=
  search_from fl r None s 0.

Definition found (fl : flags) (r : regex) (s : string) : bool :=
  match search fl r s with Some _ => true | None => false end.

(** [re.finditer]: the successive non-overlapping matches, left to right.
    After an empty match the scan moves on by one character. *)
Fixpoint finditer_from (fuel : nat) (fl : flags) (r : regex) (st : mstate)
  : list rmatch :=
  match fuel with
  | 0 => []
  | S fuel' =>
      match search_from fl r (prev st) (rest st) (pos st) with
      | None => []
      | Some m =>
          let st1 := m_after m in
          if m_start m <? pos st1
          then m :: finditer_from fuel' fl r st1
          else match rest st1 with
               | EmptyString => [m]
               | String c s' =>
                   m :: finditer_from fuel' fl r
                          (mkState (Some c) s' (S (pos st1)) [])
               end
      end
  end.

Definition finditer (fl : flags) (r : regex) (s : string) : list rmatch :=
  finditer_from (S (String.length s)) fl r (start_state s).

(** [re.findall] for a pattern without capturing groups. *)
Definition findall (fl : flags) (r : regex) (s : string) : list string :=
  map m_text (finditer fl r s).

End Re.

(* ================================================================== *)
(** * Python built-ins and standard-library functions the code calls *)
(* ================================================================== *)

Module PyLib.

Import PyStr.

(** The outcome of code that may raise an [Exception]. *)
Inductive py_result (A : Type) : Type :=
| Ok (a : A)
| Raised (e : string).

Arguments Ok {A} a.
Arguments Raised {A} e.

Definition bind {A B : Type} (r : py_result A) (f : A -> py_result B)
  : py_result B :=
  match r with
  | Ok a => f a
  | Raised e => Raised e
  end.

(** [try: body / except Exception: handler]. *)
Definition try_except {A : Type} (body : py_result A)
                      (handler : string -> py_result A) : py_result A :=
  match body with
  | Ok a => Ok a
  | Raised e => handler e
  end.

(** A Python [set] of strings: its elements, without duplicates, in
    insertion order. *)
Definition pyset : Type := list string.

Definition set_add (x : string) (s : pyset) : pyset :=
  if mem x s then s else s ++ [x].

Definition set_of_list (l : list string) : pyset :=
  fold_left (fun s x => set_add x s) l [].

(** [a > b] on sets: [a] is a proper superset of [b]. *)
Definition set_gt (a b : pyset) : bool :=
  forallb (fun x => mem x a) b && negb (forallb (fun x => mem x b) a).

(** [max(iterable, key=key)]: the first item whose key no later item
    strictly exceeds; [None] stands for the [ValueError] on an empty
    iterable. *)
Fixpoint max_from {A K : Type} (gt : K -> K -> bool) (key : A -> K)
                  (best : A) (l : list A) : A :=
  match l with
  | [] => best
  | x :: l' =>
      if gt (key x) (key best) then max_from gt key x l'
      else max_from gt key best l'
  end.

Definition py_max {A K : Type} (gt : K -> K -> bool) (key : A -> K)
                  (l : list A) : option A :=
  match l with
  | [] => None
  | x :: l' => Some (max_from gt key x l')
  end.

(** A [dict] with string keys, in insertion order. *)
Definition pydict (V : Type) : Type := list (string * V).

Fixpoint dict_get {V : Type} (k : string) (d : pydict V) : option V :=
  match d with
  | [] => None
  | (k', v) :: d' => if String.eqb k k' then Some v else dict_get k d'
  end.

Fixpoint dict_set {V : Type} (k : string) (v : V) (d : pydict V) : pydict V :=
  match d with
  | [] => [(k, v)]
  | (k', v') :: d' =>
      if String.eqb k k' then (k', v) :: d' else (k', v') :: dict_set k v d'
  end.

Definition tab : ascii := ascii_of_nat 9.
Definition cr : ascii := ascii_of_nat 13.

Fixpoint spaces (n : nat) : string :=
  match n with
  | 0 => EmptyString
  | S n' => String " " (spaces n')
  end.

(** [str.expandtabs()] with the default tab size 8. *)
Fixpoint expandtabs_aux (col : nat) (s : string) : string :=
  match s with
  | EmptyString => EmptyString
  | String c s' =>
      if Ascii.eqb c tab
      then let n := 8 - col mod 8 in spaces n ++ expandtabs_aux (col + n) s'
      else if Ascii.eqb c nl || Ascii.eqb c cr
           then String c (expandtabs_aux 0 s')
           else String c (expandtabs_aux (S col) s')
  end.

Definition expandtabs (s : string) : string := expandtabs_aux 0 s.

Definition opt_min (m : option nat) (n : nat) : option nat :=
  match m with
  | None => Some n
  | Some k => Some (Nat.min k n)
  end.

(** The indentation of a line that is not blank, [None] for a blank one. *)
Definition indent_of (line : string) : option nat :=
  let content := String.length (lstrip line) in
  if content =? 0 then None else Some (String.length line - content).

Definition min_indent (lines : list string) : option nat :=
  fold_left (fun m line =>
               match indent_of line with
               | Some i => opt_min m i
               | None => m
               end) lines None.

Fixpoint drop_leading_blank (lines : list string) : list string :=
  match lines with
  | EmptyString :: ls => drop_leading_blank ls
  | _ => lines
  end.

Definition drop_trailing_blank (lines : list string) : list string :=
  List.rev (drop_leading_blank (List.rev lines)).

(** [inspect.cleandoc], which [ast.get_docstring] applies. *)
Definition cleandoc (doc : string) : string :=
  match split_lines (expandtabs doc) with
  | [] => EmptyString
  | first :: others =>
      let others' :=
        match min_indent others with
        | Some margin => map (drop margin) others
        | None => others
        end in
      join NL (drop_leading_blank
                 (drop_trailing_blank (lstrip first :: others')))
  end.

End PyLib.

Import PyStr PyLib.

(* ================================================================== *)
(** * The element model ([models.py]) *)
(* ================================================================== *)

Inductive DocumentationStatus : Type :=
| MISSING | INCOMPLETE | OUTDATED | GOOD | EXCELLENT.

Inductive CodeElementType : Type :=
| FUNCTION | METHOD | CLASS | MODULE | VARIABLE | CONSTANT | PROPERTY.

(** [CodeElementType.value]. *)
Definition type_value (t : CodeElementType) : string :=
  match t with
  | FUNCTION => "function"
  | METHOD => "method"
  | CLASS => "class"
  | MODULE => "module"
  | VARIABLE => "variable"
  | CONSTANT => "constant"
  | PROPERTY => "property"
  end.

Definition is_callable_type (t : CodeElementType) : bool :=
  match t with
  | FUNCTION | METHOD => true
  | _ => false
  end.

(** The dataclass [Parameter] of [models.py]. *)
Record Param : Type := mkParam {
  param_name : string;
  type_hint : option string;
  default_value : option string;
  param_description : option string;
  is_required : bool
}.

Record ReturnInfo : Type := mkReturnInfo {
  return_type_hint : option string;
  return_description : option string
}.

Record ExceptionInfo : Type := mkExceptionInfo {
  exception_type : string;
  exception_description : option string
}.

(** A path, with the two [pathlib] properties the code reads. *)
Record Path : Type := mkPath {
  path_str : string;
  stem : string;
  suffix : string
}.

(** A reference to an element object that a flat sequence of elements
    holds: its position in that sequence.  Two references to the same
    position are the same object, so whatever an analysis writes into the
    entry of the sequence is what both see. *)
Definition ref : Type := nat.

(** [CodeElement].  The fields no analysed function reads or writes
    ([attributes], [suggestions], [complexity_score], [is_deprecated],
    [tags]) are left out.  [methods] holds objects of its own, which only
    the class element refers to; [classes] and [functions], which only the
    extractor fills, hold the very objects the flat sequence holds and are
    kept as references to its entries. *)
#[warnings="-register-all"] Inductive CodeElement : Type := mkCodeElement {
  name : string;
  element_type : CodeElementType;
  file_path : Path;
  line_number : nat;
  end_line_number : option nat;
  docstring : option string;
  summary : option string;
  description : option string;
  parameters : list Param;
  return_info : option ReturnInfo;
  exceptions : list ExceptionInfo;
  methods : list CodeElement;
  classes : list ref;
  functions : list ref;
  status : DocumentationStatus;
  issues : list string;
  visibility : string
}.

(** [CodeElement(name=..., element_type=..., file_path=..., line_number=...)]
    with every other field at its declared default; in particular
    [status = MISSING] and [visibility = "public"]. *)
Definition new_element (n : string) (t : CodeElementType) (p : Path)
                       (line : nat) : CodeElement :=
  mkCodeElement n t p line None None None None [] None [] [] [] []
                MISSING [] "public".

Definition set_docstring (d : option string) (e : CodeElement) : CodeElement :=
  mkCodeElement (name e) (element_type e) (file_path e) (line_number e)
    (end_line_number e) d (summary e) (description e) (parameters e)
    (return_info e) (exceptions e) (methods e) (classes e) (functions e)
    (status e) (issues e) (visibility e).

Definition set_summary (s d : option string) (e : CodeElement) : CodeElement :=
  mkCodeElement (name e) (element_type e) (file_path e) (line_number e)
    (end_line_number e) (docstring e) s d (parameters e)
    (return_info e) (exceptions e) (methods e) (classes e) (functions e)
    (status e) (issues e) (visibility e).

Definition set_exceptions (x : list ExceptionInfo) (e : CodeElement)
  : CodeElement :=
  mkCodeElement (name e) (element_type e) (file_path e) (line_number e)
    (end_line_number e) (docstring e) (summary e) (description e)
    (parameters e) (return_info e) x (methods e) (classes e) (functions e)
    (status e) (issues e) (visibility e).

Definition set_methods (ms : list CodeElement) (e : CodeElement)
  : CodeElement :=
  mkCodeElement (name e) (element_type e) (file_path e) (line_number e)
    (end_line_number e) (docstring e) (summary e) (description e)
    (parameters e) (return_info e) (exceptions e) ms (classes e)
    (functions e) (status e) (issues e) (visibility e).

Definition set_members (cs fs : list ref) (e : CodeElement)
  : CodeElement :=
  mkCodeElement (name e) (element_type e) (file_path e) (line_number e)
    (end_line_number e) (docstring e) (summary e) (description e)
    (parameters e) (return_info e) (exceptions e) (methods e) cs fs
    (status e) (issues e) (visibility e).

Definition set_analysis (st : DocumentationStatus) (msgs : list string)
                        (e : CodeElement) : CodeElement :=
  mkCodeElement (name e) (element_type e) (file_path e) (line_number e)
    (end_line_number e) (docstring e) (summary e) (description e)
    (parameters e) (return_info e) (exceptions e) (methods e) (classes e)
    (functions e) st msgs (visibility e).

(** [DocumentationIssue].  The element the issue refers to is kept by
    name. *)
Record DocumentationIssue : Type := mkIssue {
  issue_element : string;
  issue_type : string;
  severity : string;
  message : string;
  suggestion : option string;
  issue_line : option nat
}.

Record FileAnalysisResult : Type := mkFileResult {
  fr_path : Path;
  language : string;
  elements : list CodeElement;
  fr_issues : list DocumentationIssue;
  coverage_score : Q;
  total_elements : nat;
  documented_elements : nat
}.

(** The object a reference stands for in a flat sequence. *)
Definition deref (elems : list CodeElement) (r : ref) : option CodeElement :=
  nth_error elems r.

Record ProjectAnalysisResult : Type := mkProjectResult {
  project_path : Path;
  files : list FileAnalysisResult;
  overall_coverage : Q;
  project_total_elements : nat;
  project_documented_elements : nat;
  issues_by_severity : pydict nat;
  coverage_by_language : pydict Q
}.

(* ================================================================== *)
(** * Configuration ([config.py]) *)
(* ================================================================== *)

Record DocumentationFormat : Type := mkDocFormat {
  style : string
}.

Record LanguageConfig : Type := mkLanguageConfig {
  extensions : list string;
  doc_format : DocumentationFormat
}.

Record AnalysisConfig : Type := mkAnalysisConfig {
  check_presence : bool;
  check_format : bool;
  check_completeness : bool;
  evaluate_clarity : bool;
  evaluate_consistency : bool;
  check_sync : bool
}.

Record ServerConfig : Type := mkServerConfig {
  languages : pydict LanguageConfig;
  analysis : AnalysisConfig
}.

(** [AnalysisConfig()] with its declared defaults. *)
Definition default_analysis : AnalysisConfig :=
  mkAnalysisConfig true true true true true true.

(** The five languages of [get_default_config].  The styles of the last
    two are not among those [_check_format] dispatches on. *)
Definition get_default_config : ServerConfig :=
  mkServerConfig
    [("python", mkLanguageConfig [".py"] (mkDocFormat "google"));
     ("javascript",
      mkLanguageConfig [".js"; ".ts"; ".jsx"; ".tsx"] (mkDocFormat "jsdoc"));
     ("java", mkLanguageConfig [".java"] (mkDocFormat "javadoc"));
     ("cpp",
      mkLanguageConfig [".cpp"; ".cc"; ".cxx"; ".h"; ".hpp"]
                       (mkDocFormat "doxygen"));
     ("go", mkLanguageConfig [".go"] (mkDocFormat "godoc"))]
    default_analysis.

(* ================================================================== *)
(** * The syntax trees of Python's [ast] module *)
(* ================================================================== *)

Module Ast.

(** An expression node, represented by what the two functions the
    extractor applies to it give: the outcome of [ast.unparse], which is
    the source text of the expression, or the [RecursionError] raised on
    an expression nested beyond the interpreter's recursion limit; and the
    text of [str()], which names the class and the address of the node. *)
Record expr : Type := mkExpr {
  unparse : py_result string;
  expr_str : string
}.

(** [ast.arg]. *)
Record arg : Type := mkArg {
  arg_name : string;
  annotation : option expr
}.

(** [ast.arguments]: the two fields the extractor reads. *)
Record arguments : Type := mkArguments {
  args : list arg;
  defaults : list expr
}.

(** The class of the object stored in a node's [parent] attribute. *)
Inductive node_class : Type :=
| ClassDefClass
| OtherClass.

(** The nodes [ast.walk] can meet that matter to the extractor.
    [fn_parent] is the [parent] attribute of a function node, [None] when
    the node has no such attribute.  A function written with [async def]
    is an [AsyncFunctionDef], which is not an instance of [FunctionDef].
    [Other] is any node that is none of the first three nor a
    string-constant expression statement (an [If], a [Try], an
    [ExceptHandler], ...), with the nodes nested in it. *)
#[warnings="-register-all"] Inductive node : Type :=
| FunctionDef (fn_name : string) (fn_args : arguments)
              (returns : option expr) (body : list node) (lineno : nat)
              (fn_parent : option node_class)
| AsyncFunctionDef (fn_name : string) (body : list node)
| ClassDef (cls_name : string) (body : list node) (lineno : nat)
           (end_lineno : option nat)
| ExprStr (value : string)
| Other (nested : list node).

(** [ast.Module]. *)
Record Module_ : Type := mkModule { mod_body : list node }.

(** [ast.iter_child_nodes], restricted to the nodes of type [node]. *)
Definition children (n : node) : list node :=
  match n with
  | FunctionDef _ _ _ body _ _ => body
  | AsyncFunctionDef _ body => body
  | ClassDef _ body _ _ => body
  | ExprStr _ => []
  | Other nested => nested
  end.

Fixpoint node_size (n : node) : nat :=
  match n with
  | FunctionDef _ _ _ body _ _ => S (list_sum (map node_size body))
  | AsyncFunctionDef _ body => S (list_sum (map node_size body))
  | ClassDef _ body _ _ => S (list_sum (map node_size body))
  | ExprStr _ => 1
  | Other nested => S (list_sum (map node_size nested))
  end.

Definition forest_size (l : list node) : nat := list_sum (map node_size l).

(** The loop of [ast.walk]: pop the first node of the queue, append its
    children at the end, yield it. *)
Fixpoint walk_queue (fuel : nat) (queue : list node) : list node :=
  match fuel, queue with
  | S fuel', n :: q => n :: walk_queue fuel' (q ++ children n)
  | _, _ => []
  end.

(** [ast.walk(tree)] without the leading [Module] node itself. *)
Definition walk (tree : Module_) : list node :=
  walk_queue (forest_size (mod_body tree)) (mod_body tree).

(** The raw docstring of a body: its first statement, when that is a
    string constant. *)
Definition raw_docstring (body : list node) : option string :=
  match body with
  | ExprStr s :: _ => Some s
  | _ => None
  end.

(** [ast.get_docstring(node)]. *)
Definition get_docstring (body : list node) : option string :=
  option_map cleandoc (raw_docstring body).

(** A node is in a forest when it is one of its roots or nested in one. *)
Inductive occurs (n : node) : list node -> Prop :=
| occurs_root : forall l, In n l -> occurs n l
| occurs_nested : forall l p, In p l -> occurs n (children p) -> occurs n l.

(** What [ast.parse] builds: no node carries a [parent] attribute. *)
Fixpoint parsed (n : node) : bool :=
  match n with
  | FunctionDef _ _ _ body _ None => forallb parsed body
  | FunctionDef _ _ _ _ _ (Some _) => false
  | AsyncFunctionDef _ body => forallb parsed body
  | ClassDef _ body _ _ => forallb parsed body
  | ExprStr _ => true
  | Other nested => forallb parsed nested
  end.

End Ast.

(* ================================================================== *)
(** * The extractor ([parsers/base.py]) *)
(* ================================================================== *)

Module Parser.

Import Ast.

(** ** [BaseParser] *)

(** [line[min_indent:] if len(line) > min_indent else line]. *)
Definition dedent_line (min_indent : nat) (line : string) : string :=
  if min_indent <? String.length line then drop min_indent line else line.

(** The indentation of the lines whose [strip()] is not empty. *)
Definition clean_min_indent (lines : list string) : option nat :=
  fold_left
    (fun m line =>
       match strip line with
       | EmptyString => m
       | _ => opt_min m (String.length line - String.length (lstrip line))
       end) lines None.

Definition _clean_docstring (docstring : string) : string :=
  match docstring with
  | EmptyString => EmptyString
  | _ =>
      let stripped := strip docstring in
      match split_lines stripped with
      | first :: ((_ :: _) as others) =>
          match clean_min_indent others with
          | Some min_indent =>
              join NL (first :: map (dedent_line min_indent) others)
          | None => stripped
          end
      | _ => stripped
      end
  end.

(** The pattern [^ ( label1 | label2 | ... ) : \s* $]. *)
Definition header_re (labels : Re.regex) : Re.regex :=
  Re.cats [Re.Bos; Re.Group 1 labels; Re.Chr ":"; Re.Star true Re.SpaceC;
           Re.Eos].

(** The pattern [word s?]. *)
Definition opt_s (word : string) : Re.regex :=
  Re.Cat (Re.Lit word) (Re.Opt (Re.Chr "s")).

Definition section_patterns : list (string * Re.regex) :=
  [("args", header_re (Re.alts [Re.Lit "Args"; Re.Lit "Arguments";
                                Re.Lit "Parameters"]));
   ("returns", header_re (Re.Alt (opt_s "Return") (Re.Lit "Return")));
   ("raises", header_re (Re.Alt (opt_s "Raise") (opt_s "Exception")));
   ("yields", header_re (opt_s "Yield"));
   ("examples", header_re (opt_s "Example"));
   ("note", header_re (Re.Alt (Re.Lit "Note") (Re.Lit "Notes")));
   ("warning", header_re (Re.Alt (Re.Lit "Warning") (Re.Lit "Warnings")))].

(** The first section whose header pattern matches the stripped line. *)
Fixpoint find_section (pats : list (string * Re.regex)) (line : string)
  : option string :=
  match pats with
  | [] => None
  | (section_name, pattern) :: pats' =>
      match Re.rmatch_ Re.IGNORECASE pattern line with
      | Some _ => Some section_name
      | None => find_section pats' line
      end
  end.

(** [if current_content: sections[current_section] = ...]. *)
Definition save_section (sections : pydict string) (current_section : string)
                        (current_content : list string) : pydict string :=
  match current_content with
  | [] => sections
  | _ => dict_set current_section (strip (join NL current_content)) sections
  end.

Fixpoint sections_loop (lines : list string) (sections : pydict string)
                       (current_section : string)
                       (current_content : list string) : pydict string :=
  match lines with
  | [] => save_section sections current_section current_content
  | line :: lines' =>
      match find_section section_patterns (strip line) with
      | Some section_found =>
          sections_loop lines'
            (save_section sections current_section current_content)
            section_found []
      | None =>
          sections_loop lines' sections current_section
                        (current_content ++ [line])
      end
  end.

Definition _parse_docstring_sections (docstring : string) : pydict string :=
  match docstring with
  | EmptyString => []
  | _ => sections_loop (split_lines docstring) [] "summary" []
  end.

(** ** [PythonParser] *)

(** [extract_docstring] on a module or class body. *)
Definition extract_docstring (body : list node) : option string :=
  option_map _clean_docstring (raw_docstring body).

(** [hasattr(node, 'parent') and isinstance(node.parent, ast.ClassDef)]. *)
Definition _is_method (fn_parent : option node_class) : bool :=
  match fn_parent with
  | Some ClassDefClass => true
  | _ => false
  end.

(** [try: return ast.unparse(annotation) / except: return
    str(annotation)]. *)
Definition _get_type_annotation (annotation : expr) : string :=
  match unparse annotation with
  | Ok text => text
  | Raised _ => expr_str annotation
  end.

Definition _get_visibility (name : string) : string :=
  if startswith name "__" && endswith name "__" then "special"
  else if startswith name "__" then "private"
  else if startswith name "_" then "protected"
  else "public".

Definition param_of_arg (a : arg) : Param :=
  mkParam (arg_name a) (option_map _get_type_annotation (annotation a))
          None None true.

(** [parameters[i].default_value = v; parameters[i].is_required = False]. *)
Fixpoint set_default (i : nat) (v : string) (ps : list Param) : list Param :=
  match ps, i with
  | [], _ => []
  | p :: ps', 0 =>
      mkParam (param_name p) (type_hint p) (Some v) (param_description p)
              false :: ps'
  | p :: ps', S i' => p :: set_default i' v ps'
  end.

(** The loop over [enumerate(defaults)], starting at index [i]:
    [ast.unparse] is called on the defaults whose parameter index is in
    range, and what it raises leaves the loop. *)
Fixpoint apply_defaults (n_defaults : nat) (i : nat) (ds : list expr)
                        (ps : list Param) : py_result (list Param) :=
  match ds with
  | [] => Ok ps
  | d :: ds' =>
      let param_index :=
        (Z.of_nat (length ps) - Z.of_nat n_defaults + Z.of_nat i)%Z in
      if ((0 <=? param_index)%Z && (param_index <? Z.of_nat (length ps))%Z)
      then bind (unparse d) (fun text =>
           apply_defaults n_defaults (S i) ds'
                          (set_default (Z.to_nat param_index) text ps))
      else apply_defaults n_defaults (S i) ds' ps
  end.

(** The arguments kept: all of them, unless the first one is named [self]
    and the node is recognised as a method. *)
Definition kept_args (fn_args : arguments) (fn_parent : option node_class)
  : list arg :=
  match args fn_args with
  | first_arg :: others =>
      if String.eqb (arg_name first_arg) "self" && _is_method fn_parent
      then others
      else first_arg :: others
  | [] => []
  end.

Definition _extract_parameters (fn_args : arguments)
                               (fn_parent : option node_class)
  : py_result (list Param) :=
  let parameters := map param_of_arg (kept_args fn_args fn_parent) in
  apply_defaults (length (defaults fn_args)) 0 (defaults fn_args) parameters.

(** [lines[0]] and [join(lines[1:]).strip()] of a stripped docstring, as
    [_parse_function] stores them. *)
Definition function_summary (docstring : string) : string * string :=
  match split_lines (strip docstring) with
  | [] => (EmptyString, EmptyString)
  | [first] => (first, EmptyString)
  | first :: others => (first, strip (join NL others))
  end.

(** The body of [_parse_function], inside its [try]. *)
Definition _parse_function_body (n : node) (path : Path)
  : py_result CodeElement :=
  match n with
  | FunctionDef fn_name fn_args returns body lineno fn_parent =>
      let element_type :=
        if _is_method fn_parent then METHOD else FUNCTION in
      bind (_extract_parameters fn_args fn_parent) (fun parameters =>
      let return_info :=
        option_map (fun r => mkReturnInfo (Some (_get_type_annotation r)) None)
                   returns in
      let element :=
        mkCodeElement fn_name element_type path lineno None None None None
                      parameters return_info [] [] [] [] MISSING [] "public" in
      match get_docstring body with
      | Some (String c d) =>
          let doc := String c d in
          let '(s, descr) := function_summary doc in
          Ok (set_summary (Some s) (Some descr)
                          (set_docstring (Some doc) element))
      | _ => Ok element
      end)
  | _ => Raised "AttributeError"
  end.

Definition _parse_function (n : node) (path : Path) : option CodeElement :=
  match _parse_function_body n path with
  | Ok element => Some element
  | Raised _ => None
  end.

(** The pattern [^ ( \w+ (?: \. \w+ )* ) : \s* ( .* )]. *)
Definition exception_line_re : Re.regex :=
  Re.cats [Re.Bos;
           Re.Group 1 (Re.Cat (Re.Plus true Re.WordC)
                              (Re.Star true (Re.Cat (Re.Chr ".")
                                                    (Re.Plus true Re.WordC))));
           Re.Chr ":"; Re.Star true Re.SpaceC;
           Re.Group 2 (Re.Star true Re.Dot)].

(** [if current_exception and current_desc: exceptions.append(...)]. *)
Definition flush_exception (exceptions : list ExceptionInfo)
                           (current_exception : option string)
                           (current_desc : list string)
  : list ExceptionInfo :=
  match current_exception, current_desc with
  | Some (String c x), _ :: _ =>
      exceptions ++
      [mkExceptionInfo (String c x) (Some (strip (join " " current_desc)))]
  | _, _ => exceptions
  end.

Fixpoint exceptions_loop (lines : list string)
                         (exceptions : list ExceptionInfo)
                         (current_exception : option string)
                         (current_desc : list string) : list ExceptionInfo :=
  match lines with
  | [] => flush_exception exceptions current_exception current_desc
  | raw :: lines' =>
      match strip raw with
      | EmptyString =>
          exceptions_loop lines' exceptions current_exception current_desc
      | line =>
          match Re.rmatch_ Re.no_flags exception_line_re line with
          | Some m =>
              exceptions_loop lines'
                (flush_exception exceptions current_exception current_desc)
                (Some (Re.group 1 m))
                (match Re.group 2 m with
                 | EmptyString => []
                 | g => [g]
                 end)
          | None =>
              exceptions_loop lines' exceptions current_exception
                (if truthy current_exception then current_desc ++ [line]
                 else current_desc)
          end
      end
  end.

Definition _parse_exceptions (raises_section : string) : list ExceptionInfo :=
  exceptions_loop (split_lines raises_section) [] None [].

(** [_parse_docstring_info].  It is only called on class elements, whose
    [parameters] are empty and whose [return_info] is [None], so its two
    branches for these fields change nothing. *)
Definition _parse_docstring_info (element : CodeElement) : CodeElement :=
  match docstring element with
  | Some (String c d) =>
      let sections := _parse_docstring_sections (String c d) in
      let element1 :=
        match dict_get "summary" sections with
        | Some text =>
            match split_lines text with
            | first :: ((_ :: _) as others) =>
                set_summary (Some (strip first))
                            (Some (strip (join NL others))) element
            | first :: [] =>
                set_summary (Some (strip first)) (description element) element
            | [] => element
            end
        | None => element
        end in
      match dict_get "raises" sections with
      | Some text => set_exceptions (_parse_exceptions text) element1
      | None => element1
      end
  | _ => element
  end.

(** The methods of a class: the functions that are statements of its body. *)
Fixpoint parse_methods (body : list node) (path : Path) : list CodeElement :=
  match body with
  | [] => []
  | (FunctionDef _ _ _ _ _ _ as item) :: body' =>
      match _parse_function item path with
      | Some method => method :: parse_methods body' path
      | None => parse_methods body' path
      end
  | _ :: body' => parse_methods body' path
  end.

Definition _parse_class_body (n : node) (path : Path)
  : py_result CodeElement :=
  match n with
  | ClassDef cls_name body lineno end_lineno =>
      let element :=
        mkCodeElement cls_name CLASS path lineno end_lineno
                      (extract_docstring body) None None [] None [] [] [] []
                      MISSING [] (_get_visibility cls_name) in
      let element := set_methods (parse_methods body path) element in
      Ok (if truthy (docstring element) then _parse_docstring_info element
          else element)
  | _ => Raised "AttributeError"
  end.

Definition _parse_class (n : node) (path : Path) : option CodeElement :=
  match _parse_class_body n path with
  | Ok element => Some element
  | Raised _ => None
  end.

(** The loop of [parse_file] over [ast.walk(tree)]: every function and
    class node met is parsed and, unless that gave [None], the one object
    built is appended both to [elements] and to the module element's
    [functions] or [classes].  [next] is the position the next object
    appended will have in the sequence [parse_file] returns. *)
Fixpoint collect (nodes : list node) (path : Path) (next : nat)
  : list CodeElement * list ref * list ref :=
  match nodes with
  | [] => ([], [], [])
  | n :: nodes' =>
      match n with
      | FunctionDef _ _ _ _ _ _ =>
          match _parse_function n path with
          | Some func_element =>
              let '(elems, fns, clss) := collect nodes' path (S next) in
              (func_element :: elems, next :: fns, clss)
          | None => collect nodes' path next
          end
      | ClassDef _ _ _ _ =>
          match _parse_class n path with
          | Some class_element =>
              let '(elems, fns, clss) := collect nodes' path (S next) in
              (class_element :: elems, fns, next :: clss)
          | None => collect nodes' path next
          end
      | _ => collect nodes' path next
      end
  end.

(** The elements built from a syntax tree.  [elements.insert(0,
    module_element)] puts the module element first, so the objects
    collected are at the positions from 1 on, where the module element's
    [functions] and [classes] refer to them. *)
Definition elements_of_tree (tree : Module_) (path : Path)
  : list CodeElement :=
  let '(elems, fns, clss) := collect (walk tree) path 1 in
  let module_element :=
    set_docstring (extract_docstring (mod_body tree))
                  (new_element (stem path) MODULE path 1) in
  set_members clss fns module_element :: elems.

Section ParseFile.

(** The file system and Python's own parser: [read_text path] is the
    outcome of opening and reading the file, [ast_parse content] that of
    [ast.parse(content)]. *)
Variable read_text : Path -> py_result string.
Variable ast_parse : string -> py_result Module_.

(** The body of [parse_file], inside its [try]. *)
Definition parse_file_body (path : Path) : py_result (list CodeElement) :=
  bind (read_text path) (fun content =>
  bind (ast_parse content) (fun tree =>
  Ok (elements_of_tree tree path))).

Definition parse_file (path : Path) : py_result (list CodeElement) :=
  try_except (parse_file_body path) (fun _ => Ok []).

End ParseFile.

End Parser.

(* ================================================================== *)
(** * The rule engine ([analyzers/checker.py]) *)
(* ================================================================== *)

Module Checker.

Definition new_issue (element : CodeElement) (kind sev msg sugg : string)
  : DocumentationIssue :=
  mkIssue (name element) kind sev msg (Some sugg)
          (Some (line_number element)).

(** [element.element_type.value.title()]. *)
Definition type_title (element : CodeElement) : string :=
  title (type_value (element_type element)).

Definition special_methods_to_document : list string :=
  ["__init__"; "__str__"; "__repr__"; "__call__";
   "__enter__"; "__exit__"; "__iter__"; "__next__"].

Definition _should_have_documentation (element : CodeElement) : bool :=
  if String.eqb (visibility element) "public" then true
  else if String.eqb (visibility element) "protected" then true
  else if String.eqb (visibility element) "private" then false
  else if String.eqb (visibility element) "special"
       then mem (name element) special_methods_to_document
       else true.

(** [not element.docstring or not element.docstring.strip()]. *)
Definition docstring_blank (element : CodeElement) : bool :=
  match docstring element with
  | Some d => negb (truthy (Some d)) || negb (truthy (Some (strip d)))
  | None => true
  end.

(** [\n \s* word], the shape of the section-header searches. *)
Definition header_search (tail : Re.regex) : Re.regex :=
  Re.cats [Re.Chr nl; Re.Star true Re.SpaceC; tail].

(** The look-ahead [(?= \n \s* \w+ : | $ )] that ends a Google section. *)
Definition section_end : Re.regex :=
  Re.Look (Re.Alt (Re.cats [Re.Chr nl; Re.Star true Re.SpaceC;
                            Re.Plus true Re.WordC; Re.Chr ":"])
                  Re.Eos).

(** [header \s* \n ( .*? ) (?= \n \s* \w+ : | $ )], with [re.DOTALL]. *)
Definition google_section_re (header : string) : Re.regex :=
  Re.cats [Re.Lit header; Re.Star true Re.SpaceC; Re.Chr nl;
           Re.Group 1 (Re.Star false Re.Dot); section_end].

(** [( \w+ ) : \s* ( .*? ) (?= \n \s* \w+ : | $ )], with [re.DOTALL]. *)
Definition google_param_re : Re.regex :=
  Re.cats [Re.Group 1 (Re.Plus true Re.WordC); Re.Chr ":";
           Re.Star true Re.SpaceC; Re.Group 2 (Re.Star false Re.Dot);
           section_end].

(** [:param ( \w+ ) : \s* ( .*? ) (?= \n | $ )]. *)
Definition sphinx_param_re : Re.regex :=
  Re.cats [Re.Lit ":param "; Re.Group 1 (Re.Plus true Re.WordC); Re.Chr ":";
           Re.Star true Re.SpaceC; Re.Group 2 (Re.Star false Re.Dot);
           Re.Look (Re.Alt (Re.Chr nl) Re.Eos)].

(** [( \w+ (?: \. \w+ )* )], a possibly dotted name. *)
Definition dotted_name : Re.regex :=
  Re.Cat (Re.Plus true Re.WordC)
         (Re.Star true (Re.Cat (Re.Chr ".") (Re.Plus true Re.WordC))).

(** [documented[m.group(1)] = m.group(2).strip()] for each match. *)
Definition record_params (ms : list Re.rmatch) (documented : pydict string)
  : pydict string :=
  fold_left (fun d m => dict_set (Re.group 1 m) (strip (Re.group 2 m)) d)
            ms documented.

Definition _extract_documented_parameters (doc : option string)
  : pydict string :=
  match doc with
  | Some (String c d) =>
      let docstring := String c d in
      let documented :=
        match Re.search Re.DOTALL (google_section_re "Args:") docstring with
        | Some args_match =>
            record_params
              (Re.finditer Re.DOTALL google_param_re (Re.group 1 args_match))
              []
        | None => []
        end in
      record_params (Re.finditer Re.no_flags sphinx_param_re docstring)
                    documented
  | _ => []
  end.

Definition _extract_documented_exceptions (doc : option string) : pyset :=
  match doc with
  | Some (String c d) =>
      let docstring := String c d in
      let documented :=
        match Re.search Re.DOTALL (google_section_re "Raises:") docstring with
        | Some raises_match =>
            set_of_list
              (map (Re.group 1)
                   (Re.finditer Re.no_flags
                      (Re.Cat (Re.Group 1 dotted_name) (Re.Chr ":"))
                      (Re.group 1 raises_match)))
        | None => []
        end in
      fold_left (fun s m => set_add (Re.group 1 m) s)
        (Re.finditer Re.no_flags
           (Re.cats [Re.Lit ":raises "; Re.Group 1 dotted_name; Re.Chr ":"])
           docstring)
        documented
  | _ => []
  end.

(** The six patterns of [_has_return_documentation], all searched with
    [re.IGNORECASE]. *)
Definition return_patterns : list Re.regex :=
  let word := Re.Plus true Re.WordC in
  let sp := Re.Star true Re.SpaceC in
  let sp1 := Re.Plus true Re.SpaceC in
  let returns := Re.Cat (Re.Lit "Return") (Re.Opt (Re.Chr "s")) in
  let lreturns := Re.Cat (Re.Lit "return") (Re.Opt (Re.Chr "s")) in
  [header_search (Re.cats [returns; Re.Chr ":"; sp; word]);
   header_search (Re.cats [Re.Lit "Return:"; sp; word]);
   Re.cats [Re.Chr ":"; lreturns; Re.Chr ":"; sp; word];
   Re.cats [Re.Lit ":return:"; sp; word];
   Re.cats [Re.Chr "@"; lreturns; sp1; word];
   Re.cats [Re.Lit "@return"; sp1; word]].

Definition _has_return_documentation (doc : option string) : bool :=
  match doc with
  | Some (String c d) =>
      existsb (fun pattern => Re.found Re.IGNORECASE pattern (String c d))
              return_patterns
  | _ => false
  end.

Definition _has_summary_in_docstring (doc : string) : bool :=
  match doc with
  | EmptyString => false
  | _ =>
      let first_line := strip (hd EmptyString (split_lines doc)) in
      (0 <? String.length first_line) &&
      negb (existsb (startswith first_line)
                    ["Args:"; "Parameters:"; "Returns:"])
  end.

Section Rules.

Variable config : ServerConfig.

Let analysis_config : AnalysisConfig := analysis config.

Definition _check_presence (element : CodeElement)
  : list DocumentationIssue :=
  if negb (check_presence analysis_config) then []
  else if _should_have_documentation element && docstring_blank element
  then [new_issue element "missing_documentation"
          (if String.eqb (visibility element) "public"
           then "high" else "medium")
          (fstr [type_title element; " '"; name element;
                 "' is missing documentation"])
          (fstr ["Add a docstring to describe the purpose and usage of ";
                 name element])]
  else [].

Definition format_violation (element : CodeElement) (msg sugg : string)
  : DocumentationIssue :=
  new_issue element "format_violation" "low" msg sugg.

Definition has_parameters (element : CodeElement) : bool :=
  match parameters element with [] => false | _ => true end.

Definition has_return_info (element : CodeElement) : bool :=
  match return_info element with Some _ => true | None => false end.

Definition _check_google_format (element : CodeElement) (doc : string)
  : list DocumentationIssue :=
  if is_callable_type (element_type element) then
    (if has_parameters element
        && negb (Re.found Re.no_flags (header_search (Re.Lit "Args:")) doc)
     then [format_violation element
             "Google-style docstring should have 'Args:' section for parameters"
             "Add 'Args:' section to document parameters"]
     else [])
    ++
    (if has_return_info element
        && negb (Re.found Re.no_flags (header_search (Re.Lit "Returns:")) doc)
     then [format_violation element
             "Google-style docstring should have 'Returns:' section"
             "Add 'Returns:' section to document return value"]
     else [])
  else [].

(** [\n \s* Parameters \s* \n \s* -+]. *)
Definition numpy_parameters_re : Re.regex :=
  header_search (Re.cats [Re.Lit "Parameters"; Re.Star true Re.SpaceC;
                          Re.Chr nl; Re.Star true Re.SpaceC;
                          Re.Plus true (Re.Chr "-")]).

Definition _check_numpy_format (element : CodeElement) (doc : string)
  : list DocumentationIssue :=
  if is_callable_type (element_type element)
     && has_parameters element
     && negb (Re.found Re.no_flags numpy_parameters_re doc)
  then [format_violation element
          (fstr ["NumPy-style docstring should have 'Parameters' section ";
                 "with underline"])
          "Add 'Parameters' section with dashes underline"]
  else [].

(** One issue for every parameter whose tag pattern is not found.  The
    pattern is built from the parameter name, an identifier, which
    therefore stands for itself. *)
Definition per_param_format (element : CodeElement) (doc : string)
                            (tag : string -> Re.regex)
                            (msg sugg : string -> string)
  : list DocumentationIssue :=
  if is_callable_type (element_type element) then
    flat_map
      (fun param =>
         if Re.found Re.no_flags (tag (param_name param)) doc then []
         else [format_violation element (msg (param_name param))
                                (sugg (param_name param))])
      (parameters element)
  else [].

Definition _check_sphinx_format (element : CodeElement) (doc : string)
  : list DocumentationIssue :=
  per_param_format element doc
    (fun n => Re.Lit (fstr [":param "; n; ":"]))
    (fun n => fstr ["Sphinx-style docstring missing ':param "; n;
                    ":' directive"])
    (fun n => fstr ["Add ':param "; n; ": description' directive"]).

Definition _check_javadoc_format (element : CodeElement) (doc : string)
  : list DocumentationIssue :=
  per_param_format element doc
    (fun n => Re.Lit (fstr ["@param "; n]))
    (fun n => fstr ["Javadoc-style comment missing '@param "; n; "' tag"])
    (fun n => fstr ["Add '@param "; n; " description' tag"]).

(** [@param { [^}]* } name]. *)
Definition jsdoc_tag_re (n : string) : Re.regex :=
  Re.cats [Re.Lit "@param {"; Re.Star true (Re.CSet true [Re.SChar "}"]);
           Re.Lit "} "; Re.Lit n].

Definition _check_jsdoc_format (element : CodeElement) (doc : string)
  : list DocumentationIssue :=
  per_param_format element doc jsdoc_tag_re
    (fun n => fstr ["JSDoc-style comment missing '@param {type} "; n;
                    "' tag"])
    (fun n => fstr ["Add '@param {type} "; n; " description' tag"]).

Definition _check_format (element : CodeElement) (language : string)
  : list DocumentationIssue :=
  match docstring element with
  | Some (String c d) =>
      let doc := String c d in
      match dict_get language (languages config) with
      | None => []
      | Some lang_config =>
          let s := style (doc_format lang_config) in
          if String.eqb s "google" then _check_google_format element doc
          else if String.eqb s "numpy" then _check_numpy_format element doc
          else if String.eqb s "sphinx" then _check_sphinx_format element doc
          else if String.eqb s "javadoc"
               then _check_javadoc_format element doc
          else if String.eqb s "jsdoc" then _check_jsdoc_format element doc
          else []
      end
  | _ => []
  end.

Definition _check_parameters_documentation (element : CodeElement)
  : list DocumentationIssue :=
  let documented_params :=
    _extract_documented_parameters (docstring element) in
  flat_map
    (fun param =>
       let n := param_name param in
       if mem n ["self"; "cls"] then []
       else match dict_get n documented_params with
            | None =>
                [new_issue element "missing_parameter_doc" "medium"
                   (fstr ["Parameter '"; n; "' is not documented"])
                   (fstr ["Add documentation for parameter '"; n; "'"])]
            | Some desc =>
                if truthy (Some (strip desc)) then []
                else [new_issue element "empty_parameter_doc" "low"
                        (fstr ["Parameter '"; n;
                               "' has empty documentation"])
                        (fstr ["Add description for parameter '"; n; "'"])]
            end)
    (parameters element).

Definition _check_return_documentation (element : CodeElement)
  : list DocumentationIssue :=
  if negb (has_return_info element)
     || startswith (name element) "__"
     || mem (name element) ["main"; "setup"; "teardown"]
  then []
  else if _has_return_documentation (docstring element) then []
  else [new_issue element "missing_return_doc" "medium"
          "Return value is not documented"
          "Add documentation for the return value"].

Definition _check_exceptions_documentation (element : CodeElement)
  : list DocumentationIssue :=
  match exceptions element with
  | [] => []
  | _ =>
      let documented_exceptions :=
        _extract_documented_exceptions (docstring element) in
      flat_map
        (fun exception =>
           let t := exception_type exception in
           if mem t documented_exceptions then []
           else [new_issue element "missing_exception_doc" "low"
                   (fstr ["Exception '"; t; "' is not documented"])
                   (fstr ["Add documentation for exception '"; t; "'"])])
        (exceptions element)
  end.

Definition _check_completeness (element : CodeElement)
  : list DocumentationIssue :=
  match docstring element with
  | Some (String c d) =>
      let doc := String c d in
      (if negb (truthy (summary element))
          && negb (_has_summary_in_docstring doc)
       then [new_issue element "missing_summary" "medium"
               (fstr [type_title element; " '"; name element;
                      "' lacks a summary description"])
               "Add a brief summary describing what this element does"]
       else [])
      ++
      (if is_callable_type (element_type element)
       then _check_parameters_documentation element
            ++ _check_return_documentation element
            ++ _check_exceptions_documentation element
       else [])
  | _ => []
  end.

(** [sum(1 for issue in issues if issue.severity == sev)]. *)
Definition count_severity (sev : string) (issues : list DocumentationIssue)
  : nat :=
  length (filter (fun issue => String.eqb (severity issue) sev) issues).

Definition _determine_status (element : CodeElement)
                             (issues : list DocumentationIssue)
  : DocumentationStatus :=
  if negb (truthy (docstring element)) then MISSING
  else
    let critical_issues := count_severity "critical" issues in
    let high_issues := count_severity "high" issues in
    let medium_issues := count_severity "medium" issues in
    let low_issues := count_severity "low" issues in
    if 0 <? critical_issues then INCOMPLETE
    else if 0 <? high_issues then INCOMPLETE
    else if 2 <? medium_issues then INCOMPLETE
    else if (0 <? medium_issues) || (3 <? low_issues) then OUTDATED
    else if 0 <? low_issues then GOOD
    else EXCELLENT.

(** The issues [_check_element] accumulates, stage by stage. *)
Definition element_issues (element : CodeElement) (language : string)
  : list DocumentationIssue :=
  (if check_presence analysis_config then _check_presence element else [])
  ++
  (if truthy (docstring element) && check_format analysis_config
   then _check_format element language else [])
  ++
  (if truthy (docstring element) && check_completeness analysis_config
   then _check_completeness element else []).

(** [_check_element]: the element with its status and messages set, and
    the issues to append to the file result.  The element is an entry of
    the flat sequence; what refers to that entry sees the new status and
    messages. *)
Definition _check_element (element : CodeElement) (language : string)
  : CodeElement * list DocumentationIssue :=
  let issues := element_issues element language in
  (set_analysis (_determine_status element issues) (map message issues)
                element,
   issues).

(** The loop of [check_file] over [file_result.elements]. *)
Fixpoint check_elements (elems : list CodeElement) (language : string)
  : list CodeElement * list DocumentationIssue :=
  match elems with
  | [] => ([], [])
  | element :: elems' =>
      let '(element', issues) := _check_element element language in
      let '(rest_elems, rest_issues) := check_elements elems' language in
      (element' :: rest_elems, issues ++ rest_issues)
  end.

(** The two counters of [_calculate_coverage], one loop step at a time. *)
Fixpoint coverage_counts (elems : list CodeElement) (total documented : nat)
  : nat * nat :=
  match elems with
  | [] => (total, documented)
  | element :: elems' =>
      if _should_have_documentation element
      then coverage_counts elems' (S total)
             (match status element with
              | MISSING => documented
              | _ => S documented
              end)
      else coverage_counts elems' total documented
  end.

(** [documented / total] for a positive [total]: the exact quotient. *)
Definition truediv (documented total : nat) : Q :=
  Z.of_nat documented # Pos.of_nat total.

Definition _calculate_coverage (file_result : FileAnalysisResult)
  : FileAnalysisResult :=
  let '(total, documented) :=
    coverage_counts (elements file_result) 0 0 in
  mkFileResult (fr_path file_result) (language file_result)
    (elements file_result) (fr_issues file_result)
    (if 0 <? total then truediv documented total else 1%Q)
    total documented.

Definition check_file (file_result : FileAnalysisResult)
  : FileAnalysisResult :=
  let '(elems, issues) :=
    check_elements (elements file_result) (language file_result) in
  _calculate_coverage
    (mkFileResult (fr_path file_result) (language file_result) elems
       (fr_issues file_result ++ issues)
       (coverage_score file_result) (total_elements file_result)
       (documented_elements file_result)).

End Rules.

End Checker.

(* ================================================================== *)
(** * The quality evaluator ([analyzers/evaluator.py]) *)
(* ================================================================== *)

Module Evaluator.

Import Checker.

(** The state an evaluator keeps across files and across runs. *)
Record EvaluatorState : Type := mkEvaluatorState {
  project_terminology : pydict pyset;
  project_patterns : pydict nat
}.

(** The state [__init__] creates. *)
Definition initial_state : EvaluatorState := mkEvaluatorState [] [].

(** [\b [A-Z][a-z]+ (?: [A-Z][a-z]+ )* \b], the terms collected. *)
Definition term_re : Re.regex :=
  let capitalised :=
    Re.Cat (Re.CSet false [Re.SRange "A" "Z"])
           (Re.Plus true (Re.CSet false [Re.SRange "a" "z"])) in
  Re.cats [Re.WordB; capitalised; Re.Star true capitalised; Re.WordB].

(** [( \w+ )]. *)
Definition word_group : Re.regex := Re.Group 1 (Re.Plus true Re.WordC).

(** The evaluator's own [_extract_documented_parameters]: the set of the
    documented names, in the order the four scans add them. *)
Definition _extract_documented_parameters (doc : option string) : pyset :=
  match doc with
  | Some (String c d) =>
      let docstring := String c d in
      let names (fl : Re.flags) (r : Re.regex) (text : string) :=
        map (Re.group 1) (Re.finditer fl r text) in
      let google :=
        match Re.search Re.DOTALL (google_section_re "Args:") docstring with
        | Some args_match =>
            names Re.no_flags (Re.Cat word_group (Re.Chr ":"))
                  (Re.group 1 args_match)
        | None => []
        end in
      set_of_list
        (google
         ++ names Re.no_flags
              (Re.cats [Re.Lit ":param "; word_group; Re.Chr ":"]) docstring
         ++ names Re.no_flags (Re.Cat (Re.Lit "@param ") word_group) docstring
         ++ names Re.no_flags
              (Re.cats [Re.Lit "@param {";
                        Re.Star true (Re.CSet true [Re.SChar "}"]);
                        Re.Lit "} "; word_group]) docstring)
  | _ => []
  end.

Definition _extract_summary_pattern (summary : string) : option string :=
  match split_ws (lower summary) with
  | w0 :: w1 :: more =>
      if mem w0 ["returns"; "gets"; "sets"; "creates"; "deletes"; "updates"]
      then Some (fstr [w0; "_pattern"])
      else if mem w0 ["a"; "an"; "the"]
           then match more with
                | _ :: _ => Some (fstr [w1; "_pattern"])
                | [] => None
                end
           else None
  | _ => None
  end.

Definition temporal_indicators : list string :=
  ["currently"; "now"; "at the moment"; "for now";
   "temporary"; "temporarily"; "will be"; "todo"; "fixme"].

(** [self.project_terminology[word.lower()].add(word)]. *)
Definition add_term (word : string) (terms : pydict pyset) : pydict pyset :=
  let key := lower word in
  match dict_get key terms with
  | Some variations => dict_set key (set_add word variations) terms
  | None => dict_set key [word] terms
  end.

(** [self.project_patterns[pattern] += 1]. *)
Definition count_pattern (pattern : string) (patterns : pydict nat)
  : pydict nat :=
  match dict_get pattern patterns with
  | Some n => dict_set pattern (S n) patterns
  | None => dict_set pattern 1 patterns
  end.

Definition collect_element (st : EvaluatorState) (element : CodeElement)
  : EvaluatorState :=
  match docstring element with
  | Some (String c d) =>
      let words := Re.findall Re.no_flags term_re (String c d) in
      let terms :=
        fold_left (fun t w => add_term w t) words (project_terminology st) in
      let patterns :=
        match summary element with
        | Some (String c' s') =>
            match _extract_summary_pattern (String c' s') with
            | Some (String c'' p) =>
                count_pattern (String c'' p) (project_patterns st)
            | _ => project_patterns st
            end
        | _ => project_patterns st
        end in
      mkEvaluatorState terms patterns
  | _ => st
  end.

Definition _collect_terminology (st : EvaluatorState)
                                (file_result : FileAnalysisResult)
  : EvaluatorState :=
  fold_left collect_element (elements file_result) st.

Definition add_file_issues (extra : list DocumentationIssue)
                           (file_result : FileAnalysisResult)
  : FileAnalysisResult :=
  mkFileResult (fr_path file_result) (language file_result)
    (elements file_result) (fr_issues file_result ++ extra)
    (coverage_score file_result) (total_elements file_result)
    (documented_elements file_result).

Section Evaluation.

Variable config : ServerConfig.

(** The order in which the interpreter iterates over a set. *)
Variable set_iter : pyset -> list string.

(** [_evaluate_clarity], whose readability scores come from the
    [textstat] library. *)
Variable _evaluate_clarity : CodeElement -> list DocumentationIssue.

Let analysis_config : AnalysisConfig := analysis config.

Definition _check_parameter_sync (element : CodeElement)
  : list DocumentationIssue :=
  let documented_params :=
    _extract_documented_parameters (docstring element) in
  let actual_params :=
    set_of_list
      (filter (fun n => negb (mem n ["self"; "cls"]))
              (map param_name (parameters element))) in
  flat_map
    (fun doc_param =>
       if mem doc_param actual_params then []
       else [new_issue element "sync_extra_param" "medium"
               (fstr ["Documented parameter '"; doc_param;
                      "' not found in function signature"])
               (fstr ["Remove documentation for '"; doc_param;
                      "' or check function signature"])])
    (set_iter documented_params)
  ++
  flat_map
    (fun actual_param =>
       if mem actual_param documented_params then []
       else [new_issue element "sync_missing_param" "medium"
               (fstr ["Parameter '"; actual_param;
                      "' exists in code but not documented"])
               (fstr ["Add documentation for parameter '"; actual_param;
                      "'"])])
    (set_iter actual_params).

Definition _check_outdated_information (element : CodeElement)
  : list DocumentationIssue :=
  match docstring element with
  | Some d =>
      match filter (contains (lower d)) temporal_indicators with
      | indicator :: _ =>
          [new_issue element "potentially_outdated" "low"
             (fstr ["Documentation contains temporal language: '";
                    indicator; "'"])
             "Review and update temporal references in documentation"]
      | [] => []
      end
  | None => []
  end.

Definition _check_synchronization (element : CodeElement)
  : list DocumentationIssue :=
  if truthy (docstring element) then
    (if is_callable_type (element_type element)
     then _check_parameter_sync element else [])
    ++ _check_outdated_information element
  else [].

(** [_evaluate_element]: the element with the new messages appended (the
    source extends [element.issues] in place) and the issues to append to
    the file result.  As in the checker, the element is an entry of the
    flat sequence. *)
Definition _evaluate_element (element : CodeElement)
  : CodeElement * list DocumentationIssue :=
  let found_issues :=
    (if evaluate_clarity analysis_config
     then _evaluate_clarity element else [])
    ++ (if check_sync analysis_config
        then _check_synchronization element else []) in
  (set_analysis (status element)
                (issues element ++ map message found_issues) element,
   found_issues).

Definition style_signatures : list (string * Re.regex) :=
  [("google", Re.cats [header_search (Re.Lit "Args:");
                       Re.Star true Re.SpaceC; Re.Chr nl]);
   ("numpy", numpy_parameters_re);
   ("sphinx", Re.cats [Re.Lit ":param "; Re.Plus true Re.WordC;
                       Re.Chr ":"]);
   ("javadoc", Re.Cat (Re.Lit "@param ") (Re.Plus true Re.WordC));
   ("jsdoc", Re.cats [Re.Lit "@param {";
                      Re.Star true (Re.CSet true [Re.SChar "}"]);
                      Re.Lit "} "; Re.Plus true Re.WordC])].

Definition _analyze_documentation_styles (elems : list CodeElement)
  : pyset :=
  fold_left
    (fun styles element =>
       match docstring element with
       | Some (String c d) =>
           fold_left
             (fun s sig =>
                if Re.found Re.no_flags (snd sig) (String c d)
                then set_add (fst sig) s else s)
             style_signatures styles
       | _ => styles
       end)
    elems [].

(** The issue [_check_file_consistency] adds, if any: one, on the first
    element that has a docstring. *)
Definition _check_file_consistency (file_result : FileAnalysisResult)
  : FileAnalysisResult :=
  let styles := _analyze_documentation_styles (elements file_result) in
  if 1 <? length styles then
    match filter (fun e => truthy (docstring e)) (elements file_result) with
    | element :: _ =>
        add_file_issues
          [new_issue element "inconsistent_style" "low"
             (fstr ["File uses multiple documentation styles: ";
                    join ", " (set_iter styles)])
             "Use consistent documentation style throughout the file"]
          file_result
    | [] => file_result
    end
  else file_result.

(** The loop of [evaluate_file] over the elements. *)
Fixpoint evaluate_elements (elems : list CodeElement)
  : list CodeElement * list DocumentationIssue :=
  match elems with
  | [] => ([], [])
  | element :: elems' =>
      let '(rest_elems, rest_issues) := evaluate_elements elems' in
      if truthy (docstring element)
      then let '(element', issues) := _evaluate_element element in
           (element' :: rest_elems, issues ++ rest_issues)
      else (element :: rest_elems, rest_issues)
  end.

Definition evaluate_file (file_result : FileAnalysisResult)
  : FileAnalysisResult :=
  let '(elems, issues) := evaluate_elements (elements file_result) in
  let file_result' :=
    mkFileResult (fr_path file_result) (language file_result) elems
      (fr_issues file_result ++ issues) (coverage_score file_result)
      (total_elements file_result) (documented_elements file_result) in
  if evaluate_consistency analysis_config
  then _check_file_consistency file_result'
  else file_result'.

(** The inner loop of [_check_terminology_consistency] for one term:
    each variation found in the docstring is compared with
    [max(variations, key=lambda x: self.project_terminology[term_lower])],
    whose key is the same set for every [x]. *)
Definition term_issues (element : CodeElement) (doc : string)
                       (variations : pyset) : list DocumentationIssue :=
  if 1 <? length variations then
    flat_map
      (fun variation =>
         if contains doc variation then
           match py_max set_gt (fun _ : string => variations)
                        (set_iter variations) with
           | Some most_common =>
               if String.eqb variation most_common then []
               else [new_issue element "terminology_inconsistency" "low"
                       (fstr ["Inconsistent terminology: '"; variation;
                              "' vs '"; most_common; "'"])
                       (fstr ["Use consistent terminology: '"; most_common;
                              "'"])]
           | None => []
           end
         else [])
      (set_iter variations)
  else [].

Definition _check_terminology_consistency (st : EvaluatorState)
                                          (element : CodeElement)
  : list DocumentationIssue :=
  match docstring element with
  | Some doc =>
      flat_map (fun entry => term_issues element doc (snd entry))
               (project_terminology st)
  | None => []
  end.

Definition _check_cross_file_consistency (st : EvaluatorState)
                                         (file_result : FileAnalysisResult)
  : list DocumentationIssue :=
  flat_map
    (fun element =>
       if truthy (docstring element)
       then _check_terminology_consistency st element else [])
    (elements file_result).

(** [evaluate_project]: the evaluator's state after the collection pass
    and the file results with the consistency issues appended. *)
Definition evaluate_project (st : EvaluatorState)
                            (fs : list FileAnalysisResult)
  : EvaluatorState * list FileAnalysisResult :=
  if negb (evaluate_consistency analysis_config) then (st, fs)
  else
    let st' := fold_left _collect_terminology fs st in
    (st',
     map (fun file_result =>
            add_file_issues (_check_cross_file_consistency st' file_result)
                            file_result)
         fs).

End Evaluation.

End Evaluator.

(* ================================================================== *)
(** * The orchestrator ([core/orchestrator.py]) *)
(* ================================================================== *)

Module Orchestrator.

Definition set_files (fs : list FileAnalysisResult)
                     (p : ProjectAnalysisResult) : ProjectAnalysisResult :=
  mkProjectResult (project_path p) fs (overall_coverage p)
    (project_total_elements p) (project_documented_elements p)
    (issues_by_severity p) (coverage_by_language p).

(** [issues_by_severity[s] = issues_by_severity.get(s, 0) + 1]. *)
Definition count_issue (histogram : pydict nat) (issue : DocumentationIssue)
  : pydict nat :=
  let s := severity issue in
  dict_set s (match dict_get s histogram with Some n => n | None => 0 end + 1)
           histogram.

(** [coverage_by_language[language].append(score)], creating the list
    first when the language is new. *)
Definition add_score (language : string) (score : Q)
                     (by_language : pydict (list Q)) : pydict (list Q) :=
  match dict_get language by_language with
  | Some scores => dict_set language (scores ++ [score]) by_language
  | None => dict_set language [score] by_language
  end.

(** [sum(scores) / len(scores)]. *)
Definition average (scores : list Q) : Q :=
  (fold_left Qplus scores 0 / inject_Z (Z.of_nat (length scores)))%Q.

(** The accumulators of [_calculate_project_metrics]. *)
Record Metrics : Type := mkMetrics {
  m_total : nat;
  m_documented : nat;
  m_histogram : pydict nat;
  m_by_language : pydict (list Q)
}.

Definition metrics_step (m : Metrics) (file_result : FileAnalysisResult)
  : Metrics :=
  mkMetrics (m_total m + total_elements file_result)
            (m_documented m + documented_elements file_result)
            (fold_left count_issue (fr_issues file_result) (m_histogram m))
            (add_score (language file_result) (coverage_score file_result)
                       (m_by_language m)).

Definition _calculate_project_metrics (p : ProjectAnalysisResult)
  : ProjectAnalysisResult :=
  let m := fold_left metrics_step (files p) (mkMetrics 0 0 [] []) in
  mkProjectResult (project_path p) (files p)
    (if 0 <? m_total m then Checker.truediv (m_documented m) (m_total m)
     else 1%Q)
    (m_total m) (m_documented m) (m_histogram m)
    (fold_left (fun d entry => dict_set (fst entry) (average (snd entry)) d)
               (m_by_language m) (coverage_by_language p)).

Section Pipeline.

Variable config : ServerConfig.
Variable set_iter : pyset -> list string.
Variable _evaluate_clarity : CodeElement -> list DocumentationIssue.
Variable read_text : Path -> py_result string.
Variable ast_parse : string -> py_result Ast.Module_.

Definition _detect_language (file_path : Path) : option string :=
  let extension := lower (suffix file_path) in
  match filter (fun entry => mem extension (extensions (snd entry)))
               (languages config) with
  | (lang, _) :: _ => Some lang
  | [] => None
  end.

(** The body of [_analyze_file], inside its [try]. *)
Definition _analyze_file_body (file_path : Path)
  : py_result (option FileAnalysisResult) :=
  match _detect_language file_path with
  | Some (String c l) =>
      let language := String c l in
      bind (Parser.parse_file read_text ast_parse file_path)
        (fun elems =>
           let file_result :=
             mkFileResult file_path language elems [] 0%Q 0 0 in
           Ok (Some (Evaluator.evaluate_file config set_iter
                       _evaluate_clarity
                       (Checker.check_file config file_result))))
  | _ => Ok None
  end.

Definition _analyze_file (file_path : Path) : option FileAnalysisResult :=
  match _analyze_file_body file_path with
  | Ok r => r
  | Raised _ => None
  end.

(** The loop of [analyze_project] over the files to analyse. *)
Definition analyze_files (paths : list Path) : list FileAnalysisResult :=
  flat_map (fun file_path =>
              match _analyze_file file_path with
              | Some file_result => [file_result]
              | None => []
              end) paths.

(** [analyze_project], given the files [_get_files_to_analyze] found and
    the evaluator's state: the metrics are calculated, then the
    project-wide consistency is evaluated. *)
Definition analyze_project (st : Evaluator.EvaluatorState)
                           (project : Path) (paths : list Path)
  : Evaluator.EvaluatorState * ProjectAnalysisResult :=
  let project_result :=
    mkProjectResult project (analyze_files paths) 0%Q 0 0 [] [] in
  let project_result := _calculate_project_metrics project_result in
  let '(st', fs) :=
    Evaluator.evaluate_project config set_iter st (files project_result) in
  (st', set_files fs project_result).

End Pipeline.

End Orchestrator.

(* ================================================================== *)
(** * The statements of the specification, and the inputs used below *)
(* ================================================================== *)

Module Spec.

(** The status rule in the words of the specification: the first rule
    that applies decides; [None] when none of the six does. *)
Definition status_by_precedence (has_doc : bool)
                                (critical high medium low total : nat)
  : option DocumentationStatus :=
  if negb has_doc then Some MISSING
  else if (0 <? critical) || (0 <? high) then Some INCOMPLETE
  else if 2 <? medium then Some INCOMPLETE
  else if ((1 <=? medium) && (medium <=? 2)) || (3 <? low) then Some OUTDATED
  else if (1 <=? low) && (low <=? 3) && (medium =? 0) then Some GOOD
  else if total =? 0 then Some EXCELLENT
  else None.

(** An element that should be documented and carries a doc blob. *)
Definition documented (element : CodeElement) : bool :=
  Checker._should_have_documentation element && truthy (docstring element).

(** Coverage in the words of the specification. *)
Definition coverage (elems : list CodeElement) : Q :=
  let should := length (filter Checker._should_have_documentation elems) in
  let have := length (filter documented elems) in
  if should =? 0 then 1%Q
  else (inject_Z (Z.of_nat have) / inject_Z (Z.of_nat should))%Q.

(** The configuration with the presence stage switched off. *)
Definition without_presence (config : ServerConfig) : ServerConfig :=
  let a := analysis config in
  mkServerConfig (languages config)
    (mkAnalysisConfig false (check_format a) (check_completeness a)
       (evaluate_clarity a) (evaluate_consistency a) (check_sync a)).

(** The severities the three stages of the checker use. *)
Definition checker_severity (issue : DocumentationIssue) : Prop :=
  severity issue = "high" \/ severity issue = "medium"
  \/ severity issue = "low".

Definition count_type (kind : string) (issues : list DocumentationIssue)
  : nat :=
  length (filter (fun issue => String.eqb (issue_type issue) kind) issues).

(** The kind, the severity and the message of an issue. *)
Definition brief (issue : DocumentationIssue) : string * string * string :=
  (issue_type issue, severity issue, message issue).

(** The terminology issue for [variation] against [reference]. *)
Definition terminology_issue (element : CodeElement)
                             (variation reference : string)
  : DocumentationIssue :=
  Checker.new_issue element "terminology_inconsistency" "low"
    (fstr ["Inconsistent terminology: '"; variation; "' vs '"; reference;
           "'"])
    (fstr ["Use consistent terminology: '"; reference; "'"]).





End Spec.

Module Inputs.

Import Ast.

(** The iteration order that yields a set's elements as they were added. *)
Definition insertion_order (s : pyset) : list string := s.

(** A clarity evaluation that reports nothing. *)
Definition no_clarity (_ : CodeElement) : list DocumentationIssue := [].

(** The default configuration with the clarity evaluation switched off. *)
Definition config_no_clarity : ServerConfig :=
  mkServerConfig (languages get_default_config)
                 (mkAnalysisConfig true true true false true true).

Definition lines (ls : list string) : string := join NL ls.

(** [calc.py]: a function whose two parameters are documented in Google
    style. *)
Definition calc_py : Path := mkPath "calc.py" "calc" ".py".

Definition calc_source : string :=
  lines ["def add(a, b):";
         "    '''Adds two numbers.";
         "";
         "    Args:";
         "        a: x";
         "        b: y";
         "    '''";
         "    return a + b"].

Definition fn_add : node :=
  FunctionDef "add" (mkArguments [mkArg "a" None; mkArg "b" None] []) None
    [ExprStr (lines ["Adds two numbers."; ""; "    Args:"; "        a: x";
                     "        b: y"; "    "]);
     Other []]
    1 None.

Definition calc_tree : Module_ := mkModule [fn_add].

(** The docstring [ast.get_docstring] gives for [add]. *)
Definition doc_add : string :=
  lines ["Adds two numbers."; ""; "Args:"; "    a: x"; "    b: y"].

(** [helpers.py]: a function with a leading underscore and a class with a
    leading double underscore. *)
Definition helpers_py : Path := mkPath "helpers.py" "helpers" ".py".

Definition helpers_source : string :=
  lines ["def _helper():";
         "    pass";
         "";
         "class __Hidden:";
         "    pass"].

Definition fn_helper : node :=
  FunctionDef "_helper" (mkArguments [] []) None [Other []] 1 None.

Definition cls_hidden : node := ClassDef "__Hidden" [Other []] 4 (Some 5).

Definition helpers_tree : Module_ := mkModule [fn_helper; cls_hidden].

(** [account.py]: a class with one method. *)
Definition account_py : Path := mkPath "account.py" "account" ".py".

Definition account_source : string :=
  lines ["class Account:";
         "    def deposit(self, amount):";
         "        pass"].

Definition fn_deposit : node :=
  FunctionDef "deposit"
              (mkArguments [mkArg "self" None; mkArg "amount" None] [])
              None [Other []] 2 None.

Definition cls_account : node := ClassDef "Account" [fn_deposit] 1 (Some 3).

Definition account_tree : Module_ := mkModule [cls_account].

(** A function without parameters whose body is the docstring [doc]. *)
Definition documented_fn (fn_name doc : string) (lineno : nat) : node :=
  FunctionDef fn_name (mkArguments [] []) None [ExprStr doc] lineno None.

Definition documented_source (fn_name doc : string) : list string :=
  [fstr ["def "; fn_name; "():"]; fstr ["    '''"; doc; "'''"]].

(** [store.py] writes [UserId] in two docstrings, [load.py] writes
    [userid] in one. *)
Definition store_py : Path := mkPath "store.py" "store" ".py".

Definition store_source : string :=
  lines (documented_source "store" "Stores the UserId." ++ [""; ""]
         ++ documented_source "drop" "Removes the UserId.").

Definition store_tree : Module_ :=
  mkModule [documented_fn "store" "Stores the UserId." 1;
            documented_fn "drop" "Removes the UserId." 5].

Definition load_source : string :=
  lines (documented_source "load" "Reads the userid.").

Definition load_tree : Module_ :=
  mkModule [documented_fn "load" "Reads the userid." 1].

(** [legacy.py] writes [Userid] in its one docstring. *)
Definition legacy_py : Path := mkPath "legacy.py" "legacy" ".py".

Definition legacy_source : string :=
  lines (documented_source "fetch" "Fetches the Userid.").

Definition legacy_tree : Module_ :=
  mkModule [documented_fn "fetch" "Fetches the Userid." 1].

(** [users.py] writes [UserId] in one docstring and [Userid] in another. *)
Definition users_py : Path := mkPath "users.py" "users" ".py".

Definition users_source : string :=
  lines (documented_source "store" "Stores the UserId." ++ [""; ""]
         ++ documented_source "load" "Reads the Userid.").

Definition users_tree : Module_ :=
  mkModule [documented_fn "store" "Stores the UserId." 1;
            documented_fn "load" "Reads the Userid." 5].

(** The directory the files above are in. *)
Definition project_root : Path := mkPath "." "" "".

(** [broken.py] is not Python. *)
Definition broken_py : Path := mkPath "broken.py" "broken" ".py".

Definition broken_source : string := "def broken(:".

Definition file_system : list (string * string) :=
  [("calc.py", calc_source); ("helpers.py", helpers_source);
   ("account.py", account_source); ("store.py", store_source);
   ("load.py", load_source); ("legacy.py", legacy_source);
   ("users.py", users_source);
   ("broken.py", broken_source)].

(** Opening and reading a file: its text, or a [FileNotFoundError]. *)
Definition read_text (p : Path) : py_result string :=
  match dict_get (path_str p) file_system with
  | Some content => Ok content
  | None => Raised "FileNotFoundError"
  end.

(** [ast.parse] on the sources above; a [SyntaxError] on any other text. *)
Definition ast_parse (content : string) : py_result Module_ :=
  if String.eqb content calc_source then Ok calc_tree
  else if String.eqb content helpers_source then Ok helpers_tree
  else if String.eqb content account_source then Ok account_tree
  else if String.eqb content store_source then Ok store_tree
  else if String.eqb content load_source then Ok load_tree
  else if String.eqb content legacy_source then Ok legacy_tree
  else if String.eqb content users_source then Ok users_tree
  else Raised "SyntaxError".

(** The result of analysing [users.py] on its own, and the evaluator's
    state once the terms of that file are collected. *)
Definition users_result : FileAnalysisResult :=
  match Orchestrator._analyze_file config_no_clarity insertion_order
          no_clarity read_text ast_parse users_py with
  | Some file_result => file_result
  | None => mkFileResult users_py "python" [] [] 0%Q 0 0
  end.

Definition users_state : Evaluator.EvaluatorState :=
  Evaluator._collect_terminology Evaluator.initial_state users_result.

End Inputs.

(* ================================================================== *)
(** * File selection ([BaseParser.can_parse], [_should_exclude]) *)
(* ================================================================== *)

Module FileSelection.

(** The extensions [PythonParser.__init__] registers. *)
Definition python_extensions : list string := [".py"].

(** [can_parse] of the Python parser:
    [file_path.suffix.lower() in self.extensions]. *)
Definition can_parse (file_path : Path) : bool :=
  mem (lower (suffix file_path)) python_extensions.

(** [path.name], which [pathlib] makes of the stem and the suffix. *)
Definition path_name (path : Path) : string :=
  fstr [stem path; suffix path].

(** The default [exclude_patterns] of [ServerConfig]. *)
Definition default_exclude_patterns : pyset :=
  ["*.pyc"; "__pycache__"; ".git"; "node_modules"; "venv"; ".env"].

(** [_should_exclude]: the name, then the suffix, then the patterns that
    start with a star, looked for in the path as they are written. *)
Definition _should_exclude (path : Path) (exclude_patterns : pyset) : bool :=
  if mem (path_name path) exclude_patterns then true
  else if mem (suffix path) exclude_patterns then true
  else existsb (fun pattern => contains (path_str path) pattern)
               (filter (fun pattern => startswith pattern "*")
                       exclude_patterns).

End FileSelection.

(* ================================================================== *)
(** * Measures and invariants used in the statements *)
(* ================================================================== *)

Module Measures.

Import Ast.

(** Does [ast.unparse] print the expression? *)
Definition printable (e : expr) : bool :=
  match unparse e with Ok _ => true | Raised _ => false end.

(** The default values whose parameter index is in range: all of them, or
    the last [n_params] when there are more defaults than parameters. *)
Definition used_defaults (n_params : nat) (ds : list expr) : list expr :=
  skipn (length ds - n_params) ds.

(** The arguments of a function for which an element can be built: every
    default value that goes to a parameter can be printed. *)
Definition buildable (fn_args : arguments) (fn_parent : option node_class)
  : bool :=
  forallb printable
          (used_defaults (length (Parser.kept_args fn_args fn_parent))
                         (defaults fn_args)).

(** A class definition, or a function definition written with a plain
    [def] whose arguments are buildable. *)
Definition is_def (n : node) : bool :=
  match n with
  | FunctionDef _ fn_args _ _ _ fn_parent => buildable fn_args fn_parent
  | ClassDef _ _ _ _ => true
  | _ => false
  end.

(** The number of such definitions in a node, itself included. *)
Fixpoint count_defs (n : node) : nat :=
  match n with
  | FunctionDef _ fn_args _ body _ fn_parent =>
      (if buildable fn_args fn_parent then 1 else 0)
      + list_sum (map count_defs body)
  | AsyncFunctionDef _ body => list_sum (map count_defs body)
  | ClassDef _ body _ _ => S (list_sum (map count_defs body))
  | ExprStr _ => 0
  | Other nested => list_sum (map count_defs nested)
  end.

(** The positions, counted from [start], of the entries of a sequence that
    pass [test]. *)
Fixpoint positions {A : Type} (test : A -> bool) (start : nat) (l : list A)
  : list nat :=
  match l with
  | [] => []
  | x :: l' =>
      if test x then start :: positions test (S start) l'
      else positions test (S start) l'
  end.

Definition is_class (e : CodeElement) : bool :=
  match element_type e with CLASS => true | _ => false end.

Definition is_callable (e : CodeElement) : bool :=
  is_callable_type (element_type e).

(** The names of the functions that are statements of a body, written
    with a plain [def] and with buildable arguments. *)
Definition function_names (body : list node) : list string :=
  flat_map (fun n => match n with
                     | FunctionDef fn_name fn_args _ _ _ fn_parent =>
                         if buildable fn_args fn_parent then [fn_name] else []
                     | _ => []
                     end) body.

(** The parameter at position [i] once the defaults are applied: the
    default [i + n_defaults - n_params] when that index exists. *)
Definition with_default (n_params : nat) (ds : list Ast.expr) (i : nat)
                        (p : Param) : Param :=
  if n_params <=? i + length ds
  then match nth_error ds (i + length ds - n_params) with
       | Some d =>
           match Ast.unparse d with
           | Ok text => mkParam (param_name p) (type_hint p) (Some text)
                                (param_description p) false
           | Raised _ => p
           end
       | None => p
       end
  else p.

(** The invariant of the terminology table: the keys are distinct, and
    every set is non-empty, duplicate-free and holds forms whose lower
    case is the key. *)
Definition term_entry_ok (entry : string * pyset) : Prop :=
  snd entry <> [] /\ NoDup (snd entry) /\
  forall v, In v (snd entry) -> lower v = fst entry.

Definition terminology_ok (terms : pydict pyset) : Prop :=
  NoDup (map fst terms) /\ Forall term_entry_ok terms.





(** The number of issues of severity [sev] in a list of file results. *)
Definition issues_of_severity (sev : string) (fs : list FileAnalysisResult)
  : nat :=
  list_sum (map (fun f => Checker.count_severity sev (fr_issues f)) fs).

(** An element without the two fields the analysis writes.  What is
    left includes the references in [classes] and [functions]: two
    elements with the same declaration refer to the same entries. *)
Definition declaration (e : CodeElement) : CodeElement :=
  set_analysis MISSING [] e.

(** What the analysis of a file leaves untouched in a file result once
    the checker has run: the path, the language, the counters and the
    score. *)
Definition same_summary (f f' : FileAnalysisResult) : Prop :=
  fr_path f' = fr_path f /\ language f' = language f /\
  coverage_score f' = coverage_score f /\
  total_elements f' = total_elements f /\
  documented_elements f' = documented_elements f.

(** [histogram.get(sev, 0)]. *)
Definition hist_get (sev : string) (h : pydict nat) : nat :=
  match dict_get sev h with Some n => n | None => 0 end.

(** Does the character [c] occur in [s]? *)
Fixpoint has_char (c : ascii) (s : string) : bool :=
  match s with
  | EmptyString => false
  | String d s' => Ascii.eqb d c || has_char c s'
  end.

(** [len(line) - len(line.lstrip())]. *)
Definition indent (line : string) : nat :=
  String.length line - String.length (lstrip line).

(** The loop of [_clean_docstring] over the lines, started with the
    minimum [acc] instead of infinity. *)
Definition clean_min_indent_from (acc : option nat) (lines : list string)
  : option nat :=
  fold_left
    (fun m line =>
       match strip line with
       | EmptyString => m
       | _ => opt_min m (String.length line - String.length (lstrip line))
       end) lines acc.

(** [l1] is the beginning of [l2]. *)
Definition is_prefix {A : Type} (l1 l2 : list A) : Prop :=
  exists rest, l2 = l1 ++ rest.

End Measures.

(* ================================================================== *)
(** * Further inputs *)
(* ================================================================== *)

Module MoreInputs.

Import Ast Inputs.

(** [blank.py]: a function whose docstring holds white space only. *)
Definition blank_py : Path := mkPath "blank.py" "blank" ".py".

Definition blank_source : string :=
  lines ["def blank():";
         "    '''";
         "        ";
         "    '''";
         "    pass"].

Definition fn_blank : node :=
  FunctionDef "blank" (mkArguments [] []) None
              [ExprStr (lines [""; "        "; "    "]); Other []] 1 None.

(** The element the extractor builds for [blank]. *)
Definition blank_element : CodeElement :=
  match Parser._parse_function fn_blank blank_py with
  | Some e => e
  | None => new_element "" FUNCTION blank_py 0
  end.

(** [ledger.py]: a class with a one-line docstring. *)
Definition ledger_py : Path := mkPath "ledger.py" "ledger" ".py".

Definition ledger_source : string :=
  lines ["class Ledger:";
         "    '''Keeps the accounts.'''"].

Definition cls_ledger : node :=
  ClassDef "Ledger" [ExprStr "Keeps the accounts."] 1 (Some 2).

Definition ledger_element : CodeElement :=
  match Parser._parse_class cls_ledger ledger_py with
  | Some e => e
  | None => new_element "" CLASS ledger_py 0
  end.

(** [retry.py]: a class with two functions in its body.  The default
    value of [delay] is a sum of several thousand terms, which [ast.parse]
    accepts and [ast.unparse] cannot print; [poll] is written with
    [async def]. *)
Definition retry_py : Path := mkPath "retry.py" "retry" ".py".

Definition long_sum : expr :=
  mkExpr (Raised "RecursionError") "<ast.BinOp object at 0x7f3a5c1d2e90>".

Definition fn_wait : node :=
  FunctionDef "wait"
              (mkArguments [mkArg "self" None; mkArg "delay" None] [long_sum])
              None [Other []] 2 None.

Definition fn_poll : node := AsyncFunctionDef "poll" [Other []].

Definition cls_retry : node := ClassDef "Retry" [fn_wait; fn_poll] 1 (Some 5).

Definition retry_tree : Module_ := mkModule [cls_retry].

(** The module element of [users.py], which has no docstring. *)
Definition users_module : CodeElement :=
  hd (new_element "" MODULE users_py 0)
     (Parser.elements_of_tree users_tree users_py).

End MoreInputs.

(* ================================================================== *)
(** * Status derivation *)
(* ================================================================== *)

Import Checker Spec.

(** Splits the goal along every conditional and match it contains. *)
Ltac split_ifs :=
  repeat match goal with
         | |- context [if ?b then _ else _] => destruct b
         | |- context [match ?x with _ => _ end] => destruct x
         end.

Lemma severity_new_issue element kind sev msg sugg :
  severity (new_issue element kind sev msg sugg) = sev.
Proof. reflexivity. Qed.

Lemma checker_severity_high element kind msg sugg :
  checker_severity (new_issue element kind "high" msg sugg).
Proof. left; reflexivity. Qed.

Lemma checker_severity_medium element kind msg sugg :
  checker_severity (new_issue element kind "medium" msg sugg).
Proof. right; left; reflexivity. Qed.

Lemma checker_severity_low element kind msg sugg :
  checker_severity (new_issue element kind "low" msg sugg).
Proof. right; right; reflexivity. Qed.

Create HintDb severities.

#[local] Hint Resolve checker_severity_high checker_severity_medium
  checker_severity_low : severities.

Lemma Forall_flat_map_each {A B} (P : B -> Prop) (f : A -> list B) l :
  (forall x, Forall P (f x)) -> Forall P (flat_map f l).
Proof.
  intros Hf. apply Forall_flat_map. apply Forall_forall. intros x _. apply Hf.
Qed.

(** Closes a goal [Forall checker_severity l] for a list built from
    conditionals, appends and single issues. *)
Ltac severities :=
  repeat first
    [ apply Forall_nil
    | apply Forall_cons; [ auto with severities | ]
    | apply Forall_app; split
    | apply Forall_flat_map_each; intros
    | match goal with
      | |- Forall _ (if ?b then _ else _) => destruct b
      | |- Forall _ (match ?x with _ => _ end) => destruct x
      end ].

Lemma presence_severities config element :
  Forall checker_severity (_check_presence config element).
Proof.
  unfold _check_presence, format_violation. severities.
  unfold checker_severity. rewrite severity_new_issue.
  destruct (String.eqb _ _); auto.
Qed.

Lemma format_severities config element lang :
  Forall checker_severity (_check_format config element lang).
Proof.
  unfold _check_format, _check_google_format, _check_numpy_format,
    _check_sphinx_format, _check_javadoc_format, _check_jsdoc_format,
    per_param_format, format_violation.
  severities.
Qed.

Lemma completeness_severities element :
  Forall checker_severity (_check_completeness element).
Proof.
  unfold _check_completeness, _check_parameters_documentation,
    _check_return_documentation, _check_exceptions_documentation.
  severities.
Qed.

Lemma element_issues_severities config element lang :
  Forall checker_severity (element_issues config element lang).
Proof.
  unfold element_issues.
  repeat (apply Forall_app; split);
    match goal with |- Forall _ (if ?b then _ else _) => destruct b end;
    auto using presence_severities, format_severities,
      completeness_severities, Forall_nil.
Qed.

(** Issues that only carry the checker's severities: none is critical and
    the three counters add up to the number of issues. *)
Lemma count_checker_severities issues :
  Forall checker_severity issues ->
  count_severity "critical" issues = 0 /\
  length issues = count_severity "high" issues
                  + count_severity "medium" issues
                  + count_severity "low" issues.
Proof.
  unfold count_severity.
  induction 1 as [|i l Hi _ [IHc IHl]]; [split; reflexivity|].
  cbn [filter length].
  destruct Hi as [E | [E | E]]; rewrite E; cbn; rewrite IHc; split; lia.
Qed.

(** C1. The status [_check_element] stores is the one the precedence rule
    of the specification gives for the issues the presence, format and
    completeness stages accumulate: no doc blob gives Missing; a critical
    or high issue gives Incomplete; more than two medium issues give
    Incomplete; one or two medium issues or more than three low issues
    give Outdated; one to three low issues and no medium issue give Good;
    no issue at all gives Excellent.  One of the six rules always
    applies. *)
Theorem status_follows_precedence :
  forall (config : ServerConfig) (element : CodeElement) (lang : string),
    let issues := element_issues config element lang in
    status_by_precedence
      (truthy (docstring element))
      (count_severity "critical" issues) (count_severity "high" issues)
      (count_severity "medium" issues) (count_severity "low" issues)
      (length issues)
    = Some (status (fst (_check_element config element lang))).
Proof.
  intros config element lang issues.
  destruct (count_checker_severities issues
              (element_issues_severities config element lang))
    as [Hcrit Hlen].
  unfold _check_element, _determine_status, status_by_precedence.
  fold issues. cbn [fst status set_analysis].
  rewrite Hcrit, Hlen.
  destruct (truthy (docstring element)); cbn [negb]; [|reflexivity].
  set (h := count_severity "high" issues).
  set (m := count_severity "medium" issues).
  set (l := count_severity "low" issues).
  cbn [Nat.ltb Nat.leb orb].
  destruct h as [|h]; [|reflexivity].
  destruct m as [|[|[|m]]]; cbn; try reflexivity;
    destruct l as [|[|[|[|l]]]]; reflexivity.
Qed.

(* ================================================================== *)
(** * Coverage *)
(* ================================================================== *)

Lemma check_elements_map config lang elems :
  fst (check_elements config elems lang)
  = map (fun e => fst (_check_element config e lang)) elems.
Proof.
  induction elems as [|e elems IH]; [reflexivity|].
  cbn [check_elements map].
  destruct (_check_element config e lang) as [e' is_] eqn:He.
  destruct (check_elements config elems lang) as [es is'].
  cbn [fst] in *. now rewrite IH.
Qed.

Lemma checked_should_have config lang e :
  _should_have_documentation (fst (_check_element config e lang))
  = _should_have_documentation e.
Proof. reflexivity. Qed.

(** After the check an element is [MISSING] exactly when it has no doc
    blob. *)
Lemma checked_status_missing config lang e :
  match status (fst (_check_element config e lang)) with
  | MISSING => false
  | _ => true
  end = truthy (docstring e).
Proof.
  unfold _check_element, _determine_status. cbn [fst status set_analysis].
  destruct (truthy (docstring e)); cbn [negb]; [|reflexivity].
  split_ifs; reflexivity.
Qed.

Lemma coverage_counts_checked config lang elems total documented_n :
  coverage_counts (map (fun e => fst (_check_element config e lang)) elems)
                  total documented_n
  = (total + length (filter _should_have_documentation elems),
     documented_n + length (filter documented elems)).
Proof.
  revert total documented_n.
  induction elems as [|e elems IH]; intros total documented_n.
  - cbn. f_equal; lia.
  - cbn [map coverage_counts filter]. rewrite checked_should_have.
    pose proof (checked_status_missing config lang e) as Hs.
    unfold documented at 1. rewrite !IH.
    destruct (_should_have_documentation e); cbn [andb]; [|reflexivity].
    destruct (truthy (docstring e));
      destruct (status (fst (_check_element config e lang)));
      try discriminate Hs; cbn [length]; f_equal; lia.
Qed.

Lemma truediv_exact (d t : nat) :
  t <> 0 ->
  (truediv d t == inject_Z (Z.of_nat d) / inject_Z (Z.of_nat t))%Q.
Proof.
  intros Ht. destruct t as [|t]; [contradiction|].
  unfold truediv, Qdiv, Qmult, Qinv, inject_Z, Qeq.
  cbn [Qnum Qden Z.of_nat]. rewrite <- Pos.of_nat_succ. cbn. lia.
Qed.

(** C3. After [check_file], the totals are the number of should-document
    elements and the number of those that carry a doc blob, the coverage
    score is their quotient, and it is exactly 1 when no element should be
    documented. *)
Theorem coverage_is_documented_over_should :
  forall (config : ServerConfig) (file_result : FileAnalysisResult),
    let r := check_file config file_result in
    let should :=
      length (filter _should_have_documentation (elements file_result)) in
    let have := length (filter documented (elements file_result)) in
    total_elements r = should /\
    documented_elements r = have /\
    coverage_score r
    = (if should =? 0 then 1%Q else Z.of_nat have # Pos.of_nat should) /\
    (coverage_score r == coverage (elements file_result))%Q.
Proof.
  intros config file_result r should have.
  assert (Hr : total_elements r = should /\ documented_elements r = have /\
               coverage_score r
               = if 0 <? should then truediv have should else 1%Q).
  { subst r. unfold check_file.
    pose proof (check_elements_map config (language file_result)
                  (elements file_result)) as Hmap.
    destruct (check_elements config (elements file_result)
                (language file_result)) as [elems found].
    cbn [fst] in Hmap. subst elems.
    unfold _calculate_coverage. cbn [elements language].
    rewrite coverage_counts_checked. cbn [Nat.add].
    fold should have. cbn. auto. }
  destruct Hr as (Ht & Hd & Hc). repeat split; auto.
  - rewrite Hc. destruct should; reflexivity.
  - rewrite Hc. unfold coverage. fold should have.
    destruct should as [|n]; [reflexivity|].
    cbn [Nat.ltb Nat.leb Nat.eqb]. apply truediv_exact. discriminate.
Qed.

(* ================================================================== *)
(** * Private elements and the presence stage *)
(* ================================================================== *)

Lemma private_should_not_have element :
  visibility element = "private" ->
  _should_have_documentation element = false.
Proof. unfold _should_have_documentation. intros ->. reflexivity. Qed.

(** C4. For an element whose visibility is private the presence check
    emits nothing, so the issues accumulated for it, and the status
    derived from them, are those of a run with the presence stage
    switched off. *)
Theorem private_elements_skip_presence :
  forall (config : ServerConfig) (element : CodeElement) (lang : string),
    visibility element = "private" ->
    _check_presence config element = [] /\
    element_issues config element lang
    = element_issues (without_presence config) element lang /\
    status (fst (_check_element config element lang))
    = status (fst (_check_element (without_presence config) element lang)).
Proof.
  intros config element lang Hpriv.
  assert (Hp : _check_presence config element = []).
  { unfold _check_presence. rewrite (private_should_not_have _ Hpriv).
    destruct (negb _); reflexivity. }
  assert (Hi : element_issues config element lang
               = element_issues (without_presence config) element lang).
  { unfold element_issues. rewrite Hp. cbn.
    destruct (check_presence (analysis config)); reflexivity. }
  repeat split; auto.
  unfold _check_element. cbn [fst status set_analysis]. now rewrite Hi.
Qed.

(** The class [__Hidden] of [helpers.py], as the extractor builds it. *)
Lemma private_elements_skip_presence_witness :
  let hidden :=
    match Parser._parse_class Inputs.cls_hidden Inputs.helpers_py with
    | Some e => e
    | None => new_element "" CLASS Inputs.helpers_py 0
    end in
  visibility hidden = "private" /\
  _check_presence get_default_config hidden = [] /\
  element_issues get_default_config hidden "python"
  = element_issues (without_presence get_default_config) hidden "python" /\
  status (fst (_check_element get_default_config hidden "python"))
  = status (fst (_check_element (without_presence get_default_config)
                                hidden "python")).
Proof.
  intros hidden. split; [reflexivity|].
  apply (private_elements_skip_presence get_default_config hidden "python").
  reflexivity.
Defined.

(* ================================================================== *)
(** * The extractor: visibility, parameters, failures *)
(* ================================================================== *)

Import Ast Parser.

Lemma set_default_names i v ps :
  map param_name (set_default i v ps) = map param_name ps.
Proof.
  revert i. induction ps as [|p ps IH]; intros i;
    [destruct i; reflexivity|].
  destruct i; cbn; [reflexivity|]. now rewrite IH.
Qed.

Lemma set_default_length i v ps :
  length (set_default i v ps) = length ps.
Proof.
  rewrite <- (length_map param_name), set_default_names.
  apply length_map.
Qed.

Lemma apply_defaults_names n i ds ps ps' :
  apply_defaults n i ds ps = Ok ps' ->
  map param_name ps' = map param_name ps.
Proof.
  revert i ps. induction ds as [|d ds IH]; intros i ps; cbn [apply_defaults].
  - now intros [= <-].
  - destruct (_ && _).
    + destruct (unparse d) as [text|e]; cbn [bind]; [|discriminate].
      intros H. rewrite (IH _ _ H). apply set_default_names.
    + apply IH.
Qed.

(** The loop over the defaults ends without an exception exactly when
    every default it reaches can be printed.  The head of [ds] is at
    index [i] of the [n] defaults. *)
Lemma apply_defaults_outcome ds :
  forall i ps,
    match apply_defaults (i + length ds) i ds ps with
    | Ok _ =>
        forallb Measures.printable (Measures.used_defaults (length ps) ds)
        = true
    | Raised _ =>
        forallb Measures.printable (Measures.used_defaults (length ps) ds)
        = false
    end.
Proof.
  unfold Measures.used_defaults.
  induction ds as [|d ds IH]; intros i ps; [reflexivity|].
  cbn [apply_defaults length].
  replace (i + S (length ds)) with (S i + length ds) by lia.
  set (idx := (Z.of_nat (length ps) - Z.of_nat (S i + length ds)
               + Z.of_nat i)%Z).
  destruct ((0 <=? idx)%Z && (idx <? Z.of_nat (length ps))%Z) eqn:Hvalid.
  - apply andb_true_iff in Hvalid. destruct Hvalid as [H0 _].
    apply Z.leb_le in H0.
    assert (Hle : S (length ds) <= length ps) by (subst idx; lia).
    replace (S (length ds) - length ps) with 0 by lia.
    cbn [skipn forallb]. unfold Measures.printable at 1 3.
    destruct (unparse d) as [text|e]; cbn [bind andb]; [|reflexivity].
    specialize (IH (S i) (set_default (Z.to_nat idx) text ps)).
    rewrite set_default_length in IH.
    replace (length ds - length ps) with 0 in IH by lia.
    exact IH.
  - assert (Hgt : length ps < S (length ds)).
    { apply andb_false_iff in Hvalid. subst idx.
      destruct Hvalid as [H | H];
        [apply Z.leb_gt in H | apply Z.ltb_ge in H]; lia. }
    replace (S (length ds) - length ps) with (S (length ds - length ps))
      by lia.
    cbn [skipn]. apply IH.
Qed.

(** [_extract_parameters] raises exactly when the arguments are not
    buildable; otherwise the names of the parameters are the names of the
    arguments kept, in the order of the declaration. *)
Lemma extract_parameters_outcome fn_args fn_parent :
  match _extract_parameters fn_args fn_parent with
  | Ok ps =>
      Measures.buildable fn_args fn_parent = true /\
      map param_name ps = map arg_name (kept_args fn_args fn_parent)
  | Raised _ => Measures.buildable fn_args fn_parent = false
  end.
Proof.
  unfold _extract_parameters, Measures.buildable.
  pose proof (apply_defaults_outcome (defaults fn_args) 0
                (map param_of_arg (kept_args fn_args fn_parent))) as H.
  cbn [Nat.add] in H. rewrite length_map in H.
  destruct (apply_defaults _ 0 _ _) as [ps|e] eqn:E; [|exact H].
  split; [exact H|].
  rewrite (apply_defaults_names _ _ _ _ _ E), map_map. reflexivity.
Qed.

(** [_parse_function] gives an element exactly for buildable arguments. *)
Lemma parse_function_outcome fn_name fn_args returns body lineno fn_parent
      path :
  match _parse_function
          (FunctionDef fn_name fn_args returns body lineno fn_parent) path
  with
  | Some fe =>
      Measures.buildable fn_args fn_parent = true /\
      name fe = fn_name /\
      visibility fe = "public" /\
      _extract_parameters fn_args fn_parent = Ok (parameters fe) /\
      element_type fe = (if _is_method fn_parent then METHOD else FUNCTION)
  | None => Measures.buildable fn_args fn_parent = false
  end.
Proof.
  unfold _parse_function, _parse_function_body.
  pose proof (extract_parameters_outcome fn_args fn_parent) as H.
  destruct (_extract_parameters fn_args fn_parent) as [ps|e];
    cbn [bind]; [|exact H].
  destruct H as [Hb _].
  destruct (get_docstring body) as [[|c d]|].
  - repeat split; auto.
  - destruct (function_summary (String c d)) as [s descr].
    repeat split; auto.
  - repeat split; auto.
Qed.

Lemma parse_function_some fn_name fn_args returns body lineno fn_parent path :
  Measures.buildable fn_args fn_parent = true ->
  exists fe,
    _parse_function
      (FunctionDef fn_name fn_args returns body lineno fn_parent) path
    = Some fe /\
    name fe = fn_name /\
    visibility fe = "public" /\
    _extract_parameters fn_args fn_parent = Ok (parameters fe) /\
    element_type fe = (if _is_method fn_parent then METHOD else FUNCTION).
Proof.
  intros Hb.
  pose proof (parse_function_outcome fn_name fn_args returns body lineno
                fn_parent path) as H.
  destruct (_parse_function _ path) as [fe|]; [|congruence].
  exists fe. destruct H as (_ & H). split; [reflexivity | exact H].
Qed.

Lemma parse_function_none fn_name fn_args returns body lineno fn_parent path :
  Measures.buildable fn_args fn_parent = false ->
  _parse_function
    (FunctionDef fn_name fn_args returns body lineno fn_parent) path = None.
Proof.
  intros Hb.
  pose proof (parse_function_outcome fn_name fn_args returns body lineno
                fn_parent path) as H.
  destruct (_parse_function _ path) as [fe|]; [|reflexivity].
  destruct H as (H & _). congruence.
Qed.

Lemma docstring_info_keeps element :
  visibility (_parse_docstring_info element) = visibility element /\
  methods (_parse_docstring_info element) = methods element /\
  element_type (_parse_docstring_info element) = element_type element /\
  name (_parse_docstring_info element) = name element.
Proof.
  unfold _parse_docstring_info.
  destruct (docstring element) as [[|c d]|]; auto.
  destruct (dict_get "summary" _) as [text|];
    [destruct (split_lines text) as [|first [|second others]]|];
    destruct (dict_get "raises" _); auto.
Qed.

Lemma parse_class_some cls_name body lineno end_lineno path :
  exists ce,
    _parse_class (ClassDef cls_name body lineno end_lineno) path = Some ce /\
    name ce = cls_name /\
    visibility ce = _get_visibility cls_name /\
    methods ce = parse_methods body path /\
    element_type ce = CLASS.
Proof.
  unfold _parse_class, _parse_class_body.
  eexists; split; [reflexivity|].
  destruct (truthy _); [|repeat split; reflexivity].
  match goal with
  | |- context [_parse_docstring_info ?e] =>
      destruct (docstring_info_keeps e) as (Hv & Hm & Ht & Hn)
  end.
  rewrite Hv, Hm, Ht, Hn. repeat split; reflexivity.
Qed.

(** C5. Every function or method element is given the visibility
    [public], whatever its name (and no element at all when the arguments
    are not buildable), while a class element is classified from its name
    by [_get_visibility]: in [helpers.py] the function [_helper] comes out
    public though its name classifies as protected. *)
Theorem function_visibility_is_not_classified :
  (forall fn_name fn_args returns body lineno fn_parent path,
      option_map visibility
        (_parse_function
           (FunctionDef fn_name fn_args returns body lineno fn_parent) path)
      = if Measures.buildable fn_args fn_parent then Some "public"
        else None) /\
  (forall cls_name body lineno end_lineno path,
      option_map visibility
        (_parse_class (ClassDef cls_name body lineno end_lineno) path)
      = Some (_get_visibility cls_name)) /\
  _get_visibility "_helper" = "protected" /\
  _get_visibility "__init__" = "special" /\
  map (fun e => (name e, visibility e))
      (elements_of_tree Inputs.helpers_tree Inputs.helpers_py)
  = [("helpers", "public"); ("_helper", "public"); ("__Hidden", "private")].
Proof.
  repeat split; try reflexivity.
  - intros.
    pose proof (parse_function_outcome fn_name fn_args returns body lineno
                  fn_parent path) as H.
    destruct (_parse_function _ path) as [fe|].
    + destruct H as (-> & _ & Hv & _). cbn. now rewrite Hv.
    + now rewrite H.
  - intros.
    destruct (parse_class_some cls_name body lineno end_lineno path)
      as (ce & -> & _ & Hv & _).
    cbn. now rewrite Hv.
Qed.

(** On a tree as [ast.parse] builds it no function counts as a method. *)
Lemma parsed_function_is_not_method
      fn_name fn_args returns body lineno fn_parent :
  parsed (FunctionDef fn_name fn_args returns body lineno fn_parent) = true ->
  fn_parent = None /\ _is_method fn_parent = false.
Proof. destruct fn_parent; [discriminate | split; reflexivity]. Qed.

(** The trees used as inputs are of that kind. *)
Lemma input_trees_are_parsed :
  forallb (fun tree => forallb parsed (mod_body tree))
          [Inputs.calc_tree; Inputs.helpers_tree; Inputs.account_tree;
           Inputs.store_tree; Inputs.load_tree; Inputs.legacy_tree;
           Inputs.users_tree]
  = true.
Proof. reflexivity. Qed.

(** C6. A function node as [ast.parse] builds it has no [parent]
    attribute, so no argument is dropped: whenever parameters are
    extracted (the arguments are buildable) they are all the declared
    arguments in order, the receiver included.  For the method
    [deposit(self, amount)] of [account.py] both the flat entry and the
    entry in the class's methods list the parameter [self]. *)
Theorem receiver_is_kept_in_parameters :
  (forall fn_args,
      if Measures.buildable fn_args None
      then exists ps,
             _extract_parameters fn_args None = Ok ps /\
             map param_name ps = map arg_name (args fn_args)
      else exists e, _extract_parameters fn_args None = Raised e) /\
  map (fun e => (name e, element_type e, map param_name (parameters e)))
      (elements_of_tree Inputs.account_tree Inputs.account_py)
  = [("account", MODULE, []); ("Account", CLASS, []);
     ("deposit", FUNCTION, ["self"; "amount"])] /\
  map (fun e => map (fun m => (name m, map param_name (parameters m)))
                    (methods e))
      (elements_of_tree Inputs.account_tree Inputs.account_py)
  = [[]; [("deposit", ["self"; "amount"])]; []].
Proof.
  repeat split; try reflexivity.
  intros fn_args.
  pose proof (extract_parameters_outcome fn_args None) as H.
  destruct (_extract_parameters fn_args None) as [ps|e].
  - destruct H as [-> Hnames]. exists ps. split; [reflexivity|].
    rewrite Hnames. unfold kept_args.
    destruct (args fn_args) as [|a l]; [reflexivity|].
    cbn [_is_method]. now rewrite andb_false_r.
  - rewrite H. exists e. reflexivity.
Qed.

(** C9. [parse_file] returns a sequence of elements for every file system
    and every behaviour of [ast.parse]; when reading or parsing raises,
    the sequence is empty. *)
Theorem parse_file_never_raises :
  forall (read_text : Path -> py_result string)
         (ast_parse : string -> py_result Module_) (path : Path),
    (exists elems, parse_file read_text ast_parse path = Ok elems) /\
    (forall e, bind (read_text path) ast_parse = Raised e ->
               parse_file read_text ast_parse path = Ok []).
Proof.
  intros read_text ast_parse path.
  unfold parse_file, parse_file_body, try_except, bind.
  destruct (read_text path) as [content|e1].
  - destruct (ast_parse content) as [tree|e2].
    + split; [eexists; reflexivity | discriminate].
    + split; [eexists; reflexivity | reflexivity].
  - split; [eexists; reflexivity | reflexivity].
Qed.

(* ================================================================== *)
(** * The flat sequence and the methods of a class *)
(* ================================================================== *)

Lemma forest_size_app l1 l2 :
  forest_size (l1 ++ l2) = forest_size l1 + forest_size l2.
Proof. unfold forest_size. now rewrite map_app, list_sum_app. Qed.

Lemma forest_size_cons x q :
  forest_size (x :: q) = node_size x + forest_size q.
Proof. reflexivity. Qed.

Lemma node_size_children n :
  node_size n = S (forest_size (children n)).
Proof. destruct n; reflexivity. Qed.

Lemma occurs_incl n l l' :
  occurs n l -> incl l l' -> occurs n l'.
Proof.
  intros H Hincl. destruct H as [l Hin | l p Hin Hp].
  - apply occurs_root. auto.
  - apply occurs_nested with p; auto.
Qed.

(** What is nested in a node of the forest is in the forest. *)
Lemma occurs_child n p l :
  occurs p l -> In n (children p) -> occurs n l.
Proof.
  intros Hp Hn. induction Hp as [l Hin | l q Hin _ IH].
  - apply occurs_nested with p; [exact Hin | now apply occurs_root].
  - apply occurs_nested with q; [exact Hin | exact IH].
Qed.

Lemma occurs_nil n : ~ occurs n [].
Proof. intros H. inversion H; subst; contradiction. Qed.

(** With enough fuel, the walk meets every node of the queue's forest. *)
Lemma walk_queue_complete fuel :
  forall queue n,
    forest_size queue <= fuel -> occurs n queue ->
    In n (walk_queue fuel queue).
Proof.
  induction fuel as [|fuel IH]; intros queue n Hsize Hocc.
  - destruct queue as [|x q]; [now apply occurs_nil in Hocc|].
    rewrite forest_size_cons, node_size_children in Hsize. lia.
  - destruct queue as [|x q]; [now apply occurs_nil in Hocc|].
    cbn [walk_queue].
    assert (Hfuel : forest_size (q ++ children x) <= fuel).
    { rewrite forest_size_app.
      rewrite forest_size_cons, node_size_children in Hsize. lia. }
    inversion Hocc as [l Hin | l p Hin Hp]; subst.
    + destruct Hin as [-> | Hin]; [left; reflexivity|].
      right. apply IH; [exact Hfuel|].
      apply occurs_root, in_or_app. now left.
    + right. apply IH; [exact Hfuel|].
      destruct Hin as [-> | Hin].
      * apply occurs_incl with (children p); [exact Hp|].
        apply incl_appr, incl_refl.
      * apply occurs_nested with p; [|exact Hp].
        apply in_or_app. now left.
Qed.

Lemma walk_complete tree n :
  occurs n (mod_body tree) -> In n (walk tree).
Proof. apply walk_queue_complete. apply Nat.le_refl. Qed.

Lemma collect_function nodes path fn_name fn_args returns body lineno
      fn_parent fe :
  let fn := FunctionDef fn_name fn_args returns body lineno fn_parent in
  In fn nodes -> _parse_function fn path = Some fe ->
  forall next, In fe (fst (fst (collect nodes path next))).
Proof.
  intros fn Hin Hfe.
  induction nodes as [|x nodes IH]; intros next; [contradiction|].
  cbn [collect].
  destruct Hin as [-> | Hin].
  - subst fn. rewrite Hfe.
    destruct (collect nodes path (S next)) as [[elems fns] clss].
    left; reflexivity.
  - specialize (IH Hin).
    destruct x; try apply IH;
      match goal with
      | |- context [match ?o with Some _ => _ | None => _ end] =>
          destruct o
      end; try apply IH;
      specialize (IH (S next));
      destruct (collect nodes path (S next)) as [[elems fns] clss];
      right; exact IH.
Qed.

Lemma collect_class nodes path cls_name body lineno end_lineno ce :
  let cls := ClassDef cls_name body lineno end_lineno in
  In cls nodes -> _parse_class cls path = Some ce ->
  forall next, In ce (fst (fst (collect nodes path next))).
Proof.
  intros cls Hin Hce.
  induction nodes as [|x nodes IH]; intros next; [contradiction|].
  cbn [collect].
  destruct Hin as [-> | Hin].
  - subst cls. rewrite Hce.
    destruct (collect nodes path (S next)) as [[elems fns] clss].
    left; reflexivity.
  - specialize (IH Hin).
    destruct x; try apply IH;
      match goal with
      | |- context [match ?o with Some _ => _ | None => _ end] =>
          destruct o
      end; try apply IH;
      specialize (IH (S next));
      destruct (collect nodes path (S next)) as [[elems fns] clss];
      right; exact IH.
Qed.

Lemma elements_of_tree_flat tree path e :
  In e (fst (fst (collect (walk tree) path 1))) ->
  In e (elements_of_tree tree path).
Proof.
  unfold elements_of_tree.
  destruct (collect (walk tree) path 1) as [[elems fns] clss].
  cbn [fst]. intros H. right. exact H.
Qed.

Lemma parse_methods_function body path fn_name fn_args returns fn_body
      lineno fn_parent fe :
  let fn := FunctionDef fn_name fn_args returns fn_body lineno fn_parent in
  In fn body -> _parse_function fn path = Some fe ->
  In fe (parse_methods body path).
Proof.
  intros fn Hin Hfe.
  induction body as [|x body IH]; [contradiction|].
  destruct Hin as [-> | Hin].
  - subst fn. cbn [parse_methods]. rewrite Hfe. left; reflexivity.
  - specialize (IH Hin). cbn [parse_methods].
    destruct x; try exact IH.
    match goal with
    | |- context [match ?o with Some _ => _ | None => _ end] => destruct o
    end; [right|]; exact IH.
Qed.

(** [check_file] checks every entry of the flat sequence, each on its
    own. *)
Lemma check_file_elements config file_result :
  elements (check_file config file_result)
  = map (fun e => fst (_check_element config e (language file_result)))
        (elements file_result).
Proof.
  unfold check_file.
  pose proof (check_elements_map config (language file_result)
                (elements file_result)) as Hmap.
  destruct (check_elements config (elements file_result)
              (language file_result)) as [elems found].
  cbn [fst] in Hmap. subst elems.
  unfold _calculate_coverage. cbn [elements].
  destruct (coverage_counts _ 0 0). reflexivity.
Qed.

Lemma check_elements_issues config lang elems :
  snd (check_elements config elems lang)
  = flat_map (fun e => element_issues config e lang) elems.
Proof.
  induction elems as [|e elems IH]; [reflexivity|].
  cbn [check_elements flat_map]. unfold _check_element at 1.
  destruct (check_elements config elems lang) as [es is'].
  cbn [snd] in *. now rewrite IH.
Qed.

(** The issues of every entry are appended to those of the file. *)
Lemma check_file_issues config file_result :
  fr_issues (check_file config file_result)
  = fr_issues file_result
    ++ flat_map (fun e => element_issues config e (language file_result))
                (elements file_result).
Proof.
  unfold check_file.
  pose proof (check_elements_issues config (language file_result)
                (elements file_result)) as Hsnd.
  destruct (check_elements config (elements file_result)
              (language file_result)) as [elems found].
  cbn [snd] in Hsnd. subst found.
  unfold _calculate_coverage. cbn [elements fr_issues].
  destruct (coverage_counts _ 0 0). reflexivity.
Qed.

(** The counters and the score [check_file] leaves in a file result. *)
Lemma check_file_counts config file_result :
  let r := check_file config file_result in
  total_elements r
  = length (filter _should_have_documentation (elements file_result)) /\
  documented_elements r = length (filter documented (elements file_result)) /\
  coverage_score r
  = (if 0 <? total_elements r
     then truediv (documented_elements r) (total_elements r) else 1%Q) /\
  fr_path r = fr_path file_result /\
  language r = language file_result.
Proof.
  intros r. subst r. unfold check_file.
  pose proof (check_elements_map config (language file_result)
                (elements file_result)) as Hmap.
  destruct (check_elements config (elements file_result)
              (language file_result)) as [elems found].
  cbn [fst] in Hmap. subst elems.
  unfold _calculate_coverage. cbn [elements language fr_path].
  rewrite coverage_counts_checked. cbn. auto.
Qed.

(** C10. A function that is a statement of a class body, written with a
    plain [def] and with buildable arguments, is returned twice: as an
    entry of its own in the flat sequence, next to the entry of the class,
    and in the [methods] of the class element.  The checker goes through
    the flat sequence: the function's own entry is checked like any other,
    its presence issue goes to the file result and it is counted in the
    two coverage counters, while the copy in the class's [methods] stays
    as the extractor built it. *)
Theorem methods_are_returned_twice :
  forall (tree : Module_) (path : Path)
         cls_name body lineno end_lineno
         fn_name fn_args returns fn_body fn_lineno fn_parent,
    let cls := ClassDef cls_name body lineno end_lineno in
    let fn :=
      FunctionDef fn_name fn_args returns fn_body fn_lineno fn_parent in
    occurs cls (mod_body tree) -> In fn body ->
    Measures.buildable fn_args fn_parent = true ->
    exists fe ce,
      _parse_function fn path = Some fe /\ name fe = fn_name /\
      _parse_class cls path = Some ce /\ name ce = cls_name /\
      In fe (elements_of_tree tree path) /\
      In ce (elements_of_tree tree path) /\
      In fe (methods ce) /\
      element_type ce = CLASS /\ element_type fe <> CLASS /\
      _should_have_documentation fe = true /\
      forall config lang,
        let checked :=
          check_file config
            (mkFileResult path lang (elements_of_tree tree path) []
                          0%Q 0 0) in
        In (fst (_check_element config fe lang)) (elements checked) /\
        In (fst (_check_element config ce lang)) (elements checked) /\
        In fe (methods (fst (_check_element config ce lang))) /\
        incl (_check_presence config fe) (fr_issues checked) /\
        total_elements checked
        = length (filter _should_have_documentation
                         (elements_of_tree tree path)) /\
        documented_elements checked
        = length (filter documented (elements_of_tree tree path)).
Proof.
  intros tree path cls_name body lineno end_lineno
         fn_name fn_args returns fn_body fn_lineno fn_parent cls fn
         Hcls Hfn Hbuild.
  destruct (parse_function_some fn_name fn_args returns fn_body fn_lineno
              fn_parent path Hbuild) as (fe & Hfe & Hname & Hvis & _ & Hft).
  destruct (parse_class_some cls_name body lineno end_lineno path)
    as (ce & Hce & Hcname & _ & Hm & Hct).
  assert (Hflat : In fe (elements_of_tree tree path)).
  { apply elements_of_tree_flat.
    apply collect_function with fn_name fn_args returns fn_body fn_lineno
                                fn_parent; [|exact Hfe].
    apply walk_complete. apply occurs_child with cls; [exact Hcls|].
    exact Hfn. }
  assert (Hcflat : In ce (elements_of_tree tree path)).
  { apply elements_of_tree_flat.
    apply collect_class with cls_name body lineno end_lineno; [|exact Hce].
    apply walk_complete. exact Hcls. }
  assert (Hmeth : In fe (methods ce)).
  { rewrite Hm.
    apply parse_methods_function with fn_name fn_args returns fn_body
                                      fn_lineno fn_parent; auto. }
  exists fe, ce. repeat (split; [assumption|]).
  split; [rewrite Hft; destruct (_is_method fn_parent); discriminate|].
  split; [unfold _should_have_documentation; now rewrite Hvis|].
  intros config lang checked. subst checked.
  pose proof (check_file_counts config
                (mkFileResult path lang (elements_of_tree tree path) []
                              0%Q 0 0)) as (Htotal & Hdoc & _).
  cbn [elements] in Htotal, Hdoc.
  rewrite check_file_elements, check_file_issues.
  cbn [elements language fr_issues app].
  repeat split.
  - apply (in_map (fun e => fst (_check_element config e lang))). exact Hflat.
  - apply (in_map (fun e => fst (_check_element config e lang))).
    exact Hcflat.
  - exact Hmeth.
  - intros issue Hissue. apply in_flat_map. exists fe.
    split; [exact Hflat|]. unfold element_issues.
    apply in_or_app. left. unfold _check_presence in *.
    destruct (check_presence (analysis config)); [exact Hissue|].
    destruct Hissue.
  - exact Htotal.
  - exact Hdoc.
Qed.

(** The class [Account] of [account.py] and its method [deposit]. *)
Lemma methods_are_returned_twice_witness :
  occurs Inputs.cls_account (mod_body Inputs.account_tree) /\
  In Inputs.fn_deposit [Inputs.fn_deposit] /\
  Measures.buildable
    (mkArguments [mkArg "self" None; mkArg "amount" None] []) None = true /\
  exists fe ce,
    _parse_function Inputs.fn_deposit Inputs.account_py = Some fe /\
    name fe = "deposit" /\
    _parse_class Inputs.cls_account Inputs.account_py = Some ce /\
    name ce = "Account" /\
    In fe (elements_of_tree Inputs.account_tree Inputs.account_py) /\
    In ce (elements_of_tree Inputs.account_tree Inputs.account_py) /\
    In fe (methods ce) /\
    element_type ce = CLASS /\ element_type fe <> CLASS /\
    _should_have_documentation fe = true /\
    forall config lang,
      let checked :=
        check_file config
          (mkFileResult Inputs.account_py lang
             (elements_of_tree Inputs.account_tree Inputs.account_py) []
             0%Q 0 0) in
      In (fst (_check_element config fe lang)) (elements checked) /\
      In (fst (_check_element config ce lang)) (elements checked) /\
      In fe (methods (fst (_check_element config ce lang))) /\
      incl (_check_presence config fe) (fr_issues checked) /\
      total_elements checked
      = length (filter _should_have_documentation
                       (elements_of_tree Inputs.account_tree
                                         Inputs.account_py)) /\
      documented_elements checked
      = length (filter documented
                       (elements_of_tree Inputs.account_tree
                                         Inputs.account_py)).
Proof.
  assert (Hcls : occurs Inputs.cls_account (mod_body Inputs.account_tree))
    by (apply occurs_root; left; reflexivity).
  assert (Hfn : In Inputs.fn_deposit [Inputs.fn_deposit])
    by (left; reflexivity).
  assert (Hbuild :
            Measures.buildable
              (mkArguments [mkArg "self" None; mkArg "amount" None] []) None
            = true) by reflexivity.
  split; [exact Hcls|]. split; [exact Hfn|]. split; [exact Hbuild|].
  exact (methods_are_returned_twice Inputs.account_tree Inputs.account_py
           "Account" [Inputs.fn_deposit] 1 (Some 3)
           "deposit"
           (mkArguments [mkArg "self" None; mkArg "amount" None] [])
           None [Other []] 2 None Hcls Hfn Hbuild).
Defined.

(** C10, as first stated, fails on [retry.py]: the class [Retry] has the
    two functions [wait] and [poll] in its body, and neither is returned,
    not as an entry of the flat sequence and not among the methods of the
    class.  [wait] has a default value [ast.unparse] cannot print, so
    [_parse_function] returns [None] for it; [poll] is written with
    [async def]. *)
Lemma unbuildable_and_async_methods_are_dropped :
  forallb parsed (mod_body MoreInputs.retry_tree) = true /\
  occurs MoreInputs.cls_retry (mod_body MoreInputs.retry_tree) /\
  children MoreInputs.cls_retry = [MoreInputs.fn_wait; MoreInputs.fn_poll] /\
  _parse_function MoreInputs.fn_wait MoreInputs.retry_py = None /\
  map (fun e => (name e, element_type e, map name (methods e)))
      (elements_of_tree MoreInputs.retry_tree MoreInputs.retry_py)
  = [("retry", MODULE, []); ("Retry", CLASS, [])] /\
  ~ (exists e,
        In e (elements_of_tree MoreInputs.retry_tree MoreInputs.retry_py) /\
        (name e = "wait" \/ name e = "poll" \/
         exists m, In m (methods e))).
Proof.
  split; [reflexivity|].
  split; [apply occurs_root; left; reflexivity|].
  repeat (split; [reflexivity|]).
  intros (e & Hin & He). vm_compute in Hin.
  destruct Hin as [<- | [<- | []]]; cbn in He;
    destruct He as [He | [He | (m & [])]]; discriminate He.
Qed.

(* ================================================================== *)
(** * Documented parameters *)
(* ================================================================== *)

(** C2. For the function [add(a, b)] of [calc.py], whose docstring
    documents both parameters in Google style, the text captured after
    [Args:] ends before the line of the second parameter: only [a] counts
    as documented, the completeness check reports [b] as not documented
    and the synchronisation check reports [b] as missing, whichever of the
    two orders the parameter set is iterated in. *)
Theorem google_args_section_ends_at_second_parameter :
  let element :=
    match _parse_function Inputs.fn_add Inputs.calc_py with
    | Some e => e
    | None => new_element "" FUNCTION Inputs.calc_py 0
    end in
  docstring element = Some Inputs.doc_add /\
  map param_name (parameters element) = ["a"; "b"] /\
  option_map (Re.group 1)
    (Re.search Re.DOTALL (google_section_re "Args:") Inputs.doc_add)
  = Some "    a: x" /\
  Checker._extract_documented_parameters (docstring element)
  = [("a", "x")] /\
  Evaluator._extract_documented_parameters (docstring element) = ["a"] /\
  map brief (_check_parameters_documentation element)
  = [("missing_parameter_doc", "medium",
      "Parameter 'b' is not documented")] /\
  map brief (Evaluator._check_parameter_sync Inputs.insertion_order element)
  = [("sync_missing_param", "medium",
      "Parameter 'b' exists in code but not documented")] /\
  map brief (Evaluator._check_parameter_sync (@List.rev string) element)
  = [("sync_missing_param", "medium",
      "Parameter 'b' exists in code but not documented")].
Proof. vm_compute. repeat split; reflexivity. Qed.

(* ================================================================== *)
(** * Terminology consistency *)
(* ================================================================== *)

Import Evaluator.

Lemma set_gt_irrefl (s : pyset) : set_gt s s = false.
Proof. unfold set_gt. destruct (forallb _ s); reflexivity. Qed.

(** With the same key for every item, [max] keeps the first item. *)
Lemma max_from_constant_key (key : pyset) best l :
  max_from set_gt (fun _ : string => key) best l = best.
Proof.
  induction l as [|x l IH]; [reflexivity|].
  cbn [max_from]. now rewrite set_gt_irrefl.
Qed.

Lemma py_max_constant_key (key : pyset) l :
  py_max set_gt (fun _ : string => key) l = hd_error l.
Proof.
  destruct l as [|x l]; [reflexivity|].
  cbn [py_max hd_error]. now rewrite max_from_constant_key.
Qed.

Lemma term_issues_spec set_iter element doc variations issue :
  In issue (term_issues set_iter element doc variations) <->
  exists variation reference,
    1 < length variations /\
    hd_error (set_iter variations) = Some reference /\
    In variation (set_iter variations) /\
    contains doc variation = true /\
    variation <> reference /\
    issue = terminology_issue element variation reference.
Proof.
  unfold term_issues. rewrite py_max_constant_key.
  destruct (1 <? length variations) eqn:Hlen.
  - apply Nat.ltb_lt in Hlen. rewrite in_flat_map. split.
    + intros (v & Hv & Hin).
      destruct (contains doc v) eqn:Hc; [|contradiction].
      destruct (hd_error (set_iter variations)) as [r|]; [|contradiction].
      destruct (String.eqb v r) eqn:Hvr; [contradiction|].
      destruct Hin as [<- | []].
      exists v, r. apply String.eqb_neq in Hvr. repeat split; auto.
    + intros (v & r & _ & Hr & Hv & Hc & Hvr & ->).
      exists v. split; [exact Hv|].
      rewrite Hc, Hr. apply String.eqb_neq in Hvr. rewrite Hvr.
      left; reflexivity.
  - apply Nat.ltb_ge in Hlen. split; [contradiction|].
    intros (v & r & Hlt & _). lia.
Qed.


(** The form taken as reference need not be the most frequent one.
    [store.py] writes [UserId] twice and [legacy.py] writes [Userid] once;
    when the set of the two forms yields [Userid] first, both doc blobs
    with the majority form [UserId] are flagged. *)
Lemma majority_form_can_be_flagged :
  let r := snd (Orchestrator.analyze_project Inputs.config_no_clarity
                  (@List.rev string) Inputs.no_clarity
                  Inputs.read_text Inputs.ast_parse initial_state
                  Inputs.project_root [Inputs.store_py; Inputs.legacy_py]) in
  map (fun f =>
         map brief
             (filter (fun i => String.eqb (issue_type i)
                                          "terminology_inconsistency")
                     (fr_issues f)))
      (files r)
  = [[("terminology_inconsistency", "low",
       "Inconsistent terminology: 'UserId' vs 'Userid'");
      ("terminology_inconsistency", "low",
       "Inconsistent terminology: 'UserId' vs 'Userid'")];
     []].
Proof. vm_compute. reflexivity. Qed.

(* ================================================================== *)
(** * The severity histogram *)
(* ================================================================== *)

Import Orchestrator.

(** The histogram over the issues of a list of file results. *)
Lemma metrics_histogram fs m :
  m_histogram (fold_left metrics_step fs m)
  = fold_left (fun h f => fold_left count_issue (fr_issues f) h) fs
              (m_histogram m).
Proof.
  revert m. induction fs as [|f fs IH]; intros m; [reflexivity|].
  cbn [fold_left]. rewrite IH. reflexivity.
Qed.

(** The histogram of a project result is built from the file results as
    they are before the consistency pass, which then appends its issues
    to them. *)
Lemma histogram_precedes_consistency
      config set_iter clarity read_text ast_parse st project paths :
  let fs := analyze_files config set_iter clarity read_text ast_parse paths in
  let r := snd (analyze_project config set_iter clarity read_text ast_parse
                                st project paths) in
  issues_by_severity r
  = fold_left (fun h f => fold_left count_issue (fr_issues f) h) fs [] /\
  files r = snd (evaluate_project config set_iter st fs).
Proof.
  intros fs r. subst r. unfold analyze_project.
  cbn [files _calculate_project_metrics]. fold fs.
  destruct (evaluate_project config set_iter st fs) as [st' fs'] eqn:He.
  cbn [snd set_files issues_by_severity files].
  split; [|reflexivity]. apply metrics_histogram.
Qed.

(** C8. On the project made of [users.py] the consistency pass appends a
    low terminology issue to the file result, in either iteration order
    of the term's forms, but the histogram, computed before the pass,
    only holds the one high issue of the checker: it has no entry for
    low, and its total is 1 while the file result carries 2 issues. *)
Theorem histogram_misses_consistency_issues :
  let run order :=
    snd (analyze_project Inputs.config_no_clarity order Inputs.no_clarity
           Inputs.read_text Inputs.ast_parse initial_state
           Inputs.project_root [Inputs.users_py]) in
  let report r := map (fun f => map brief (fr_issues f)) (files r) in
  issues_by_severity (run Inputs.insertion_order) = [("high", 1)] /\
  report (run Inputs.insertion_order)
  = [[("missing_documentation", "high",
       "Module 'users' is missing documentation");
      ("terminology_inconsistency", "low",
       "Inconsistent terminology: 'Userid' vs 'UserId'")]] /\
  issues_by_severity (run (@List.rev string)) = [("high", 1)] /\
  report (run (@List.rev string))
  = [[("missing_documentation", "high",
       "Module 'users' is missing documentation");
      ("terminology_inconsistency", "low",
       "Inconsistent terminology: 'UserId' vs 'Userid'")]].
Proof. vm_compute. repeat split; reflexivity. Qed.

(* ================================================================== *)
(** * Further properties of the extractor *)
(* ================================================================== *)

Import Measures.

(** [set_default] touches the parameter at its index and no other. *)
Lemma set_default_nth i v ps k :
  nth_error (set_default i v ps) k
  = if k =? i
    then option_map
           (fun p => mkParam (param_name p) (type_hint p) (Some v)
                             (param_description p) false)
           (nth_error ps k)
    else nth_error ps k.
Proof.
  revert i k. induction ps as [|p ps IH]; intros i k.
  - destruct i, k; cbn; try destruct (_ =? _); reflexivity.
  - destruct i as [|i], k as [|k]; cbn; try reflexivity. apply IH.
Qed.

(** The loop over the defaults, in closed form: when it ends without an
    exception, the parameter at [k] carries the default at
    [k + n_defaults - length ps - i] when that position exists. *)
Lemma apply_defaults_nth ds :
  forall i ps ps' k p,
    apply_defaults (i + length ds) i ds ps = Ok ps' ->
    nth_error ps k = Some p ->
    nth_error ps' k
    = Some (if length ps + i <=? k + (i + length ds)
            then match nth_error ds (k + (i + length ds) - length ps - i) with
                 | Some d =>
                     match unparse d with
                     | Ok text => mkParam (param_name p) (type_hint p)
                                          (Some text) (param_description p)
                                          false
                     | Raised _ => p
                     end
                 | None => p
                 end
            else p).
Proof.
  induction ds as [|d ds IH]; intros i ps ps' k p Hok Hk.
  - cbn [apply_defaults length] in *. injection Hok as <-. rewrite Hk.
    assert (Hlt : k < length ps) by (apply nth_error_Some; congruence).
    destruct (Nat.leb_spec (length ps + i) (k + (i + 0))); [lia|reflexivity].
  - assert (Hlt : k < length ps) by (apply nth_error_Some; congruence).
    cbn [apply_defaults length] in Hok |- *.
    replace (i + S (length ds)) with (S i + length ds) in Hok |- * by lia.
    set (idx := (Z.of_nat (length ps) - Z.of_nat (S i + length ds)
                 + Z.of_nat i)%Z) in Hok.
    destruct ((0 <=? idx)%Z && (idx <? Z.of_nat (length ps))%Z) eqn:Hvalid.
    + apply andb_true_iff in Hvalid. destruct Hvalid as [H0 H1].
      apply Z.leb_le in H0. apply Z.ltb_lt in H1.
      assert (Hidx : Z.to_nat idx = length ps + i - (S i + length ds))
        by (subst idx; lia).
      assert (Hge : S i + length ds <= length ps + i) by (subst idx; lia).
      destruct (unparse d) as [text|e] eqn:Hd; cbn [bind] in Hok;
        [|discriminate].
      destruct (Nat.eq_dec k (Z.to_nat idx)) as [Heq | Hne].
      * rewrite (IH (S i) (set_default (Z.to_nat idx) text ps) ps' k
                   (mkParam (param_name p) (type_hint p) (Some text)
                            (param_description p) false) Hok).
        -- rewrite set_default_length.
           destruct (Nat.leb_spec (length ps + S i) (k + (S i + length ds)));
             [lia|].
           destruct (Nat.leb_spec (length ps + i) (k + (S i + length ds)));
             [|lia].
           replace (k + (S i + length ds) - length ps - i) with 0 by lia.
           cbn [nth_error]. rewrite Hd. reflexivity.
        -- rewrite set_default_nth, Heq, Nat.eqb_refl.
           rewrite <- Heq, Hk. reflexivity.
      * rewrite (IH (S i) (set_default (Z.to_nat idx) text ps) ps' k p Hok).
        -- rewrite set_default_length.
           destruct (Nat.leb_spec (length ps + S i) (k + (S i + length ds)));
             destruct (Nat.leb_spec (length ps + i) (k + (S i + length ds)));
             try lia; [|reflexivity].
           replace (k + (S i + length ds) - length ps - i)
             with (S (k + (S i + length ds) - length ps - S i)) by lia.
           reflexivity.
        -- rewrite set_default_nth.
           destruct (Nat.eqb_spec k (Z.to_nat idx)); [contradiction|exact Hk].
    + assert (Hneg : length ps + i < S i + length ds).
      { apply andb_false_iff in Hvalid. subst idx.
        destruct Hvalid as [H | H];
          [apply Z.leb_gt in H | apply Z.ltb_ge in H]; lia. }
      rewrite (IH (S i) ps ps' k p Hok Hk).
      destruct (Nat.leb_spec (length ps + S i) (k + (S i + length ds)));
        destruct (Nat.leb_spec (length ps + i) (k + (S i + length ds)));
        try lia.
      replace (k + (S i + length ds) - length ps - i)
        with (S (k + (S i + length ds) - length ps - S i)) by lia.
      reflexivity.
Qed.

(** X1. [_extract_parameters] returns the parameters exactly when the
    arguments are buildable, and raises what [ast.unparse] raised
    otherwise.  The parameters correspond one to one, in order, to the
    arguments kept, and the defaults are aligned to the right: the
    parameter at position [k] of [n] gets the default at position
    [k + d - n] of the [d] defaults and becomes optional when that
    position exists; the other parameters stay required, and defaults
    without a parameter are dropped. *)
Theorem defaults_align_with_last_parameters :
  forall (fn_args : arguments) (fn_parent : option node_class),
    if buildable fn_args fn_parent
    then exists ps,
           _extract_parameters fn_args fn_parent = Ok ps /\
           forall k,
             nth_error ps k
             = option_map
                 (fun a =>
                    with_default (length (kept_args fn_args fn_parent))
                                 (defaults fn_args) k (param_of_arg a))
                 (nth_error (kept_args fn_args fn_parent) k)
    else exists e, _extract_parameters fn_args fn_parent = Raised e.
Proof.
  intros fn_args fn_parent.
  pose proof (extract_parameters_outcome fn_args fn_parent) as Hout.
  destruct (_extract_parameters fn_args fn_parent) as [ps|e] eqn:E.
  - destruct Hout as [-> Hnames]. exists ps. split; [reflexivity|].
    intros k. unfold _extract_parameters in E.
    set (kept := kept_args fn_args fn_parent) in *.
    destruct (nth_error kept k) as [a|] eqn:Hk; cbn [option_map].
    + assert (Hp : nth_error (map param_of_arg kept) k
                   = Some (param_of_arg a))
        by (rewrite nth_error_map, Hk; reflexivity).
      pose proof (apply_defaults_nth (defaults fn_args) 0
                    (map param_of_arg kept) ps k (param_of_arg a) E Hp)
        as H.
      rewrite H. rewrite length_map.
      unfold with_default. rewrite !Nat.add_0_r, !Nat.sub_0_r. reflexivity.
    + apply nth_error_None.
      rewrite <- (length_map param_name), Hnames, length_map.
      apply nth_error_None. exact Hk.
  - rewrite Hout. exists e. reflexivity.
Qed.

Lemma count_defs_children n :
  count_defs n
  = (if is_def n then 1 else 0) + list_sum (map count_defs (children n)).
Proof. destruct n; reflexivity. Qed.

(** The walk meets as many definitions as the forest holds. *)
Lemma walk_queue_defs fuel :
  forall queue,
    forest_size queue <= fuel ->
    length (filter is_def (walk_queue fuel queue))
    = list_sum (map count_defs queue).
Proof.
  induction fuel as [|fuel IH]; intros queue Hsize.
  - destruct queue as [|x q]; [reflexivity|].
    rewrite forest_size_cons, node_size_children in Hsize. lia.
  - destruct queue as [|x q]; [reflexivity|].
    cbn [walk_queue filter map].
    change (list_sum (count_defs x :: map count_defs q))
      with (count_defs x + list_sum (map count_defs q)).
    rewrite (count_defs_children x).
    assert (Hfuel : forest_size (q ++ children x) <= fuel).
    { rewrite forest_size_app.
      rewrite forest_size_cons, node_size_children in Hsize. lia. }
    specialize (IH _ Hfuel). rewrite map_app, list_sum_app in IH.
    destruct (is_def x); cbn [length]; lia.
Qed.

(** What [collect] returns: one element for every definition met, and
    the positions of the function elements and of the class elements, the
    two kinds of them. *)
Lemma collect_spec nodes path :
  forall next,
    let '(elems, fns, clss) := collect nodes path next in
    length elems = length (filter is_def nodes) /\
    fns = positions is_callable next elems /\
    clss = positions is_class next elems /\
    Forall (fun e => is_callable e = negb (is_class e)) elems.
Proof.
  induction nodes as [|n nodes IH]; intros next; [cbn; auto|].
  cbn [collect].
  destruct n as [fn_name fn_args returns body lineno fn_parent
                |fn_name body
                |cls_name body lineno end_lineno|v|nested];
    try (cbn [filter is_def]; apply IH).
  - pose proof (parse_function_outcome fn_name fn_args returns body lineno
                  fn_parent path) as Hout.
    destruct (_parse_function _ path) as [fe|].
    + destruct Hout as (Hb & _ & _ & _ & Ht).
      specialize (IH (S next)).
      destruct (collect nodes path (S next)) as [[elems fns] clss].
      destruct IH as (Hlen & Hf & Hc & Hall).
      assert (Hcall : is_callable fe = true)
        by (unfold is_callable; rewrite Ht;
            destruct (_is_method fn_parent); reflexivity).
      assert (Hcls : is_class fe = false)
        by (unfold is_class; rewrite Ht;
            destruct (_is_method fn_parent); reflexivity).
      cbn [filter length is_def positions]. rewrite Hb, Hcall, Hcls.
      cbn [length]. repeat split; auto; try congruence.
      constructor; [rewrite Hcall, Hcls; reflexivity | exact Hall].
    + cbn [filter is_def]. rewrite Hout. apply IH.
  - destruct (parse_class_some cls_name body lineno end_lineno path)
      as (ce & -> & _ & _ & _ & Ht).
    specialize (IH (S next)).
    destruct (collect nodes path (S next)) as [[elems fns] clss].
    destruct IH as (Hlen & Hf & Hc & Hall).
    assert (Hcall : is_callable ce = false)
      by (unfold is_callable; rewrite Ht; reflexivity).
    assert (Hcls : is_class ce = true)
      by (unfold is_class; rewrite Ht; reflexivity).
    cbn [filter length is_def positions]. rewrite Hcall, Hcls.
    repeat split; auto; try congruence.
    constructor; [rewrite Hcall, Hcls; reflexivity | exact Hall].
Qed.

(** X2. The extractor returns the module element followed by exactly one
    element for every class definition of the file and for every function
    definition written with a plain [def] whose arguments are buildable,
    however deeply nested; a function with [async def] or with a default
    value that cannot be printed gets none. *)
Theorem one_element_per_definition :
  forall (tree : Module_) (path : Path),
    length (elements_of_tree tree path)
    = S (list_sum (map count_defs (mod_body tree))).
Proof.
  intros tree path. unfold elements_of_tree.
  pose proof (collect_spec (walk tree) path 1) as H.
  destruct (collect (walk tree) path 1) as [[elems fns] clss].
  destruct H as (Hlen & _). cbn [length]. f_equal. rewrite Hlen.
  apply walk_queue_defs. apply Nat.le_refl.
Qed.

(** The references [positions] gives stand for the entries that pass the
    test, in order. *)
Lemma positions_deref {A} (test : A -> bool) (l : list A) :
  forall before,
    map (nth_error (before ++ l)) (positions test (length before) l)
    = map Some (filter test l).
Proof.
  induction l as [|x l IH]; intros before; [reflexivity|].
  cbn [positions filter].
  assert (Hstep : before ++ x :: l = (before ++ [x]) ++ l)
    by (rewrite <- app_assoc; reflexivity).
  assert (Hlen : S (length before) = length (before ++ [x]))
    by (rewrite length_app; cbn; lia).
  destruct (test x); cbn [map].
  - rewrite nth_error_app2, Nat.sub_diag by apply Nat.le_refl.
    cbn [nth_error]. f_equal. rewrite Hstep, Hlen. apply IH.
  - rewrite Hstep, Hlen. apply IH.
Qed.

(** X3. The first element returned is the module, named after the file's
    stem.  Its [functions] refer to all the function entries of the flat
    sequence, methods and nested functions included, in order, and its
    [classes] to all the class entries: they are the positions of these
    entries, so that they stand for the very objects of the sequence.
    Every other element is of one of these two kinds. *)
Theorem module_element_lists_every_definition :
  forall (tree : Module_) (path : Path),
    exists module_element others,
      elements_of_tree tree path = module_element :: others /\
      element_type module_element = MODULE /\
      name module_element = stem path /\
      line_number module_element = 1 /\
      docstring module_element = extract_docstring (mod_body tree) /\
      functions module_element = positions is_callable 1 others /\
      classes module_element = positions is_class 1 others /\
      map (deref (module_element :: others)) (functions module_element)
      = map Some (filter is_callable others) /\
      map (deref (module_element :: others)) (classes module_element)
      = map Some (filter is_class others) /\
      Forall (fun e => is_callable e = negb (is_class e)) others.
Proof.
  intros tree path. unfold elements_of_tree.
  pose proof (collect_spec (walk tree) path 1) as H.
  destruct (collect (walk tree) path 1) as [[elems fns] clss].
  destruct H as (_ & Hf & Hc & Hall).
  eexists _, elems. split; [reflexivity|].
  do 4 (split; [reflexivity|]).
  split; [exact Hf|]. split; [exact Hc|].
  cbn [functions classes set_members]. subst fns clss.
  split; [exact (positions_deref is_callable elems [_])|].
  split; [exact (positions_deref is_class elems [_]) | exact Hall].
Qed.

Lemma parse_methods_names body path :
  map name (parse_methods body path) = function_names body.
Proof.
  induction body as [|n body IH]; [reflexivity|].
  destruct n as [fn_name fn_args returns fbody lineno fn_parent
                |fn_name fbody
                |cls_name cbody lineno end_lineno|v|nested];
    cbn [parse_methods function_names flat_map app]; try exact IH.
  pose proof (parse_function_outcome fn_name fn_args returns fbody lineno
                fn_parent path) as Hout.
  destruct (_parse_function _ path) as [fe|].
  - destruct Hout as (-> & Hn & _). cbn [map app]. now rewrite Hn, IH.
  - rewrite Hout. exact IH.
Qed.

(** X4. The [methods] of a class element are built from the functions
    that are statements of the class body itself, written with a plain
    [def] and with buildable arguments, in the order they are written; a
    function nested deeper in the body, one written with [async def] and
    one with a default value that cannot be printed are not among them. *)
Theorem class_methods_are_direct_functions :
  forall cls_name body lineno end_lineno (path : Path),
    option_map (fun ce => map name (methods ce))
               (_parse_class (ClassDef cls_name body lineno end_lineno) path)
    = Some (function_names body).
Proof.
  intros cls_name body lineno end_lineno path.
  destruct (parse_class_some cls_name body lineno end_lineno path)
    as (ce & -> & _ & _ & Hm & _).
  cbn [option_map]. now rewrite Hm, parse_methods_names.
Qed.

Lemma positions_map {A} (test : A -> bool) (f : A -> A) l :
  (forall x, test (f x) = test x) ->
  forall start, positions test start (map f l) = positions test start l.
Proof.
  intros Hf. induction l as [|x l IH]; intros start; [reflexivity|].
  cbn [map positions]. now rewrite Hf, !IH.
Qed.

(** X25. The module element and the flat sequence share their objects:
    once [check_file] has gone through the flat sequence, the [functions]
    and the [classes] of the module element stand for the checked entries,
    with the status and the messages the checker wrote into them. *)
Theorem module_members_are_the_checked_entries :
  forall (config : ServerConfig) (tree : Module_) (path : Path)
         (lang : string),
    let extracted := elements_of_tree tree path in
    let checked :=
      elements (check_file config
                  (mkFileResult path lang extracted [] 0%Q 0 0)) in
    exists module_element others,
      checked = module_element :: others /\
      element_type module_element = MODULE /\
      others
      = map (fun e => fst (_check_element config e lang)) (tl extracted) /\
      map (deref checked) (functions module_element)
      = map Some (filter is_callable others) /\
      map (deref checked) (classes module_element)
      = map Some (filter is_class others).
Proof.
  intros config tree path lang extracted checked. subst checked extracted.
  rewrite check_file_elements. cbn [elements language].
  unfold elements_of_tree.
  pose proof (collect_spec (walk tree) path 1) as H.
  destruct (collect (walk tree) path 1) as [[elems fns] clss].
  destruct H as (_ & -> & -> & _).
  cbn [map tl]. eexists _, _. split; [reflexivity|].
  split; [reflexivity|]. split; [reflexivity|].
  set (chk := fun e => fst (_check_element config e lang)).
  cbn [_check_element fst functions classes set_analysis set_members
       set_docstring new_element].
  assert (Hcall : forall e, is_callable (chk e) = is_callable e)
    by reflexivity.
  assert (Hcls : forall e, is_class (chk e) = is_class e) by reflexivity.
  rewrite <- (positions_map is_callable chk elems Hcall 1).
  rewrite <- (positions_map is_class chk elems Hcls 1).
  split.
  - exact (positions_deref is_callable (map chk elems) [_]).
  - exact (positions_deref is_class (map chk elems) [_]).
Qed.

(* ================================================================== *)
(** * Further properties of the rule engine *)
(* ================================================================== *)

(** X5. An element without a doc blob is rated Missing and gets at most
    one issue: the presence issue, high for a public element and medium
    otherwise, when presence is checked and the element should be
    documented.  The format and completeness stages add nothing. *)
Theorem undocumented_element_gets_presence_issue_only :
  forall (config : ServerConfig) (element : CodeElement) (lang : string),
    truthy (docstring element) = false ->
    status (fst (_check_element config element lang)) = MISSING /\
    map (fun i => (issue_type i, severity i))
        (element_issues config element lang)
    = if check_presence (analysis config)
         && _should_have_documentation element
      then [("missing_documentation",
             if String.eqb (visibility element) "public"
             then "high" else "medium")]
      else [].
Proof.
  intros config element lang Hdoc. split.
  - unfold _check_element, _determine_status. cbn [fst status set_analysis].
    now rewrite Hdoc.
  - unfold element_issues, _check_presence, docstring_blank.
    rewrite Hdoc. cbn [andb]. rewrite !app_nil_r.
    destruct (check_presence (analysis config)); cbn [negb andb];
      [|reflexivity].
    destruct (_should_have_documentation element); cbn [andb];
      [|reflexivity].
    destruct (docstring element) as [[|c d]|]; try discriminate Hdoc;
      reflexivity.
Qed.

(** The module of [users.py], which has no docstring. *)
Lemma undocumented_element_gets_presence_issue_only_witness :
  truthy (docstring MoreInputs.users_module) = false /\
  status (fst (_check_element get_default_config MoreInputs.users_module
                              "python")) = MISSING /\
  map (fun i => (issue_type i, severity i))
      (element_issues get_default_config MoreInputs.users_module "python")
  = [("missing_documentation", "high")].
Proof.
  split; [reflexivity|].
  exact (undocumented_element_gets_presence_issue_only get_default_config
           MoreInputs.users_module "python" eq_refl).
Defined.

Lemma blank_false_truthy element :
  docstring_blank element = false -> truthy (docstring element) = true.
Proof.
  unfold docstring_blank. destruct (docstring element) as [[|c d]|];
    cbn; intros H; try discriminate H; reflexivity.
Qed.

(** X6. A class, a module or any other element that is not a function or
    method, and whose doc blob is not blank, gets no issue from the
    checker and is rated Excellent, or gets the single medium issue
    [missing_summary] and is rated Outdated. *)
Theorem documented_non_callable_is_excellent_or_outdated :
  forall (config : ServerConfig) (element : CodeElement) (lang : string),
    is_callable_type (element_type element) = false ->
    docstring_blank element = false ->
    (element_issues config element lang = [] /\
     status (fst (_check_element config element lang)) = EXCELLENT) \/
    (exists issue,
        element_issues config element lang = [issue] /\
        issue_type issue = "missing_summary" /\
        severity issue = "medium" /\
        status (fst (_check_element config element lang)) = OUTDATED).
Proof.
  intros config element lang Htype Hblank.
  pose proof (blank_false_truthy element Hblank) as Hdoc.
  assert (Hpres : (if check_presence (analysis config)
                   then _check_presence config element else []) = []).
  { unfold _check_presence. rewrite Hblank.
    destruct (check_presence (analysis config)); cbn [negb];
      [rewrite andb_false_r|]; reflexivity. }
  assert (Hfmt : _check_format config element lang = []).
  { unfold _check_format, _check_google_format, _check_numpy_format,
      _check_sphinx_format, _check_javadoc_format, _check_jsdoc_format,
      per_param_format.
    rewrite Htype. cbn [andb]. split_ifs; reflexivity. }
  unfold _check_element, _determine_status. cbn [fst status set_analysis].
  unfold element_issues. rewrite Hpres, Hdoc, Hfmt. cbn [andb negb app].
  assert (Hnil : (if check_format (analysis config)
                  then @nil DocumentationIssue else []) = [])
    by (destruct (check_format (analysis config)); reflexivity).
  rewrite Hnil. cbn [app].
  destruct (check_completeness (analysis config)); [|left; split; reflexivity].
  unfold _check_completeness. rewrite Htype.
  destruct (docstring element) as [[|c d]|]; try discriminate Hdoc.
  destruct (negb (truthy (summary element))
            && negb (_has_summary_in_docstring (String c d))).
  - right. eexists. rewrite app_nil_r. repeat split; reflexivity.
  - left. split; reflexivity.
Qed.

(** The class [Ledger], documented in one line. *)
Lemma documented_non_callable_is_excellent_or_outdated_witness :
  is_callable_type (element_type MoreInputs.ledger_element) = false /\
  docstring_blank MoreInputs.ledger_element = false /\
  ((element_issues get_default_config MoreInputs.ledger_element "python"
    = [] /\
    status (fst (_check_element get_default_config
                   MoreInputs.ledger_element "python")) = EXCELLENT) \/
   (exists issue,
       element_issues get_default_config MoreInputs.ledger_element "python"
       = [issue] /\
       issue_type issue = "missing_summary" /\
       severity issue = "medium" /\
       status (fst (_check_element get_default_config
                      MoreInputs.ledger_element "python")) = OUTDATED)).
Proof.
  split; [reflexivity|]. split; [reflexivity|].
  exact (documented_non_callable_is_excellent_or_outdated get_default_config
           MoreInputs.ledger_element "python" eq_refl eq_refl).
Defined.

(** X7. A doc blob that holds white space only is reported as missing
    documentation by the presence check, yet the element is not rated
    Missing and counts as documented in the coverage. *)
Theorem blank_docstring_is_flagged_but_counted :
  forall (config : ServerConfig) (element : CodeElement) (lang : string),
    check_presence (analysis config) = true ->
    _should_have_documentation element = true ->
    truthy (docstring element) = true ->
    docstring_blank element = true ->
    (exists issue,
        In issue (element_issues config element lang) /\
        issue_type issue = "missing_documentation") /\
    status (fst (_check_element config element lang)) <> MISSING /\
    documented (fst (_check_element config element lang)) = true.
Proof.
  intros config element lang Hp Hs Hdoc Hblank. repeat split.
  - eexists. split.
    + unfold element_issues. rewrite Hp. apply in_or_app. left.
      unfold _check_presence. rewrite Hp, Hs, Hblank. cbn [negb andb].
      left. reflexivity.
    + reflexivity.
  - pose proof (checked_status_missing config lang element) as H.
    rewrite Hdoc in H. intros E. rewrite E in H. discriminate H.
  - unfold documented. rewrite checked_should_have, Hs. exact Hdoc.
Qed.

(** The function [blank] of [blank.py]. *)
Lemma blank_docstring_is_flagged_but_counted_witness :
  check_presence (analysis get_default_config) = true /\
  _should_have_documentation MoreInputs.blank_element = true /\
  truthy (docstring MoreInputs.blank_element) = true /\
  docstring_blank MoreInputs.blank_element = true /\
  (exists issue,
      In issue (element_issues get_default_config MoreInputs.blank_element
                               "python") /\
      issue_type issue = "missing_documentation") /\
  status (fst (_check_element get_default_config MoreInputs.blank_element
                              "python")) <> MISSING /\
  documented (fst (_check_element get_default_config
                     MoreInputs.blank_element "python")) = true.
Proof.
  repeat (split; [reflexivity|]).
  exact (blank_docstring_is_flagged_but_counted get_default_config
           MoreInputs.blank_element "python" eq_refl eq_refl eq_refl
           eq_refl).
Defined.

Lemma filter_and_length {A} (f g : A -> bool) l :
  length (filter (fun x => f x && g x) l) <= length (filter f l).
Proof.
  induction l as [|x l IH]; [apply Nat.le_refl|].
  cbn [filter]. destruct (f x); cbn [andb]; [|exact IH].
  destruct (g x); cbn [length]; lia.
Qed.

Lemma truediv_bounds d t :
  d <= t -> 0 < t -> (0 <= truediv d t /\ truediv d t <= 1)%Q.
Proof.
  intros Hd Ht. unfold truediv, Qle. cbn [Qnum Qden].
  destruct t as [|t]; [lia|]. rewrite <- Pos.of_nat_succ. split; lia.
Qed.

(** X8. After [check_file] the number of documented elements does not
    exceed the number of elements that should be documented, which does
    not exceed the number of elements, and the coverage score lies
    between 0 and 1. *)
Theorem coverage_is_a_fraction :
  forall (config : ServerConfig) (file_result : FileAnalysisResult),
    let r := check_file config file_result in
    documented_elements r <= total_elements r /\
    total_elements r <= length (elements file_result) /\
    (0 <= coverage_score r /\ coverage_score r <= 1)%Q.
Proof.
  intros config file_result r.
  destruct (check_file_counts config file_result)
    as (Ht & Hd & Hc & _). fold r in Ht, Hd, Hc.
  assert (Hle : documented_elements r <= total_elements r).
  { rewrite Ht, Hd. unfold documented. apply filter_and_length. }
  repeat split; try exact Hle.
  - rewrite Ht. apply filter_length_le.
  - rewrite Hc. destruct (Nat.ltb_spec 0 (total_elements r));
      [now apply truediv_bounds | discriminate].
  - rewrite Hc. destruct (Nat.ltb_spec 0 (total_elements r));
      [now apply truediv_bounds | discriminate].
Qed.

(* ================================================================== *)
(** * Further properties of the evaluator *)
(* ================================================================== *)

Lemma mem_In x l : mem x l = true <-> In x l.
Proof.
  unfold mem. rewrite existsb_exists. split.
  - intros (y & Hy & E). apply String.eqb_eq in E. now subst.
  - intros H. exists x. split; [exact H | apply String.eqb_refl].
Qed.

Lemma mem_not_In x l : mem x l = false <-> ~ In x l.
Proof.
  rewrite <- mem_In. destruct (mem x l); split; congruence.
Qed.

Lemma dict_get_In {V} k (d : pydict V) v :
  dict_get k d = Some v -> In (k, v) d.
Proof.
  induction d as [|[k' v'] d IH]; [discriminate|].
  cbn [dict_get]. destruct (String.eqb_spec k k') as [->|Hne].
  - intros [= ->]. left; reflexivity.
  - intros H. right. auto.
Qed.

Lemma dict_get_None {V} k (d : pydict V) :
  dict_get k d = None -> ~ In k (map fst d).
Proof.
  induction d as [|[k' v'] d IH]; [intros _ []|].
  cbn [dict_get]. destruct (String.eqb_spec k k') as [->|Hne];
    [discriminate|].
  intros H [E | Hin]; [cbn in E; congruence | now apply IH].
Qed.

Lemma dict_set_new {V} k (v : V) d :
  dict_get k d = None -> dict_set k v d = d ++ [(k, v)].
Proof.
  induction d as [|[k' v'] d IH]; [reflexivity|].
  cbn [dict_get dict_set]. destruct (String.eqb k k'); [discriminate|].
  intros H. cbn. now rewrite IH.
Qed.

Lemma dict_set_keys {V} k (v v0 : V) d :
  dict_get k d = Some v0 -> map fst (dict_set k v d) = map fst d.
Proof.
  induction d as [|[k' v'] d IH]; [discriminate|].
  cbn [dict_get dict_set]. destruct (String.eqb k k'); [reflexivity|].
  intros H. cbn. now rewrite IH.
Qed.

Lemma dict_set_Forall {V} (P : string * V -> Prop) k v d :
  Forall P d -> P (k, v) -> Forall P (dict_set k v d).
Proof.
  intros Hd Hk. induction d as [|[k' v'] d IH]; [repeat constructor; auto|].
  inversion Hd; subst. cbn [dict_set].
  destruct (String.eqb_spec k k') as [->|Hne]; constructor; auto.
Qed.

Lemma dict_get_set_same {V} k (v : V) d :
  dict_get k (dict_set k v d) = Some v.
Proof.
  induction d as [|[k' v'] d IH]; cbn; [now rewrite String.eqb_refl|].
  destruct (String.eqb k k') eqn:E; cbn; rewrite E; auto.
Qed.

Lemma dict_get_set_other {V} k k0 (v : V) d :
  k <> k0 -> dict_get k (dict_set k0 v d) = dict_get k d.
Proof.
  intros Hne. induction d as [|[k' v'] d IH]; cbn.
  - destruct (String.eqb_spec k k0); [contradiction|reflexivity].
  - destruct (String.eqb_spec k0 k') as [->|Hne']; cbn.
    + destruct (String.eqb_spec k k'); [contradiction|reflexivity].
    + destruct (String.eqb k k'); auto.
Qed.

Lemma set_add_NoDup x s : NoDup s -> NoDup (set_add x s).
Proof.
  intros Hs. unfold set_add. destruct (mem x s) eqn:Hm; [exact Hs|].
  apply mem_not_In in Hm.
  apply NoDup_app; [exact Hs | repeat constructor; intros [] | ].
  intros y Hy [<- | []]. contradiction.
Qed.

Lemma set_add_In x s y : In y (set_add x s) <-> y = x \/ In y s.
Proof.
  unfold set_add. destruct (mem x s) eqn:Hm.
  - apply mem_In in Hm. split; [auto|]. intros [-> | H]; auto.
  - rewrite in_app_iff. cbn. intuition.
Qed.

(** Recording one more word keeps the terminology table well formed. *)
Lemma add_term_ok word terms :
  terminology_ok terms -> terminology_ok (add_term word terms).
Proof.
  intros [Hkeys Hall]. unfold add_term.
  destruct (dict_get (lower word) terms) as [vs|] eqn:Hget.
  - pose proof (dict_get_In _ _ _ Hget) as Hin.
    pose proof (proj1 (Forall_forall _ _) Hall _ Hin) as (Hne & Hnd & Hlow).
    cbn [fst snd] in *. split.
    + now rewrite (dict_set_keys _ _ vs).
    + apply dict_set_Forall; [exact Hall|].
      unfold term_entry_ok. cbn [fst snd]. repeat split.
      * intros E. assert (Hx : In word (set_add word vs))
          by (apply set_add_In; now left).
        rewrite E in Hx. contradiction.
      * now apply set_add_NoDup.
      * intros v Hv. apply set_add_In in Hv.
        destruct Hv as [-> | Hv]; auto.
  - rewrite (dict_set_new _ _ _ Hget). split.
    + rewrite map_app. cbn [map fst].
      apply NoDup_app; [exact Hkeys | repeat constructor; intros [] | ].
      intros k Hk [<- | []]. now apply dict_get_None in Hget.
    + apply Forall_app. split; [exact Hall|].
      repeat constructor; cbn [fst snd]; try discriminate.
      * intros [].
      * intros v [<- | []]. reflexivity.
Qed.

Lemma collect_element_ok st element :
  terminology_ok (project_terminology st) ->
  terminology_ok (project_terminology (collect_element st element)).
Proof.
  intros Hok. unfold collect_element.
  destruct (docstring element) as [[|c d]|]; try exact Hok.
  cbn [project_terminology].
  generalize (Re.findall Re.no_flags term_re (String c d)).
  intros words. revert Hok. generalize (project_terminology st).
  induction words as [|w words IH]; intros terms Hok; [exact Hok|].
  cbn [fold_left]. apply IH. now apply add_term_ok.
Qed.

Lemma collect_terminology_ok st file_result :
  terminology_ok (project_terminology st) ->
  terminology_ok
    (project_terminology (_collect_terminology st file_result)).
Proof.
  unfold _collect_terminology. generalize (elements file_result).
  intros elems. revert st.
  induction elems as [|e elems IH]; intros st Hok; [exact Hok|].
  cbn [fold_left]. apply IH. now apply collect_element_ok.
Qed.



(** ** What the collection records *)







(** ** The issues of the consistency pass *)





(** X9. The terminology table the evaluator builds from any sequence of
    file results has distinct keys, and under every key a non-empty set
    without duplicates of forms whose lower case is that key. *)
Theorem terminology_table_is_well_formed :
  forall (fs : list FileAnalysisResult),
    terminology_ok
      (project_terminology (fold_left _collect_terminology fs initial_state)).
Proof.
  intros fs.
  assert (H : forall st, terminology_ok (project_terminology st) ->
                         terminology_ok
                           (project_terminology
                              (fold_left _collect_terminology fs st))).
  { induction fs as [|f fs IH]; intros st Hok; [exact Hok|].
    cbn [fold_left]. apply IH. now apply collect_terminology_ok. }
  apply H. split; constructor.
Qed.

(** X10. When the forms a set yields are forms of the set and the
    terminology table is well formed, every issue of the cross-file pass
    sets two different forms against each other that are equal up to
    case, and both were recorded for the same term. *)
Theorem terminology_issue_forms_differ_in_case_only :
  forall (set_iter : pyset -> list string) (st : EvaluatorState)
         (file_result : FileAnalysisResult),
    (forall s v, In v (set_iter s) -> In v s) ->
    terminology_ok (project_terminology st) ->
    forall issue,
      In issue (_check_cross_file_consistency set_iter st file_result) ->
      exists element variation reference term variations,
        In element (elements file_result) /\
        issue = terminology_issue element variation reference /\
        In (term, variations) (project_terminology st) /\
        In variation variations /\ In reference variations /\
        variation <> reference /\
        lower variation = lower reference /\
        String.length variation = String.length reference.
Proof.
  intros set_iter st file_result Hiter [_ Hall] issue Hin.
  unfold _check_cross_file_consistency in Hin.
  apply in_flat_map in Hin. destruct Hin as (element & Hel & Hin).
  destruct (truthy (docstring element)); [|contradiction].
  unfold _check_terminology_consistency in Hin.
  destruct (docstring element) as [doc|]; [|contradiction].
  apply in_flat_map in Hin. destruct Hin as ([term vs] & Hterm & Hin).
  apply term_issues_spec in Hin. cbn [snd] in Hin.
  destruct Hin as (v & r & _ & Hr & Hv & _ & Hvr & ->).
  apply Hiter in Hv.
  assert (Hrin : In r vs).
  { apply Hiter.
    destruct (set_iter vs) as [|x l]; [discriminate|].
    injection Hr as ->. left; reflexivity. }
  pose proof (proj1 (Forall_forall _ _) Hall _ Hterm) as (_ & _ & Hlow).
  cbn [fst snd] in Hlow.
  assert (Hsame : lower v = lower r)
    by (rewrite (Hlow v Hv), (Hlow r Hrin); reflexivity).
  exists element, v, r, term, vs. repeat split; auto.
  assert (Hlen : forall s, String.length (lower s) = String.length s)
    by (induction s; cbn; congruence).
  rewrite <- (Hlen v), <- (Hlen r), Hsame. reflexivity.
Qed.

(** The forms recorded for [users.py], iterated as they were added. *)
Lemma terminology_issue_forms_differ_in_case_only_witness :
  (forall s v, In v (Inputs.insertion_order s) -> In v s) /\
  terminology_ok (project_terminology Inputs.users_state) /\
  forall issue,
    In issue (_check_cross_file_consistency Inputs.insertion_order
                Inputs.users_state Inputs.users_result) ->
    exists element variation reference term variations,
      In element (elements Inputs.users_result) /\
      issue = terminology_issue element variation reference /\
      In (term, variations) (project_terminology Inputs.users_state) /\
      In variation variations /\ In reference variations /\
      variation <> reference /\
      lower variation = lower reference /\
      String.length variation = String.length reference.
Proof.
  assert (Hiter : forall s v, In v (Inputs.insertion_order s) -> In v s)
    by (intros s v H; exact H).
  assert (Hok : terminology_ok (project_terminology Inputs.users_state)).
  { apply collect_terminology_ok. split; constructor. }
  split; [exact Hiter|]. split; [exact Hok|].
  exact (terminology_issue_forms_differ_in_case_only Inputs.insertion_order
           Inputs.users_state Inputs.users_result Hiter Hok).
Defined.

Lemma is_prefix_refl {A} (l : list A) : is_prefix l l.
Proof. exists []. now rewrite app_nil_r. Qed.

Lemma is_prefix_app {A} (l l' : list A) : is_prefix l (l ++ l').
Proof. now exists l'. Qed.

(** The loop of [evaluate_file] leaves the declaration and the status of
    every element as they are and only appends messages. *)
Lemma evaluate_elements_keeps config set_iter clarity elems :
  let r := fst (evaluate_elements config set_iter clarity elems) in
  map declaration r = map declaration elems /\
  map status r = map status elems /\
  Forall2 (fun e e' => is_prefix (issues e) (issues e')) elems r.
Proof.
  induction elems as [|e elems IH]; [cbn; auto|].
  cbn [evaluate_elements].
  destruct (evaluate_elements config set_iter clarity elems)
    as [rest_elems rest_issues].
  cbn [fst] in IH. destruct IH as (Hd & Hs & Hi).
  destruct (truthy (docstring e)).
  - unfold _evaluate_element. cbn [fst map].
    rewrite Hd, Hs. repeat split; auto.
    constructor; [apply is_prefix_app | exact Hi].
  - cbn [fst map]. rewrite Hd, Hs. repeat split; auto.
    constructor; [apply is_prefix_refl | exact Hi].
Qed.

(** X11. [evaluate_file] never changes what the checker decided: every
    entry of the flat sequence keeps its declaration (its [functions] and
    [classes] go on referring to the same entries) and its status, the
    file keeps its counters and its coverage score, and the issues and
    messages already there stay at the front of the longer lists. *)
Theorem evaluation_keeps_status_and_coverage :
  forall (config : ServerConfig) (set_iter : pyset -> list string)
         (clarity : CodeElement -> list DocumentationIssue)
         (file_result : FileAnalysisResult),
    let r := evaluate_file config set_iter clarity file_result in
    map declaration (elements r) = map declaration (elements file_result) /\
    map status (elements r) = map status (elements file_result) /\
    Forall2 (fun e e' => is_prefix (issues e) (issues e'))
            (elements file_result) (elements r) /\
    is_prefix (fr_issues file_result) (fr_issues r) /\
    same_summary file_result r.
Proof.
  intros config set_iter clarity file_result r. subst r.
  unfold evaluate_file.
  pose proof (evaluate_elements_keeps config set_iter clarity
                (elements file_result)) as H.
  destruct (evaluate_elements config set_iter clarity (elements file_result))
    as [elems found].
  cbn [fst] in H. destruct H as (Hd & Hs & Hi).
  assert (Hpre : forall extra,
             is_prefix (fr_issues file_result)
                       ((fr_issues file_result ++ found) ++ extra)).
  { intros extra. rewrite <- app_assoc. apply is_prefix_app. }
  destruct (evaluate_consistency (analysis config)).
  - unfold _check_file_consistency. cbn [elements].
    destruct (1 <? length (_analyze_documentation_styles elems)).
    + destruct (filter _ elems) as [|x l].
      * cbn. repeat split; auto. apply is_prefix_app.
      * unfold add_file_issues. cbn. repeat split; auto.
    + cbn. repeat split; auto. apply is_prefix_app.
  - cbn. repeat split; auto. apply is_prefix_app.
Qed.

Lemma terminology_issue_kind element variation reference :
  issue_type (terminology_issue element variation reference)
  = "terminology_inconsistency" /\
  severity (terminology_issue element variation reference) = "low".
Proof. split; reflexivity. Qed.

Lemma cross_file_issues_kind set_iter st file_result :
  Forall (fun i => issue_type i = "terminology_inconsistency" /\
                   severity i = "low")
         (_check_cross_file_consistency set_iter st file_result).
Proof.
  apply Forall_forall. intros issue Hin.
  unfold _check_cross_file_consistency in Hin.
  apply in_flat_map in Hin. destruct Hin as (element & _ & Hin).
  destruct (truthy (docstring element)); [|contradiction].
  unfold _check_terminology_consistency in Hin.
  destruct (docstring element) as [doc|]; [|contradiction].
  apply in_flat_map in Hin. destruct Hin as ([term vs] & _ & Hin).
  apply term_issues_spec in Hin.
  destruct Hin as (v & r & _ & _ & _ & _ & _ & ->).
  apply terminology_issue_kind.
Qed.

Lemma same_summary_refl f : same_summary f f.
Proof. repeat split. Qed.

(** X12. The project-wide pass returns one file result for each one it
    is given, in the same order, with the same elements, counters and
    coverage score; what it appends to the issues of a file are low
    terminology issues only.  When consistency evaluation is switched off
    it returns the file results and the evaluator's state as they are. *)
Theorem consistency_pass_only_appends_low_issues :
  forall (config : ServerConfig) (set_iter : pyset -> list string)
         (st : EvaluatorState) (fs : list FileAnalysisResult),
    let r := evaluate_project config set_iter st fs in
    Forall2
      (fun f f' =>
         elements f' = elements f /\ same_summary f f' /\
         exists extra,
           fr_issues f' = fr_issues f ++ extra /\
           Forall (fun i => issue_type i = "terminology_inconsistency" /\
                            severity i = "low") extra)
      fs (snd r) /\
    (if evaluate_consistency (analysis config)
     then fst r = fold_left _collect_terminology fs st
     else r = (st, fs)).
Proof.
  intros config set_iter st fs r. subst r. unfold evaluate_project.
  destruct (evaluate_consistency (analysis config)); cbn [negb fst snd].
  - split; [|reflexivity].
    generalize (fold_left _collect_terminology fs st). intros st'.
    induction fs as [|f fs IH]; [constructor|].
    cbn [map]. constructor; [|exact IH].
    split; [reflexivity|]. split; [repeat split|].
    eexists. split; [reflexivity|]. apply cross_file_issues_kind.
  - split; [|reflexivity].
    induction fs as [|f fs IH]; constructor; [|exact IH].
    split; [reflexivity|]. split; [apply same_summary_refl|].
    exists []. split; [now rewrite app_nil_r | constructor].
Qed.

(* ================================================================== *)
(** * Further properties of the orchestrator *)
(* ================================================================== *)

Lemma count_issue_get sev issue h :
  hist_get sev (count_issue h issue)
  = hist_get sev h + (if String.eqb (severity issue) sev then 1 else 0).
Proof.
  unfold count_issue, hist_get.
  destruct (String.eqb_spec (severity issue) sev) as [->|Hne].
  - rewrite dict_get_set_same. reflexivity.
  - rewrite dict_get_set_other by congruence. lia.
Qed.

Lemma count_issues_get sev issues :
  forall h,
    hist_get sev (fold_left count_issue issues h)
    = hist_get sev h + count_severity sev issues.
Proof.
  unfold count_severity.
  induction issues as [|i issues IH]; intros h; cbn [fold_left filter].
  - cbn. lia.
  - rewrite IH, count_issue_get.
    destruct (String.eqb (severity i) sev); cbn [length]; lia.
Qed.

Lemma count_issue_positive h issue :
  Forall (fun entry => 0 < snd entry) h ->
  Forall (fun entry => 0 < snd entry) (count_issue h issue).
Proof.
  intros Hh. unfold count_issue. apply dict_set_Forall; [exact Hh|].
  cbn [snd]. lia.
Qed.

Lemma count_issues_positive issues :
  forall h,
    Forall (fun entry : string * nat => 0 < snd entry) h ->
    Forall (fun entry => 0 < snd entry) (fold_left count_issue issues h).
Proof.
  induction issues as [|i issues IH]; intros h Hh; [exact Hh|].
  cbn [fold_left]. apply IH. now apply count_issue_positive.
Qed.

(** The accumulators of the metrics, in closed form. *)
Lemma metrics_fold fs :
  forall m sev,
    Forall (fun entry : string * nat => 0 < snd entry) (m_histogram m) ->
    let m' := fold_left metrics_step fs m in
    m_total m' = m_total m + list_sum (map total_elements fs) /\
    m_documented m'
    = m_documented m + list_sum (map documented_elements fs) /\
    hist_get sev (m_histogram m')
    = hist_get sev (m_histogram m) + issues_of_severity sev fs /\
    Forall (fun entry => 0 < snd entry) (m_histogram m').
Proof.
  unfold issues_of_severity.
  induction fs as [|f fs IH]; intros m sev Hpos; cbn [fold_left].
  - cbn. repeat split; auto; lia.
  - specialize (IH (metrics_step m f) sev).
    cbn [metrics_step m_histogram m_total m_documented] in IH.
    destruct (IH (count_issues_positive _ _ Hpos)) as (Ht & Hd & Hh & Hp).
    cbn zeta. rewrite Ht, Hd, Hh, count_issues_get.
    change (list_sum (map ?g (f :: fs)))
      with (g f + list_sum (map g fs)).
    repeat split; auto; cbn [map list_sum fold_right]; lia.
Qed.

(** X13. [_calculate_project_metrics] leaves the file results as they
    are; its totals are the sums of the files' counters, and its histogram
    has, for every severity some issue of the files carries, the number
    of such issues, and no entry for any other severity. *)
Theorem metrics_count_the_files_as_given :
  forall (p : ProjectAnalysisResult) (sev : string),
    let r := _calculate_project_metrics p in
    files r = files p /\
    project_total_elements r = list_sum (map total_elements (files p)) /\
    project_documented_elements r
    = list_sum (map documented_elements (files p)) /\
    dict_get sev (issues_by_severity r)
    = (if issues_of_severity sev (files p) =? 0 then None
       else Some (issues_of_severity sev (files p))).
Proof.
  intros p sev r. subst r. unfold _calculate_project_metrics.
  cbn [files project_total_elements project_documented_elements
       issues_by_severity].
  destruct (metrics_fold (files p) (mkMetrics 0 0 [] []) sev
              (Forall_nil _)) as (Ht & Hd & Hh & Hp).
  cbn [m_total m_documented m_histogram] in Ht, Hd, Hh.
  repeat split; auto.
  unfold hist_get in Hh. cbn [dict_get] in Hh.
  destruct (dict_get sev _) as [n|] eqn:Hget.
  - pose proof (dict_get_In _ _ _ Hget) as Hin.
    pose proof (proj1 (Forall_forall _ _) Hp _ Hin) as Hn. cbn in Hn.
    cbn [Nat.add] in Hh. rewrite <- Hh.
    destruct n; [lia | reflexivity].
  - cbn [Nat.add] in Hh. rewrite <- Hh. reflexivity.
Qed.

Lemma evaluate_file_summary config set_iter clarity file_result :
  same_summary file_result
               (evaluate_file config set_iter clarity file_result).
Proof.
  unfold evaluate_file.
  destruct (evaluate_elements config set_iter clarity (elements file_result))
    as [elems found].
  destruct (evaluate_consistency (analysis config)); [|repeat split].
  unfold _check_file_consistency. cbn [elements].
  destruct (1 <? length (_analyze_documentation_styles elems));
    [|repeat split].
  destruct (filter _ elems); repeat split.
Qed.

(** [_analyze_file], step by step: no result without a language; else
    the check and the evaluation of the elements parsed, which are none
    when reading or parsing raises. *)
Lemma analyze_file_spec config set_iter clarity read_text ast_parse p :
  _analyze_file config set_iter clarity read_text ast_parse p
  = match _detect_language config p with
    | Some (String c l) =>
        Some (evaluate_file config set_iter clarity
                (check_file config
                   (mkFileResult p (String c l)
                      (match bind (read_text p) ast_parse with
                       | Ok tree => elements_of_tree tree p
                       | Raised _ => []
                       end) [] 0%Q 0 0)))
    | _ => None
    end.
Proof.
  unfold _analyze_file, _analyze_file_body, parse_file, parse_file_body,
    try_except, bind.
  destruct (_detect_language config p) as [[|c l]|]; try reflexivity.
  destruct (read_text p) as [content|e]; [|reflexivity].
  destruct (ast_parse content); reflexivity.
Qed.

Lemma analyzed_file_summary config set_iter clarity read_text ast_parse p f :
  _analyze_file config set_iter clarity read_text ast_parse p = Some f ->
  fr_path f = p /\ documented_elements f <= total_elements f /\
  truthy (_detect_language config p) = true.
Proof.
  rewrite analyze_file_spec.
  destruct (_detect_language config p) as [[|c l]|]; try discriminate.
  intros [= <-].
  match goal with
  | |- context [evaluate_file _ _ _ ?fr] =>
      destruct (evaluate_file_summary config set_iter clarity fr)
        as (Hp & _ & _ & Ht & Hd)
  end.
  rewrite Hp, Ht, Hd.
  match goal with
  | |- context [check_file config ?fr] =>
      destruct (check_file_counts config fr) as (Ht' & Hd' & _ & Hp' & _)
  end.
  rewrite Hp', Ht', Hd'. repeat split.
  unfold documented. apply filter_and_length.
Qed.

Lemma analyze_files_spec config set_iter clarity read_text ast_parse paths :
  let fs := analyze_files config set_iter clarity read_text ast_parse paths in
  map fr_path fs
  = filter (fun p => truthy (_detect_language config p)) paths /\
  Forall (fun f => documented_elements f <= total_elements f) fs.
Proof.
  induction paths as [|p paths [IHp IHf]]; [split; [reflexivity|constructor]|].
  cbn [analyze_files flat_map filter].
  fold (analyze_files config set_iter clarity read_text ast_parse paths).
  destruct (_analyze_file config set_iter clarity read_text ast_parse p)
    as [f|] eqn:Hf.
  - destruct (analyzed_file_summary _ _ _ _ _ _ _ Hf) as (Hp & Hle & Hl).
    rewrite Hl. cbn [app map]. rewrite Hp, IHp. split; [reflexivity|].
    constructor; assumption.
  - rewrite analyze_file_spec in Hf.
    destruct (_detect_language config p) as [[|c l]|]; try discriminate;
      cbn [truthy app]; split; assumption.
Qed.

Lemma evaluate_project_frame config set_iter st fs :
  let fs' := snd (evaluate_project config set_iter st fs) in
  map fr_path fs' = map fr_path fs /\
  map total_elements fs' = map total_elements fs /\
  map documented_elements fs' = map documented_elements fs.
Proof.
  unfold evaluate_project.
  destruct (negb (evaluate_consistency (analysis config))); cbn [snd];
    [auto|].
  rewrite !map_map. cbn. auto.
Qed.

Lemma list_sum_le {A} (f g : A -> nat) l :
  Forall (fun x => f x <= g x) l ->
  list_sum (map f l) <= list_sum (map g l).
Proof.
  induction 1 as [|x l Hx _ IH]; [apply Nat.le_refl|].
  cbn [map list_sum fold_right]. change (fold_right Nat.add 0) with list_sum.
  lia.
Qed.

(** X14. In the result of [analyze_project] the project totals are the
    sums of the counters of the file results returned, the documented
    total does not exceed the total, and the overall coverage is their
    quotient, between 0 and 1, or 1 when nothing has to be documented. *)
Theorem project_coverage_is_a_fraction :
  forall (config : ServerConfig) (set_iter : pyset -> list string)
         (clarity : CodeElement -> list DocumentationIssue)
         (read_text : Path -> py_result string)
         (ast_parse : string -> py_result Module_)
         (st : EvaluatorState) (project : Path) (paths : list Path),
    let r := snd (analyze_project config set_iter clarity read_text
                                  ast_parse st project paths) in
    project_total_elements r = list_sum (map total_elements (files r)) /\
    project_documented_elements r
    = list_sum (map documented_elements (files r)) /\
    project_documented_elements r <= project_total_elements r /\
    overall_coverage r
    = (if 0 <? project_total_elements r
       then truediv (project_documented_elements r)
                    (project_total_elements r)
       else 1%Q) /\
    (0 <= overall_coverage r /\ overall_coverage r <= 1)%Q.
Proof.
  intros config set_iter clarity read_text ast_parse st project paths r.
  subst r. unfold analyze_project.
  set (fs := analyze_files config set_iter clarity read_text ast_parse paths).
  cbn [files _calculate_project_metrics].
  destruct (evaluate_project_frame config set_iter st fs)
    as (_ & Ht' & Hd').
  destruct (evaluate_project config set_iter st fs) as [st' fs'].
  cbn [snd] in Ht', Hd'.
  cbn [snd set_files files project_total_elements
       project_documented_elements overall_coverage].
  destruct (metrics_fold fs (mkMetrics 0 0 [] []) "" (Forall_nil _))
    as (Ht & Hd & _ & _).
  cbn [m_total m_documented Nat.add] in Ht, Hd.
  unfold _calculate_project_metrics.
  cbn [files project_total_elements project_documented_elements
       overall_coverage].
  rewrite Ht, Hd, Ht', Hd'.
  assert (Hle : list_sum (map documented_elements fs)
                <= list_sum (map total_elements fs)).
  { apply list_sum_le.
    apply (analyze_files_spec config set_iter clarity read_text ast_parse
             paths). }
  repeat split; auto;
    destruct (Nat.ltb_spec 0 (list_sum (map total_elements fs)));
    try discriminate; now apply truediv_bounds.
Qed.

(** X15. The file results [analyze_project] returns are those of the
    paths for which a language is detected, one each and in the order of
    the paths; a path without a language gives none. *)
Theorem one_result_per_file_with_a_language :
  forall (config : ServerConfig) (set_iter : pyset -> list string)
         (clarity : CodeElement -> list DocumentationIssue)
         (read_text : Path -> py_result string)
         (ast_parse : string -> py_result Module_)
         (st : EvaluatorState) (project : Path) (paths : list Path),
    map fr_path
        (files (snd (analyze_project config set_iter clarity read_text
                                     ast_parse st project paths)))
    = filter (fun p => truthy (_detect_language config p)) paths.
Proof.
  intros. unfold analyze_project.
  set (fs := analyze_files config set_iter clarity read_text ast_parse paths).
  cbn [files _calculate_project_metrics].
  destruct (evaluate_project_frame config set_iter st fs) as (Hp & _).
  destruct (evaluate_project config set_iter st fs) as [st' fs'].
  cbn [snd set_files files] in *. rewrite Hp.
  apply (analyze_files_spec config set_iter clarity read_text ast_parse
           paths).
Qed.

(** X16. A file whose language is detected but which cannot be read or
    parsed is not left out: it yields a file result without elements and
    without issues, whose counters are 0 and whose coverage score is 1. *)
Theorem unparsable_file_counts_as_fully_covered :
  forall (config : ServerConfig) (set_iter : pyset -> list string)
         (clarity : CodeElement -> list DocumentationIssue)
         (read_text : Path -> py_result string)
         (ast_parse : string -> py_result Module_)
         (p : Path) (lang e : string),
    _detect_language config p = Some lang ->
    truthy (Some lang) = true ->
    bind (read_text p) ast_parse = Raised e ->
    _analyze_file config set_iter clarity read_text ast_parse p
    = Some (mkFileResult p lang [] [] 1%Q 0 0).
Proof.
  intros config set_iter clarity read_text ast_parse p lang e Hl Ht Hr.
  rewrite analyze_file_spec, Hl, Hr.
  destruct lang as [|c l]; [discriminate|].
  unfold evaluate_file, check_file. cbn.
  destruct (evaluate_consistency (analysis config)); reflexivity.
Qed.

(** The file [broken.py], which is not Python. *)
Lemma unparsable_file_counts_as_fully_covered_witness :
  _detect_language get_default_config Inputs.broken_py = Some "python" /\
  truthy (Some "python") = true /\
  bind (Inputs.read_text Inputs.broken_py) Inputs.ast_parse
  = Raised "SyntaxError" /\
  _analyze_file get_default_config Inputs.insertion_order Inputs.no_clarity
                Inputs.read_text Inputs.ast_parse Inputs.broken_py
  = Some (mkFileResult Inputs.broken_py "python" [] [] 1%Q 0 0).
Proof.
  repeat (split; [reflexivity|]).
  exact (unparsable_file_counts_as_fully_covered get_default_config
           Inputs.insertion_order Inputs.no_clarity Inputs.read_text
           Inputs.ast_parse Inputs.broken_py "python" "SyntaxError"
           eq_refl eq_refl eq_refl).
Defined.

(* ================================================================== *)
(** * File selection *)
(* ================================================================== *)

Import FileSelection.

(** X17. With the default configuration every file the Python parser
    accepts is analysed as a Python file: language detection does not
    drop it. *)
Theorem accepted_files_are_python :
  forall (p : Path),
    can_parse p = true ->
    _detect_language get_default_config p = Some "python".
Proof.
  intros p H. unfold can_parse, python_extensions, mem in H.
  cbn [existsb] in H. rewrite orb_false_r in H.
  apply String.eqb_eq in H.
  unfold _detect_language. rewrite H. reflexivity.
Qed.

(** The file [calc.py]. *)
Lemma accepted_files_are_python_witness :
  can_parse Inputs.calc_py = true /\
  _detect_language get_default_config Inputs.calc_py = Some "python".
Proof.
  split; [reflexivity|].
  exact (accepted_files_are_python Inputs.calc_py eq_refl).
Defined.

Lemma prefix_first c p s :
  String.prefix (String c p) s = true ->
  String.prefix (String c EmptyString) s = true.
Proof.
  destruct s as [|b s]; cbn; [discriminate|].
  destruct (ascii_dec c b); [|discriminate]. intros _.
  destruct s; reflexivity.
Qed.

Lemma contains_first c p s :
  contains s (String c p) = true ->
  contains s (String c EmptyString) = true.
Proof.
  induction s as [|b s IH]; cbn [contains].
  - cbn. discriminate.
  - intros H. apply orb_true_iff in H. apply orb_true_iff.
    destruct H as [H | H]; [left; now apply prefix_first with p|].
    right. auto.
Qed.

(** X18. A pattern that starts with a star is looked for in the path as
    it is written and not as a wildcard: a path without a star in it is
    excluded exactly when its name or its suffix is one of the
    patterns. *)
Theorem star_patterns_match_literally :
  forall (p : Path) (exclude_patterns : pyset),
    contains (path_str p) "*" = false ->
    _should_exclude p exclude_patterns
    = mem (path_name p) exclude_patterns || mem (suffix p) exclude_patterns.
Proof.
  intros p pats Hstar. unfold _should_exclude.
  destruct (mem (path_name p) pats); [reflexivity|].
  destruct (mem (suffix p) pats); [reflexivity|]. cbn [orb].
  induction pats as [|pat pats IH]; [reflexivity|].
  cbn [filter]. destruct (startswith pat "*") eqn:Hs; [|exact IH].
  cbn [existsb]. rewrite IH, orb_false_r.
  destruct (contains (path_str p) pat) eqn:Hc; [|reflexivity].
  unfold startswith in Hs. destruct pat as [|c pat]; [discriminate|].
  cbn [String.prefix] in Hs.
  destruct (ascii_dec "*" c) as [<-|]; [|discriminate].
  apply contains_first in Hc. congruence.
Qed.

(** The compiled file [pkg/calc.pyc] and the default patterns, one of
    which is [*.pyc]. *)
Lemma star_patterns_match_literally_witness :
  contains "pkg/calc.pyc" "*" = false /\
  _should_exclude (mkPath "pkg/calc.pyc" "calc" ".pyc")
                  default_exclude_patterns
  = mem "calc.pyc" default_exclude_patterns
    || mem ".pyc" default_exclude_patterns.
Proof.
  split; [reflexivity|].
  exact (star_patterns_match_literally
           (mkPath "pkg/calc.pyc" "calc" ".pyc") default_exclude_patterns
           eq_refl).
Defined.

(* ================================================================== *)
(** * Parameter synchronisation *)
(* ================================================================== *)

Lemma count_type_app kind l1 l2 :
  count_type kind (l1 ++ l2) = count_type kind l1 + count_type kind l2.
Proof. unfold count_type. now rewrite filter_app, length_app. Qed.

Lemma count_type_flat_map_perm {A} kind (f : A -> list DocumentationIssue)
      l l' :
  Permutation l l' ->
  count_type kind (flat_map f l) = count_type kind (flat_map f l').
Proof.
  induction 1 as [|x l l' _ IH|x y l|l l' l'' _ IH1 _ IH2];
    cbn [flat_map]; rewrite ?count_type_app; lia.
Qed.

Lemma filter_length_perm {A} (test : A -> bool) l l' :
  Permutation l l' -> length (filter test l) = length (filter test l').
Proof.
  induction 1 as [|x l l' _ IH|x y l|l l' l'' _ IH1 _ IH2];
    cbn [filter]; try destruct (test x); try destruct (test y);
    cbn [length]; lia.
Qed.

(** The issues of one kind among those reported for the names that fail
    a test. *)
Lemma count_type_reported element kind kind' sev msg sugg
      (test : string -> bool) l :
  count_type kind
    (flat_map (fun n => if test n then []
                        else [new_issue element kind' sev (msg n) (sugg n)])
              l)
  = if String.eqb kind' kind
    then length (filter (fun n => negb (test n)) l) else 0.
Proof.
  induction l as [|n l IH]; [destruct (String.eqb kind' kind); reflexivity|].
  cbn [flat_map filter]. rewrite count_type_app, IH.
  destruct (test n); cbn [negb]; [reflexivity|].
  unfold count_type at 1. cbn [filter issue_type new_issue].
  destruct (String.eqb kind' kind); reflexivity.
Qed.

(** X19. Whatever the order in which sets are iterated, the
    synchronisation check reports one [sync_extra_param] for every
    documented name that is not a declared parameter other than [self]
    and [cls], one [sync_missing_param] for every such parameter that is
    not documented, and nothing else. *)
Theorem parameter_sync_reports_the_two_differences :
  forall (set_iter : pyset -> list string) (element : CodeElement),
    (forall s, Permutation (set_iter s) s) ->
    let documented_names :=
      Evaluator._extract_documented_parameters (docstring element) in
    let actual :=
      set_of_list (filter (fun n => negb (mem n ["self"; "cls"]))
                          (map param_name (parameters element))) in
    let found := _check_parameter_sync set_iter element in
    count_type "sync_extra_param" found
    = length (filter (fun n => negb (mem n actual)) documented_names) /\
    count_type "sync_missing_param" found
    = length (filter (fun n => negb (mem n documented_names)) actual) /\
    length found
    = count_type "sync_extra_param" found
      + count_type "sync_missing_param" found.
Proof.
  intros set_iter element Hperm documented_names actual found.
  subst found. unfold _check_parameter_sync.
  fold documented_names. fold actual.
  rewrite !count_type_app.
  rewrite (count_type_flat_map_perm "sync_extra_param" _ _ _
             (Hperm documented_names)).
  rewrite (count_type_flat_map_perm "sync_extra_param" _ _ _ (Hperm actual)).
  rewrite (count_type_flat_map_perm "sync_missing_param" _ _ _
             (Hperm documented_names)).
  rewrite (count_type_flat_map_perm "sync_missing_param" _ _ _
             (Hperm actual)).
  rewrite !count_type_reported. cbn [String.eqb Ascii.eqb Bool.eqb].
  rewrite length_app.
  assert (Hone : forall kind sev msg sugg (test : string -> bool) l,
             length (flat_map
                       (fun n => if test n then []
                                 else [new_issue element kind sev (msg n)
                                                 (sugg n)]) l)
             = length (filter (fun n => negb (test n)) l)).
  { intros. induction l as [|n l IH]; [reflexivity|].
    cbn [flat_map filter]. rewrite length_app, IH.
    destruct (test n); reflexivity. }
  rewrite !Hone.
  rewrite (filter_length_perm _ _ _ (Hperm documented_names)).
  rewrite (filter_length_perm _ _ _ (Hperm actual)).
  repeat split; lia.
Qed.

(** The function [add] of [calc.py], its sets iterated as they were
    filled. *)
Lemma parameter_sync_reports_the_two_differences_witness :
  let element :=
    match _parse_function Inputs.fn_add Inputs.calc_py with
    | Some e => e
    | None => new_element "" FUNCTION Inputs.calc_py 0
    end in
  (forall s, Permutation (Inputs.insertion_order s) s) /\
  let documented_names :=
    Evaluator._extract_documented_parameters (docstring element) in
  let actual :=
    set_of_list (filter (fun n => negb (mem n ["self"; "cls"]))
                        (map param_name (parameters element))) in
  let found := _check_parameter_sync Inputs.insertion_order element in
  count_type "sync_extra_param" found
  = length (filter (fun n => negb (mem n actual)) documented_names) /\
  count_type "sync_missing_param" found
  = length (filter (fun n => negb (mem n documented_names)) actual) /\
  length found
  = count_type "sync_extra_param" found
    + count_type "sync_missing_param" found.
Proof.
  intros element.
  assert (H : forall s, Permutation (Inputs.insertion_order s) s)
    by (intros s; apply Permutation_refl).
  split; [exact H|].
  exact (parameter_sync_reports_the_two_differences Inputs.insertion_order
           element H).
Defined.

(* ================================================================== *)
(** * Cleaning a docstring twice *)
(* ================================================================== *)

Local Open Scope string_scope.

Lemma append_nil_r (s : string) : s ++ "" = s.
Proof. induction s; cbn; congruence. Qed.

Lemma append_assoc (a b c : string) : (a ++ b) ++ c = a ++ (b ++ c).
Proof. induction a; cbn; congruence. Qed.

Lemma rev_append_spec s acc : rev_append s acc = rev s ++ acc.
Proof.
  unfold rev. revert acc.
  induction s as [|c s IH]; intros acc; [reflexivity|].
  cbn [rev_append]. rewrite IH, (IH (String c "")), append_assoc.
  reflexivity.
Qed.

Lemma rev_cons c s : rev (String c s) = rev s ++ String c "".
Proof. unfold rev at 1. cbn [rev_append]. apply rev_append_spec. Qed.

Lemma rev_app a b : rev (a ++ b) = rev b ++ rev a.
Proof.
  induction a as [|c a IH]; cbn [append].
  - now rewrite append_nil_r.
  - now rewrite !rev_cons, IH, append_assoc.
Qed.

Lemma rev_involutive s : rev (rev s) = s.
Proof.
  induction s as [|c s IH]; [reflexivity|].
  now rewrite rev_cons, rev_app, IH.
Qed.

Lemma lstrip_app_char x c :
  lstrip (x ++ String c "")
  = match lstrip x with
    | "" => if is_space c then "" else String c ""
    | y => y ++ String c ""
    end.
Proof.
  induction x as [|d x IH]; cbn [append lstrip]; [reflexivity|].
  destruct (is_space d); [exact IH | reflexivity].
Qed.

(** [rstrip], one character at a time. *)
Lemma rstrip_cons c s :
  rstrip (String c s)
  = match rstrip s with
    | "" => if is_space c then "" else String c ""
    | r => String c r
    end.
Proof.
  unfold rstrip. rewrite rev_cons, lstrip_app_char.
  destruct (lstrip (rev s)) as [|d y].
  - cbn. destruct (is_space c); reflexivity.
  - rewrite rev_app. change (rev (String c "")) with (String c "").
    cbn [append].
    destruct (rev (String d y)) eqn:E; [|reflexivity].
    apply (f_equal rev) in E. rewrite rev_involutive in E. discriminate.
Qed.

Lemma lstrip_length s : String.length (lstrip s) <= String.length s.
Proof.
  induction s as [|c s IH]; [apply Nat.le_refl|].
  cbn [lstrip]. destruct (is_space c); cbn [String.length]; lia.
Qed.

Lemma lstrip_idem s : lstrip (lstrip s) = lstrip s.
Proof.
  induction s as [|c s IH]; [reflexivity|].
  cbn [lstrip]. destruct (is_space c) eqn:E; [exact IH|].
  cbn [lstrip]. now rewrite E.
Qed.

Lemma rstrip_idem s : rstrip (rstrip s) = rstrip s.
Proof. unfold rstrip. now rewrite rev_involutive, lstrip_idem. Qed.

(** A string [lstrip] leaves alone is empty or starts with a character
    that is not white space. *)
Lemma lstrip_fixed s :
  lstrip s = s <->
  match s with "" => True | String c _ => is_space c = false end.
Proof.
  destruct s as [|c s]; [tauto|]. cbn [lstrip].
  destruct (is_space c) eqn:E; split; auto; try discriminate.
  intros H. pose proof (lstrip_length s) as Hl. rewrite H in Hl.
  cbn in Hl. lia.
Qed.

Lemma rstrip_keeps_head c s :
  is_space c = false ->
  exists r, rstrip (String c s) = String c r.
Proof.
  intros Hc. rewrite rstrip_cons. rewrite Hc.
  destruct (rstrip s); eexists; reflexivity.
Qed.

Lemma strip_lstrip_fixed d : lstrip (strip d) = strip d.
Proof.
  unfold strip. destruct (lstrip d) as [|c s] eqn:E; [reflexivity|].
  assert (Hc : is_space c = false).
  { pose proof (lstrip_idem d) as H. rewrite E in H.
    now apply lstrip_fixed in H. }
  destruct (rstrip_keeps_head c s Hc) as (r & ->).
  apply lstrip_fixed. exact Hc.
Qed.

Lemma strip_idem d : strip (strip d) = strip d.
Proof.
  unfold strip at 1. rewrite strip_lstrip_fixed.
  unfold strip. apply rstrip_idem.
Qed.

(** A suffix [rstrip] leaves alone protects what is before it. *)
Lemma rstrip_app a b :
  b <> "" -> rstrip b = b -> rstrip (a ++ b) = a ++ b.
Proof.
  intros Hb Hr. induction a as [|c a IH]; [exact Hr|].
  cbn [append]. rewrite rstrip_cons, IH.
  destruct (a ++ b) eqn:E; [|reflexivity].
  destruct a; cbn in E; [contradiction | discriminate].
Qed.

Lemma rstrip_app_inv a b :
  b <> "" -> rstrip (a ++ b) = a ++ b -> rstrip b = b.
Proof.
  intros Hb. induction a as [|c a IH]; [auto|].
  cbn [append]. rewrite rstrip_cons. intros H. apply IH.
  destruct (rstrip (a ++ b)) eqn:E.
  - destruct (is_space c); [discriminate|].
    injection H as H. destruct a; cbn in H; [symmetry in H; contradiction|].
    discriminate.
  - now injection H.
Qed.

(** A line is blank for [_clean_docstring] when [lstrip] empties it. *)
Lemma strip_empty_iff line : strip line = "" <-> lstrip line = "".
Proof.
  unfold strip. split.
  - destruct (lstrip line) as [|c s] eqn:E; [reflexivity|].
    assert (Hc : is_space c = false).
    { pose proof (lstrip_idem line) as H. rewrite E in H.
      now apply lstrip_fixed in H. }
    destruct (rstrip_keeps_head c s Hc) as (r & ->). discriminate.
  - intros ->. reflexivity.
Qed.

Lemma split_on_cons sep a b :
  has_char sep a = false ->
  split_on sep (a ++ String sep b) = (a :: split_on sep b)%list.
Proof.
  induction a as [|c a IH]; cbn [append split_on has_char].
  - now rewrite Ascii.eqb_refl.
  - intros H. apply orb_false_iff in H. destruct H as [Hc Ha].
    rewrite Hc, (IH Ha). reflexivity.
Qed.

Lemma split_on_single sep a :
  has_char sep a = false -> split_on sep a = [a].
Proof.
  induction a as [|c a IH]; cbn [split_on has_char]; [reflexivity|].
  intros H. apply orb_false_iff in H. destruct H as [Hc Ha].
  now rewrite Hc, (IH Ha).
Qed.

Lemma split_on_lines sep s :
  split_on sep s <> [] /\
  Forall (fun line => has_char sep line = false) (split_on sep s) /\
  join (String sep "") (split_on sep s) = s.
Proof.
  induction s as [|c s IH]; cbn [split_on].
  - repeat split; [discriminate | repeat constructor].
  - destruct IH as (Hne & Hall & Hjoin).
    destruct (Ascii.eqb_spec c sep) as [->|Hc].
    + repeat split; [discriminate | constructor; auto |].
      destruct (split_on sep s) as [|w ws]; [contradiction|].
      cbn [join append] in *. now rewrite Hjoin.
    + destruct (split_on sep s) as [|w ws]; [contradiction|].
      apply Forall_cons_iff in Hall. destruct Hall as [Hw Hws].
      repeat split; [discriminate | |].
      * constructor; [|assumption]. cbn [has_char].
        destruct (Ascii.eqb_spec c sep); [contradiction|]. assumption.
      * rewrite <- Hjoin. destruct ws; reflexivity.
Qed.

Lemma split_on_join sep ls :
  ls <> [] ->
  Forall (fun line => has_char sep line = false) ls ->
  split_on sep (join (String sep "") ls) = ls.
Proof.
  intros Hne Hall. induction ls as [|x ls IH]; [contradiction|].
  inversion Hall as [|? ? Hx Hls]; subst.
  destruct ls as [|y ls]; [now apply split_on_single|].
  cbn [join]. cbn [append]. rewrite (split_on_cons sep x _ Hx).
  f_equal. apply IH; [discriminate | exact Hls].
Qed.

Lemma join_snoc sep ls x :
  ls <> [] -> join sep (ls ++ [x])%list = join sep ls ++ sep ++ x.
Proof.
  induction ls as [|y ls IH]; [contradiction|]. intros _.
  destruct ls as [|z ls]; [reflexivity|].
  change (join sep ((y :: z :: ls) ++ [x])%list)
    with (y ++ sep ++ join sep ((z :: ls) ++ [x])%list).
  rewrite IH by discriminate.
  change (join sep (y :: z :: ls)) with (y ++ sep ++ join sep (z :: ls)).
  now rewrite !append_assoc.
Qed.

Lemma take_drop m s : take m s ++ drop m s = s.
Proof.
  revert s. induction m as [|m IH]; intros s; [destruct s; reflexivity|].
  destruct s as [|c s]; [reflexivity|]. cbn. now rewrite IH.
Qed.

Lemma drop_length m s : String.length (drop m s) = String.length s - m.
Proof.
  revert s. induction m as [|m IH]; intros s.
  - destruct s; cbn; lia.
  - destruct s as [|c s]; [reflexivity|]. cbn. apply IH.
Qed.

Lemma drop_has_char c m s : has_char c s = false -> has_char c (drop m s) = false.
Proof.
  revert s. induction m as [|m IH]; intros s; [destruct s; auto|].
  destruct s as [|d s]; [auto|]. cbn [has_char drop].
  intros H. apply orb_false_iff in H. now apply IH.
Qed.

Lemma indent_cons_space c s :
  is_space c = true -> indent (String c s) = S (indent s).
Proof.
  intros Hc. unfold indent. cbn [lstrip]. rewrite Hc.
  pose proof (lstrip_length s). cbn [String.length]. lia.
Qed.

Lemma indent_cons_other c s :
  is_space c = false -> indent (String c s) = 0.
Proof. intros Hc. unfold indent. cbn [lstrip]. rewrite Hc. lia. Qed.

(** Dropping no more than the indentation of a line keeps what [lstrip]
    leaves of it. *)
Lemma drop_within_indent m line :
  m <= indent line ->
  lstrip (drop m line) = lstrip line /\
  indent (drop m line) = indent line - m.
Proof.
  revert line. induction m as [|m IH]; intros line Hm.
  - destruct line; split; cbn [drop]; auto; lia.
  - destruct line as [|c s]; [cbn in Hm; lia|].
    destruct (is_space c) eqn:Hc.
    + rewrite (indent_cons_space _ _ Hc) in *.
      cbn [drop lstrip]. rewrite Hc. apply IH. lia.
    + rewrite (indent_cons_other _ _ Hc) in Hm. lia.
Qed.

Lemma drop_blank m line : lstrip line = "" -> lstrip (drop m line) = "".
Proof.
  revert line. induction m as [|m IH]; intros line; [destruct line; auto|].
  destruct line as [|c s]; [auto|]. cbn [lstrip drop].
  destruct (is_space c); [apply IH | discriminate].
Qed.

Lemma indent_lt_length line :
  lstrip line <> "" -> indent line < String.length line.
Proof.
  intros H. unfold indent. pose proof (lstrip_length line).
  destruct (lstrip line); [contradiction|]. cbn [String.length] in *. lia.
Qed.

(** What dedenting does to a line that is not blank and is indented by
    at least [m], and to a blank line. *)
Lemma dedent_line_indented m line :
  lstrip line <> "" -> m <= indent line ->
  dedent_line m line = drop m line /\
  lstrip (dedent_line m line) = lstrip line /\
  indent (dedent_line m line) = indent line - m.
Proof.
  intros Hnb Hm. pose proof (indent_lt_length line Hnb) as Hlt.
  unfold dedent_line.
  destruct (Nat.ltb_spec m (String.length line)); [|lia].
  destruct (drop_within_indent m line Hm). auto.
Qed.

Lemma dedent_line_blank m line :
  lstrip line = "" -> lstrip (dedent_line m line) = "".
Proof.
  intros H. unfold dedent_line.
  destruct (Nat.ltb m (String.length line)); [now apply drop_blank | exact H].
Qed.

Lemma dedent_line_zero line : dedent_line 0 line = line.
Proof.
  unfold dedent_line. destruct (Nat.ltb 0 (String.length line)); [|reflexivity].
  destruct line; reflexivity.
Qed.

Lemma dedent_line_has_char c m line :
  has_char c line = false -> has_char c (dedent_line m line) = false.
Proof.
  intros H. unfold dedent_line.
  destruct (Nat.ltb m (String.length line)); [now apply drop_has_char | exact H].
Qed.

Lemma min_from_cons acc line ls :
  clean_min_indent_from acc (line :: ls)
  = clean_min_indent_from
      (match lstrip line with
       | "" => acc
       | _ => opt_min acc (indent line)
       end) ls.
Proof.
  unfold clean_min_indent_from, indent. cbn [fold_left]. f_equal.
  destruct (strip line) eqn:Es.
  - apply strip_empty_iff in Es. now rewrite Es.
  - destruct (lstrip line) eqn:El; [|reflexivity].
    apply strip_empty_iff in El. congruence.
Qed.

Lemma min_from_lower ls :
  forall acc m,
    clean_min_indent_from acc ls = Some m ->
    (forall a, acc = Some a -> m <= a) /\
    Forall (fun line => lstrip line <> "" -> m <= indent line) ls.
Proof.
  induction ls as [|line ls IH]; intros acc m H.
  - cbn in H. split; [|constructor]. intros a Ha. rewrite Ha in H.
    injection H as ->. apply Nat.le_refl.
  - rewrite min_from_cons in H. apply IH in H. destruct H as [Hacc Hls].
    destruct (lstrip line) eqn:El.
    + split; [exact Hacc|]. constructor; [congruence | exact Hls].
    + split.
      * intros a0 ->. specialize (Hacc _ eq_refl). cbn in Hacc. lia.
      * constructor; [|exact Hls]. intros _.
        destruct acc as [a0|]; specialize (Hacc _ eq_refl); cbn in Hacc;
          lia.
Qed.

Lemma min_from_attained ls :
  forall acc m,
    clean_min_indent_from acc ls = Some m ->
    acc = Some m \/
    Exists (fun line => lstrip line <> "" /\ indent line = m) ls.
Proof.
  induction ls as [|line ls IH]; intros acc m H.
  - left. exact H.
  - rewrite min_from_cons in H. apply IH in H.
    destruct H as [H | H]; [|right; now apply Exists_cons_tl].
    destruct (lstrip line) eqn:El; [left; exact H|].
    destruct acc as [a0|]; cbn in H; injection H as H.
    + destruct (Nat.min_spec a0 (indent line)) as [[_ E] | [_ E]].
      * left. congruence.
      * right. apply Exists_cons_hd. split; [congruence | lia].
    + right. apply Exists_cons_hd. split; [congruence | exact H].
Qed.

Lemma min_from_none ls :
  forall acc,
    clean_min_indent_from acc ls = None ->
    acc = None /\ Forall (fun line => lstrip line = "") ls.
Proof.
  induction ls as [|line ls IH]; intros acc H.
  - split; [exact H | constructor].
  - rewrite min_from_cons in H. apply IH in H. destruct H as [Hacc Hls].
    destruct (lstrip line) eqn:El.
    + split; [exact Hacc|]. constructor; assumption.
    + destruct acc; discriminate.
Qed.

(** Once the lines are dedented by their minimum indentation, the
    minimum indentation is 0. *)
Lemma dedented_min_indent m lines :
  clean_min_indent lines = Some m ->
  clean_min_indent (map (dedent_line m) lines) = Some 0.
Proof.
  intros H. change (clean_min_indent_from None lines = Some m) in H.
  pose proof (min_from_lower _ _ _ H) as [_ Hlow].
  pose proof (min_from_attained _ _ _ H) as [Hacc | Hex]; [discriminate|].
  apply Exists_exists in Hex. destruct Hex as (w & Hw & Hnb & Hind).
  assert (Hwm : m <= indent w) by lia.
  destruct (dedent_line_indented m w Hnb Hwm) as (_ & Hl & Hi).
  change (clean_min_indent_from None (map (dedent_line m) lines) = Some 0).
  destruct (clean_min_indent_from None (map (dedent_line m) lines))
    as [m'|] eqn:E.
  - pose proof (min_from_lower _ _ _ E) as [_ Hlow'].
    rewrite Forall_forall in Hlow'.
    assert (Hm' : m' <= indent (dedent_line m w)).
    { apply Hlow'; [now apply in_map | congruence]. }
    f_equal. lia.
  - apply min_from_none in E. destruct E as [_ Hall].
    rewrite Forall_forall in Hall.
    specialize (Hall _ (in_map (dedent_line m) _ _ Hw)). congruence.
Qed.

Lemma lstrip_empty_rstrip x : lstrip x = "" -> rstrip x = "".
Proof.
  induction x as [|c x IH]; [reflexivity|].
  cbn [lstrip]. destruct (is_space c) eqn:Hc; [|discriminate].
  intros H. rewrite rstrip_cons, (IH H), Hc. reflexivity.
Qed.

(** The last line of a text [rstrip] leaves alone: it is not blank and
    [rstrip] leaves it alone too. *)
Lemma rstrip_last_line a last :
  rstrip (a ++ NL ++ last) = a ++ NL ++ last ->
  rstrip last = last /\ lstrip last <> "".
Proof.
  intros H. apply rstrip_app_inv in H; [|discriminate].
  change (NL ++ last) with (String nl last) in H.
  rewrite rstrip_cons in H.
  destruct (rstrip last) as [|c r] eqn:E; [discriminate H|].
  injection H as H. split; [exact H|].
  intros Hb. apply lstrip_empty_rstrip in Hb. congruence.
Qed.

Lemma rstrip_with_last_line a last :
  rstrip last = last -> last <> "" ->
  rstrip (a ++ NL ++ last) = a ++ NL ++ last.
Proof.
  intros H Hne. apply rstrip_app; [discriminate|].
  change (NL ++ last) with (String nl last).
  rewrite rstrip_cons, H. destruct last; [contradiction | reflexivity].
Qed.

(** [_clean_docstring] on a text [strip] leaves alone. *)
Lemma clean_stripped s :
  strip s = s ->
  _clean_docstring s
  = match split_lines s with
    | (first :: ((_ :: _) as others))%list =>
        match clean_min_indent others with
        | Some m => join NL (first :: map (dedent_line m) others)
        | None => s
        end
    | _ => s
    end.
Proof.
  intros H. destruct s as [|c s]; [reflexivity|].
  unfold _clean_docstring. rewrite H. reflexivity.
Qed.

Lemma clean_of_strip d : _clean_docstring d = _clean_docstring (strip d).
Proof.
  destruct d as [|c d]; [reflexivity|].
  rewrite (clean_stripped (strip (String c d))) by apply strip_idem.
  reflexivity.
Qed.

Lemma stripped_both s : strip s = s -> lstrip s = s /\ rstrip s = s.
Proof.
  intros H. split.
  - rewrite <- H. apply strip_lstrip_fixed.
  - transitivity (rstrip (strip s)); [now rewrite H|].
    unfold strip. rewrite rstrip_idem. exact H.
Qed.

(** The text made of the dedented lines of a stripped text is stripped
    too, and its lines are the dedented lines. *)
Lemma dedented_text s first o os m :
  strip s = s ->
  split_lines s = (first :: o :: os)%list ->
  clean_min_indent (o :: os) = Some m ->
  let r := join NL (first :: map (dedent_line m) (o :: os)) in
  strip r = r /\
  split_lines r = (first :: map (dedent_line m) (o :: os))%list.
Proof.
  intros Hs Hlines Hmin r.
  destruct (split_on_lines nl s) as (_ & Hall & Hjoin).
  fold (split_lines s) in Hall, Hjoin. fold NL in Hjoin.
  rewrite Hlines in Hall, Hjoin.
  set (others := (o :: os)%list) in *.
  destruct (stripped_both s Hs) as [Hl Hr].
  (* the first line starts with a character that is not white space *)
  assert (Hfirst : exists c f, first = String c f /\ is_space c = false).
  { apply lstrip_fixed in Hl. rewrite <- Hjoin in Hl.
    destruct first as [|c f].
    - subst others. cbn in Hl. discriminate Hl.
    - exists c, f. split; [reflexivity|]. subst others. exact Hl. }
  destruct Hfirst as (c & f & -> & Hc).
  (* the last line ends the text *)
  destruct (exists_last (l := others)) as (init & last & Hothers);
    [subst others; discriminate|].
  assert (Hs_last : s = join NL (String c f :: init) ++ NL ++ last).
  { rewrite <- Hjoin, Hothers.
    change (String c f :: init ++ [last])%list
      with ((String c f :: init) ++ [last])%list.
    apply join_snoc. discriminate. }
  rewrite Hs_last in Hr. apply rstrip_last_line in Hr.
  destruct Hr as [Hr_last Hnb_last].
  pose proof (min_from_lower _ _ _ Hmin) as [_ Hlow].
  rewrite Forall_forall in Hlow.
  assert (Hin_last : In last others)
    by (rewrite Hothers; apply in_or_app; right; left; reflexivity).
  pose proof (Hlow _ Hin_last Hnb_last) as Hm_last.
  destruct (dedent_line_indented m last Hnb_last Hm_last)
    as (Hdd & Hdd_l & _).
  assert (Hdd_ne : dedent_line m last <> "")
    by (intros E; rewrite E in Hdd_l; cbn in Hdd_l; congruence).
  assert (Hdd_r : rstrip (dedent_line m last) = dedent_line m last).
  { rewrite Hdd. apply rstrip_app_inv with (take m last).
    - rewrite <- Hdd. exact Hdd_ne.
    - now rewrite take_drop. }
  assert (Hr_last' :
            r = join NL (String c f :: map (dedent_line m) init)
                ++ NL ++ dedent_line m last).
  { subst r. rewrite Hothers, map_app. cbn [map].
    change (String c f :: map (dedent_line m) init
                       ++ [dedent_line m last])%list
      with ((String c f :: map (dedent_line m) init)
            ++ [dedent_line m last])%list.
    apply join_snoc. discriminate. }
  split.
  - unfold strip.
    assert (Hlr : lstrip r = r).
    { apply lstrip_fixed. subst r others. cbn. exact Hc. }
    rewrite Hlr, Hr_last'. now apply rstrip_with_last_line.
  - subst r. apply split_on_join; [discriminate|].
    apply Forall_cons_iff in Hall. destruct Hall as [Hf Ho].
    constructor; [exact Hf|].
    apply Forall_forall. intros x Hx. apply in_map_iff in Hx.
    destruct Hx as (y & <- & Hy). apply dedent_line_has_char.
    rewrite Forall_forall in Ho. now apply Ho.
Qed.

Lemma stripped_clean_stripped s :
  strip s = s -> strip (_clean_docstring s) = _clean_docstring s.
Proof.
  intros Hs. rewrite (clean_stripped s Hs).
  destruct (split_lines s) as [|first [|o os]] eqn:Hlines; try exact Hs.
  destruct (clean_min_indent (o :: os)) as [m|] eqn:Hmin; [|exact Hs].
  apply (dedented_text s first o os m Hs Hlines Hmin).
Qed.

Lemma stripped_clean_fixed s :
  strip s = s -> _clean_docstring (_clean_docstring s) = _clean_docstring s.
Proof.
  intros Hs. rewrite (clean_stripped s Hs).
  destruct (split_lines s) as [|first [|o os]] eqn:Hlines;
    try (rewrite (clean_stripped s Hs), Hlines; reflexivity).
  destruct (clean_min_indent (o :: os)) as [m|] eqn:Hmin;
    [|now rewrite (clean_stripped s Hs), Hlines, Hmin].
  destruct (dedented_text s first o os m Hs Hlines Hmin)
    as [Hstrip_r Hlines_r].
  rewrite (clean_stripped _ Hstrip_r), Hlines_r.
  cbn [map].
  change (dedent_line m o :: map (dedent_line m) os)%list
    with (map (dedent_line m) (o :: os)).
  rewrite (dedented_min_indent m (o :: os) Hmin).
  rewrite map_map.
  rewrite (map_ext _ (dedent_line m)
             (fun x => dedent_line_zero (dedent_line m x))).
  rewrite dedent_line_zero. reflexivity.
Qed.

(** X20. Cleaning a docstring is idempotent: cleaning the text
    [_clean_docstring] returns gives that text again. *)
Theorem clean_docstring_is_idempotent :
  forall (d : string),
    _clean_docstring (_clean_docstring d) = _clean_docstring d.
Proof.
  intros d. rewrite (clean_of_strip d).
  apply stripped_clean_fixed. apply strip_idem.
Qed.

Lemma clean_docstring_stripped d :
  strip (_clean_docstring d) = _clean_docstring d.
Proof.
  rewrite (clean_of_strip d). apply stripped_clean_stripped, strip_idem.
Qed.

Lemma docstring_info_docstring element :
  docstring (_parse_docstring_info element) = docstring element.
Proof.
  unfold _parse_docstring_info.
  destruct (docstring element) as [[|c d]|] eqn:E; auto.
  destruct (dict_get "summary" _) as [text|];
    [destruct (split_lines text) as [|first [|second others]]|];
    destruct (dict_get "raises" _); cbn; auto.
Qed.

(** X21. The docstring the extractor stores for a class or a module is
    the cleaned text of the first string statement; it has no white space
    at either end, so it is empty or not blank: a class is reported as
    missing documentation by a presence check exactly when it does not
    count as documented. *)
Theorem class_docstring_is_empty_or_not_blank :
  forall cls_name body lineno end_lineno (path : Path) (tree : Module_),
    (exists ce,
        _parse_class (ClassDef cls_name body lineno end_lineno) path
        = Some ce /\
        docstring ce = option_map _clean_docstring (raw_docstring body) /\
        (forall d, docstring ce = Some d -> strip d = d) /\
        docstring_blank ce = negb (truthy (docstring ce))) /\
    (forall d, docstring (hd (new_element "" MODULE path 0)
                             (elements_of_tree tree path)) = Some d ->
               strip d = d).
Proof.
  intros cls_name body lineno end_lineno path tree.
  assert (Hstored : forall e,
             docstring e = option_map _clean_docstring (raw_docstring body)
             -> docstring e
                = option_map _clean_docstring (raw_docstring body) /\
                (forall d, docstring e = Some d -> strip d = d) /\
                docstring_blank e = negb (truthy (docstring e))).
  { intros e He.
    assert (Hs : forall d, docstring e = Some d -> strip d = d).
    { intros d Hd. rewrite He in Hd.
      destruct (raw_docstring body); [|discriminate].
      injection Hd as <-. apply clean_docstring_stripped. }
    repeat split; auto. unfold docstring_blank.
    destruct (docstring e) as [[|c d]|]; try reflexivity.
    rewrite (Hs _ eq_refl). reflexivity. }
  split.
  - unfold _parse_class, _parse_class_body. eexists. split; [reflexivity|].
    destruct (truthy _); apply Hstored;
      [rewrite docstring_info_docstring|]; reflexivity.
  - unfold elements_of_tree.
    destruct (collect (walk tree) path) as [[elems fns] clss].
    cbn [hd docstring set_members set_docstring].
    unfold extract_docstring. intros d Hd.
    destruct (raw_docstring (mod_body tree)); [|discriminate].
    injection Hd as <-. apply clean_docstring_stripped.
Qed.

(* ================================================================== *)
(** * Sections and summaries *)
(* ================================================================== *)

Lemma dict_set_NoDup_keys {V} k (v : V) d :
  NoDup (map fst d) -> NoDup (map fst (dict_set k v d)).
Proof.
  intros Hd. destruct (dict_get k d) as [v0|] eqn:Hget.
  - now rewrite (dict_set_keys k v v0 d Hget).
  - rewrite (dict_set_new k v d Hget), map_app. cbn [map fst].
    apply NoDup_app; [exact Hd | repeat constructor; intros [] | ].
    intros x Hx [<- | []]. now apply dict_get_None in Hget.
Qed.

Lemma find_section_In pats line n :
  find_section pats line = Some n -> In n (map fst pats).
Proof.
  induction pats as [|[section_name pattern] pats IH]; [discriminate|].
  cbn [find_section map fst].
  destruct (Re.rmatch_ Re.IGNORECASE pattern line).
  - intros [= ->]. now left.
  - intros H. right. auto.
Qed.

Lemma sections_loop_invariant (P : string * string -> Prop) names lines :
  (forall n v, In n names -> P (n, strip v)) ->
  incl (map fst section_patterns) names ->
  forall sections current_section current_content,
    NoDup (map fst sections) -> Forall P sections ->
    In current_section names ->
    let r := sections_loop lines sections current_section current_content in
    NoDup (map fst r) /\ Forall P r.
Proof.
  intros HP Hnames.
  assert (Hsave : forall sections cur content,
             NoDup (map fst sections) -> Forall P sections -> In cur names ->
             NoDup (map fst (save_section sections cur content)) /\
             Forall P (save_section sections cur content)).
  { intros sections cur content Hnd Hall Hcur. unfold save_section.
    destruct content; [auto|]. split.
    - now apply dict_set_NoDup_keys.
    - apply dict_set_Forall; auto. }
  induction lines as [|line lines IH];
    intros sections cur content Hnd Hall Hcur; cbn [sections_loop].
  - now apply Hsave.
  - destruct (find_section section_patterns (strip line)) as [found|] eqn:E.
    + destruct (Hsave sections cur content Hnd Hall Hcur) as [Hnd' Hall'].
      apply IH; auto. apply Hnames. now apply find_section_In with (strip line).
    + now apply IH.
Qed.

(** X22. The sections of a docstring have distinct names taken from
    [summary], [args], [returns], [raises], [yields], [examples], [note]
    and [warning], and the text of every section has no white space at
    either end. *)
Theorem sections_are_named_and_stripped :
  forall (doc : string),
    let sections := _parse_docstring_sections doc in
    NoDup (map fst sections) /\
    Forall (fun entry =>
              In (fst entry)
                 ["summary"; "args"; "returns"; "raises"; "yields";
                  "examples"; "note"; "warning"]%list /\
              strip (snd entry) = snd entry)
           sections.
Proof.
  intros doc sections. subst sections. unfold _parse_docstring_sections.
  destruct doc as [|c d]; [split; constructor|].
  apply sections_loop_invariant
    with (names := ["summary"; "args"; "returns"; "raises"; "yields";
                    "examples"; "note"; "warning"]%list).
  - intros n v Hn. cbn [fst snd]. split; [exact Hn | apply strip_idem].
  - intros n Hn. right. exact Hn.
  - constructor.
  - constructor.
  - now left.
Qed.

Lemma sections_loop_plain lines :
  Forall (fun line => find_section section_patterns (strip line) = None)
         lines ->
  forall sections current_section current_content,
    sections_loop lines sections current_section current_content
    = save_section sections current_section
                   (current_content ++ lines)%list.
Proof.
  induction 1 as [|line lines Hline _ IH]; intros sections cur content;
    cbn [sections_loop].
  - now rewrite app_nil_r.
  - rewrite Hline, IH, <- app_assoc. reflexivity.
Qed.

(** X23. A docstring that is not empty and none of whose lines is a
    section header has one section, the summary, whose text is the whole
    docstring without the white space at its ends. *)
Theorem docstring_without_headers_is_one_summary :
  forall (doc : string),
    doc <> "" ->
    Forall (fun line => find_section section_patterns (strip line) = None)
           (split_lines doc) ->
    _parse_docstring_sections doc = [("summary", strip doc)].
Proof.
  intros doc Hne Hplain. unfold _parse_docstring_sections.
  destruct doc as [|c d]; [contradiction|].
  rewrite (sections_loop_plain _ Hplain). cbn [app].
  destruct (split_on_lines nl (String c d)) as (Hnil & _ & Hjoin).
  fold (split_lines (String c d)) in Hnil, Hjoin. fold NL in Hjoin.
  unfold save_section.
  destruct (split_lines (String c d)) as [|x l] eqn:E; [contradiction|].
  rewrite Hjoin. reflexivity.
Qed.

(** A two-line docstring without a header. *)
Lemma docstring_without_headers_is_one_summary_witness :
  let doc := "Stores the UserId." ++ NL ++ "  Returns nothing at all.  " in
  doc <> "" /\
  Forall (fun line => find_section section_patterns (strip line) = None)
         (split_lines doc) /\
  _parse_docstring_sections doc = [("summary", strip doc)].
Proof.
  intros doc.
  assert (Hne : doc <> "") by (vm_compute; discriminate).
  assert (Hplain :
            Forall (fun line =>
                      find_section section_patterns (strip line) = None)
                   (split_lines doc)).
  { replace (split_lines doc)
      with ["Stores the UserId."; "  Returns nothing at all.  "]%list
      by (vm_compute; reflexivity).
    repeat (apply Forall_cons; [vm_compute; reflexivity|]).
    apply Forall_nil. }
  split; [exact Hne|]. split; [exact Hplain|].
  exact (docstring_without_headers_is_one_summary doc Hne Hplain).
Defined.

Lemma split_on_head sep c x :
  Ascii.eqb c sep = false ->
  exists w ws, split_on sep (String c x) = (String c w :: ws)%list.
Proof.
  intros Hc. cbn [split_on]. rewrite Hc.
  destruct (split_on sep x); eexists _, _; reflexivity.
Qed.

(** The summary [_parse_function] stores for a docstring that is not
    blank is not empty. *)
Lemma function_summary_not_empty doc :
  strip doc <> "" -> fst (function_summary doc) <> "".
Proof.
  intros Hne. unfold function_summary.
  pose proof (strip_lstrip_fixed doc) as Hl. apply lstrip_fixed in Hl.
  destruct (strip doc) as [|c x]; [contradiction|].
  assert (Hc : Ascii.eqb c nl = false).
  { destruct (Ascii.eqb_spec c nl) as [->|]; [discriminate Hl|reflexivity]. }
  destruct (split_on_head nl c x Hc) as (w & ws & E).
  unfold split_lines. rewrite E. destruct ws; discriminate.
Qed.

Lemma count_type_none kind issues :
  Forall (fun i => issue_type i <> kind) issues -> count_type kind issues = 0.
Proof.
  unfold count_type. induction 1 as [|i l Hi _ IH]; [reflexivity|].
  cbn [filter]. destruct (String.eqb_spec (issue_type i) kind);
    [contradiction | exact IH].
Qed.

(** Closes a goal [Forall (fun i => issue_type i <> kind) l] for a list
    built from conditionals, appends and single issues of other kinds. *)
Ltac other_kinds :=
  repeat first
    [ apply Forall_nil
    | apply Forall_cons; [ cbn; discriminate | ]
    | apply Forall_app; split
    | apply Forall_flat_map, Forall_forall; intros
    | match goal with
      | |- Forall _ (if ?b then _ else _) => destruct b
      | |- Forall _ (match ?x with _ => _ end) => destruct x
      end ].

(** X24. A function whose docstring is not blank is never reported as
    lacking a summary, whatever its first line is: the extractor stores
    the first line of the stripped docstring as its summary, and the
    completeness check looks no further. *)
Theorem function_with_text_never_lacks_summary :
  forall fn_name fn_args returns body lineno fn_parent (path : Path)
         (fe : CodeElement),
    _parse_function
      (FunctionDef fn_name fn_args returns body lineno fn_parent) path
    = Some fe ->
    docstring_blank fe = false ->
    truthy (summary fe) = true /\
    count_type "missing_summary" (_check_completeness fe) = 0.
Proof.
  intros fn_name fn_args returns body lineno fn_parent path fe Hfe Hblank.
  assert (Hsum : truthy (summary fe) = true).
  { unfold _parse_function, _parse_function_body in Hfe.
    destruct (_extract_parameters fn_args fn_parent) as [ps|e];
      cbn [bind] in Hfe; [|discriminate Hfe].
    destruct (get_docstring body) as [[|c d]|];
      try (injection Hfe as <-; discriminate Hblank).
    pose proof (function_summary_not_empty (String c d)) as Hs.
    destruct (function_summary (String c d)) as [s descr].
    injection Hfe as <-.
    assert (Hb : negb (truthy (Some (strip (String c d)))) = false)
      by exact Hblank.
    cbn [fst] in Hs. destruct s as [|a0 s]; [|reflexivity].
    exfalso. apply Hs; [|reflexivity].
    intros E. rewrite E in Hb. discriminate Hb. }
  split; [exact Hsum|].
  apply count_type_none. unfold _check_completeness.
  rewrite Hsum. cbn [negb andb].
  unfold _check_parameters_documentation, _check_return_documentation,
    _check_exceptions_documentation.
  other_kinds.
Qed.

(** A function whose docstring opens with a section header: the header
    line itself is stored as the summary. *)
Lemma function_with_text_never_lacks_summary_witness :
  match _parse_function
          (FunctionDef "run" (mkArguments [] []) None
                       [ExprStr (Inputs.lines ["Args:"; "    none: nothing"])]
                       1 None)
          Inputs.calc_py
  with
  | Some fe =>
      docstring_blank fe = false /\
      summary fe = Some "Args:" /\
      truthy (summary fe) = true /\
      count_type "missing_summary" (_check_completeness fe) = 0
  | None => False
  end.
Proof.
  pose proof (function_with_text_never_lacks_summary
                "run" (mkArguments [] []) None
                [ExprStr (Inputs.lines ["Args:"; "    none: nothing"])] 1 None
                Inputs.calc_py) as H.
  destruct (_parse_function _ Inputs.calc_py) as [fe|] eqn:E;
    [|vm_compute in E; discriminate E].
  assert (Hblank : docstring_blank fe = false)
    by (vm_compute in E; injection E as <-; vm_compute; reflexivity).
  assert (Hsum : summary fe = Some "Args:")
    by (vm_compute in E; injection E as <-; vm_compute; reflexivity).
  split; [exact Hblank|]. split; [exact Hsum|].
  exact (H fe eq_refl Hblank).
Defined.

(* ================================================================== *)
(** * What the matcher consumes *)
(* ================================================================== *)








(** ** The texts of the collection pattern *)




(** ** The amended claim on terminology *)


